(** * url-cleaner: the content extraction and sanitizing pipeline

    A shallow embedding of [src/url-cleaner/_url_cleaner.py]: the
    boilerplate classifier, the main-content locator, the recursive
    sanitizer, the post-processors, the metadata injector and the
    orchestrator [clean_html_content], with the properties the
    specification states about them; and the command-line program around
    them ([load_urls], [generate_filename], [fetch_url_content],
    [save_cleaned_html], [main]), with properties read off the code.

    Modelling conventions.
    - A string is a sequence of code points; the character tables below
      cover the code points up to 255.
    - A parse tree is a [Node]: a [Tag] with its name, its attribute
      dictionary in insertion order and its contents, or a
      [NavigableString].  Comment, processing-instruction and doctype
      strings are not represented: the first loop of [strip_undesirables]
      removes the first two before any function modelled here runs, and
      the doctype never reaches an element.
    - BeautifulSoup, lxml, urllib and the clock are outside the repository.
      The calls whose result the code only passes on (the parser, the
      serializer, the validator, [urljoin], [urlparse]) are fields of a
      [Library] record and may raise, and so is [find] where the code
      hands it a tag in place of a name; the tree queries used as
      documented ([get_text], [find_all], [select_one], ...) are written
      out.
    - The file system, the network and the clock of the command-line
      program are a state outside the program, and the calls into them
      are the fields of a [Host]; hashing and URL splitting are the
      fields of a [Platform].
    - A float is the rational number it stands for.  The density scores
      and their products with 1.1 are rounded as doubles are (53
      significant bits, to nearest, ties to even); the link density is
      compared exactly, which gives the same answer for the lengths the
      test counts at.
    - Records of level DEBUG are dropped by the configured level (INFO)
      and are not modelled; the other records are accumulated in order,
      their messages without the text of an exception and without
      formatted scores. *)

From Stdlib Require Import String Ascii DecimalString List Bool Arith ZArith
  QArith Lia.
Import ListNotations.
Set Warnings "-register-all".
Open Scope string_scope.
Open Scope list_scope.
Open Scope nat_scope.

(** ** Python strings *)

Module PyStr.

(** [str.isspace] on one character; also what [\s] matches in [re]. *)
Definition isspace (c : ascii) : bool :=
  let n := nat_of_ascii c in
  ((9 <=? n) && (n <=? 13)) || ((28 <=? n) && (n <=? 32))
  || (n =? 133) || (n =? 160).

Definition lower_char (c : ascii) : ascii :=
  let n := nat_of_ascii c in
  if ((65 <=? n) && (n <=? 90))
     || ((192 <=? n) && (n <=? 222) && negb (n =? 215))
  then ascii_of_nat (n + 32) else c.

Fixpoint lower (s : string) : string :=
  match s with
  | EmptyString => EmptyString
  | String c r => String (lower_char c) (lower r)
  end.

Fixpoint lstrip (s : string) : string :=
  match s with
  | EmptyString => EmptyString
  | String c r => if isspace c then lstrip r else s
  end.

Fixpoint rstrip (s : string) : string :=
  match s with
  | EmptyString => EmptyString
  | String c r =>
      match rstrip r with
      | EmptyString => if isspace c then EmptyString else String c EmptyString
      | r' => String c r'
      end
  end.

Definition strip (s : string) : string := rstrip (lstrip s).

(** Truth value of a string: non-empty. *)
Definition truthy (s : string) : bool :=
  match s with EmptyString => false | _ => true end.

Fixpoint startswith (s p : string) : bool :=
  match p, s with
  | EmptyString, _ => true
  | String a p', String b s' => Ascii.eqb a b && startswith s' p'
  | String _ _, EmptyString => false
  end.

(** [p in s]. *)
Fixpoint contains (s p : string) : bool :=
  startswith s p ||
  match s with
  | EmptyString => false
  | String _ r => contains r p
  end.

Fixpoint join (sep : string) (l : list string) : string :=
  match l with
  | [] => EmptyString
  | [x] => x
  | x :: r => x ++ sep ++ join sep r
  end.

(** [s.split()]: the maximal runs of non-whitespace characters.  [cur] is
    the run being read, reversed. *)
Fixpoint split_from (cur : list ascii) (s : string) : list string :=
  let flush :=
    match cur with
    | [] => []
    | _ => [string_of_list_ascii (rev cur)]
    end in
  match s with
  | EmptyString => flush
  | String c r =>
      if isspace c then flush ++ split_from [] r
      else split_from (c :: cur) r
  end.

Definition split (s : string) : list string := split_from [] s.

(** [re.sub(r'\s+', ' ', s)]; [in_run] says the previous character was
    whitespace. *)
Fixpoint collapse_from (in_run : bool) (s : string) : string :=
  match s with
  | EmptyString => EmptyString
  | String c r =>
      if isspace c
      then if in_run then collapse_from true r
           else String " " (collapse_from true r)
      else String c (collapse_from false r)
  end.

Definition collapse_whitespace (s : string) : string := collapse_from false s.

Definition mem (x : string) (l : list string) : bool :=
  existsb (String.eqb x) l.

End PyStr.

(** ** The document tree *)

(** An attribute value: bs4 keeps [class] (and the other multi-valued
    attributes) as a list of tokens and everything else as one string. *)
Inductive AttrValue : Type :=
| AStr (s : string)
| AList (l : list string).

Definition Attrs : Type := list (string * AttrValue).

Inductive Node : Type :=
| NavigableString (s : string)
| Tag (name : string) (attrs : Attrs) (contents : list Node).

Section NodeInduction.
Variable P : Node -> Prop.
Hypothesis P_string : forall s, P (NavigableString s).
Hypothesis P_tag :
  forall name attrs contents, Forall P contents -> P (Tag name attrs contents).

Fixpoint Node_ind_nested (n : Node) : P n :=
  match n with
  | NavigableString s => P_string s
  | Tag name attrs contents =>
      P_tag name attrs contents
        ((fix go (l : list Node) : Forall P l :=
            match l with
            | [] => Forall_nil P
            | x :: r => Forall_cons x (Node_ind_nested x) (go r)
            end) contents)
  end.
End NodeInduction.

Module Dict.

(** [d.get(k)] *)
Fixpoint get (k : string) (d : Attrs) : option AttrValue :=
  match d with
  | [] => None
  | (k', v) :: r => if String.eqb k k' then Some v else get k r
  end.

(** [d[k] = v]: an existing key keeps its place. *)
Fixpoint set (k : string) (v : AttrValue) (d : Attrs) : Attrs :=
  match d with
  | [] => [(k, v)]
  | (k', v') :: r =>
      if String.eqb k k' then (k', v) :: r else (k', v') :: set k v r
  end.

Definition keys (d : Attrs) : list string := map fst d.

End Dict.

Definition attr_truthy (v : AttrValue) : bool :=
  match v with
  | AStr s => PyStr.truthy s
  | AList [] => false
  | AList _ => true
  end.

(** [str(value)]; bs4 hands a list only for the multi-valued attributes. *)
Definition py_str (v : AttrValue) : string :=
  match v with
  | AStr s => s
  | AList l =>
      ("[" ++ PyStr.join ", " (map (fun s => "'" ++ s ++ "'")%string l) ++ "]")%string
  end.

Definition tag_name_of (n : Node) : option string :=
  match n with
  | Tag name _ _ => Some name
  | NavigableString _ => None
  end.

Definition contents_of (n : Node) : list Node :=
  match n with
  | Tag _ _ contents => contents
  | NavigableString _ => []
  end.

(** ** What lies outside the repository *)

Inductive PyException : Type :=
| ValueError
| XMLSyntaxError
| ParserError
| OtherException.

Inductive Result (A : Type) : Type :=
| Ok (a : A)
| Raised (e : PyException).
Arguments Ok {A} a.
Arguments Raised {A} e.

Record Library : Type := {
  (** [BeautifulSoup(html_content, "lxml")], comments already taken out *)
  BeautifulSoup : string -> Result Node;
  (** [urllib.parse.urljoin(base, url)] *)
  urljoin : string -> string -> Result string;
  (** [urllib.parse.urlparse(url).scheme] *)
  urlparse_scheme : string -> Result string;
  (** [soup.prettify(formatter="minimal", encoding='utf-8').decode('utf-8')] *)
  prettify : Node -> Result string;
  (** [lxml_html.fromstring(text.encode('utf-8'))], the value dropped *)
  fromstring : string -> Result unit;
  (** [outer.find(inner)] for two tags: whether it finds anything.  bs4
      documents [find] for names, functions and patterns; what it makes
      of a tag in that place is left to the library. *)
  tag_find : Node -> Node -> bool
}.

(** ** Logging *)

Inductive Level : Type := INFO | WARNING | ERROR.

Record LogRecord : Type := { levelname : Level; message : string }.

Definition Logged (A : Type) : Type := (A * list LogRecord)%type.

Definition warning (msg : string) : LogRecord :=
  {| levelname := WARNING; message := msg |}.

Definition info (msg : string) : LogRecord :=
  {| levelname := INFO; message := msg |}.

(** ** Constants *)

Definition LLM_OPTIMIZED_TAGS : list string :=
  [ "html"; "head"; "title"; "body";
    "main"; "article"; "section";
    "h1"; "h2"; "h3"; "h4"; "h5"; "h6"; "p"; "br"; "hr";
    "ul"; "ol"; "li"; "dl"; "dt"; "dd";
    "strong"; "em"; "b"; "i"; "code"; "pre"; "mark";
    "blockquote"; "q"; "cite";
    "table"; "caption"; "thead"; "tbody"; "tr"; "th"; "td";
    "a" ].

Definition ATTRIBUTE_ALLOW_LIST : list (string * list string) :=
  [ ("a", ["href"]);
    ("pre", ["class"]);
    ("code", ["class"]);
    ("th", ["scope"]);
    ("td", ["colspan"; "rowspan"]);
    ("html", ["lang"]);
    ("blockquote", ["cite"]);
    ("q", ["cite"]) ].

(** [ATTRIBUTE_ALLOW_LIST.get(tag_name, set())] *)
Fixpoint allow_list_get (tag_name : string) (table : list (string * list string))
  : list string :=
  match table with
  | [] => []
  | (k, v) :: r => if String.eqb tag_name k then v else allow_list_get tag_name r
  end.

Definition NON_CONTENT_TAGS : list string :=
  [ "script"; "style"; "link"; "meta";
    "img"; "picture"; "figure"; "figcaption"; "svg"; "canvas"; "video";
    "audio"; "iframe";
    "nav"; "aside"; "header"; "footer";
    "form"; "input"; "button"; "select"; "textarea"; "label";
    "noscript"; "template"; "map"; "area"; "object"; "embed"; "source" ].

Definition NON_CONTENT_PATTERNS : list (string * list string) :=
  [ ("class",
     [ "nav"; "menu"; "sidebar"; "footer"; "header"; "banner"; "cookie";
       "modal"; "popup"; "social"; "comment"; "related"; "widget"; "ads";
       "pagination"; "breadcrumb"; "toolbar"; "utility"; "skip-link";
       "site-header"; "site-footer"; "advertisement"; "promo"; "subnav";
       "flyout"; "dropdown"; "toc"; "index" ]);
    ("id",
     [ "navigation"; "menu"; "sidebar"; "footer"; "header"; "banner";
       "cookie"; "modal"; "popup"; "social"; "comments"; "related";
       "widget"; "ads"; "pagination"; "breadcrumbs"; "toolbar"; "utilities";
       "skip"; "siteheader"; "sitefooter"; "advert"; "promo"; "subnav";
       "flyout"; "dropdown"; "toc"; "index" ]);
    ("role",
     [ "navigation"; "banner"; "contentinfo"; "complementary"; "search";
       "form"; "dialog"; "alertdialog"; "menubar"; "toolbar"; "directory";
       "log"; "status" ]) ].

Definition BOILERPLATE_PHRASES : list string :=
  [ "cookie preferences"; "privacy policy"; "terms of service";
    "terms of use"; "all rights reserved"; "related articles"; "share this";
    "follow us"; "skip to main content"; "advertisement"; "subscribe now";
    "sign up"; "log in"; "register"; "download pdf"; "print page";
    "add to cart"; "view cart"; "customer service"; "contact us"; "site map";
    "about us"; "careers" ].

Definition MIN_MAIN_CONTENT_LENGTH : nat := 150.
Definition MIN_CANDIDATE_TEXT_LENGTH : nat := 100.
Definition MAX_BOILERPLATE_PHRASE_LENGTH : nat := 250.

(** ** Tree queries of bs4 *)

(** [tag._all_strings(strip)]: the strings below a tag in document order;
    with [strip] each one stripped and the empty ones left out. *)
Fixpoint all_strings (strip : bool) (n : Node) : list string :=
  match n with
  | NavigableString s =>
      if strip
      then let s' := PyStr.strip s in if PyStr.truthy s' then [s'] else []
      else [s]
  | Tag _ _ contents => flat_map (all_strings strip) contents
  end.

(** [tag.get_text(separator, strip=...)] *)
Definition get_text (separator : string) (strip : bool) (n : Node) : string :=
  PyStr.join separator (all_strings strip n).

(** [tag.find_all(recursive=False)]: the child tags. *)
Definition child_tags (n : Node) : list Node :=
  filter (fun c => match c with Tag _ _ _ => true | _ => false end)
         (contents_of n).

Definition named (name : string) (n : Node) : bool :=
  match n with
  | Tag name' _ _ => String.eqb name' name
  | NavigableString _ => false
  end.

(** A tag and the tags below it, in document order. *)
Fixpoint descendants_or_self (n : Node) : list Node :=
  match n with
  | NavigableString _ => []
  | Tag _ _ contents => n :: flat_map descendants_or_self contents
  end.

(** The tags below a node, the node itself left out. *)
Definition descendant_tags (n : Node) : list Node :=
  flat_map descendants_or_self (contents_of n).

(** [tag.find_all(name)] and [tag.find(name)] *)
Definition find_all (name : string) (n : Node) : list Node :=
  filter (named name) (descendant_tags n).

Definition find (name : string) (n : Node) : option Node :=
  hd_error (find_all name n).

(** ** 4.3 The sanitizing tree transformer *)

(** The wrapper of an unwrapped tag is a [div] without attributes; this is
    the test the callers use to recognise it. *)
Definition is_fragment (n : Node) : bool :=
  match n with
  | Tag name attrs _ =>
      String.eqb name "div" && match attrs with [] => true | _ => false end
  | NavigableString _ => false
  end.

(** Appending a cleaned child to the new tag: the contents of a wrapper
    are moved over one by one, anything else is appended as it is. *)
Definition splice (cleaned_child : Node) : list Node :=
  if is_fragment cleaned_child then contents_of cleaned_child
  else [cleaned_child].

(** The loop [for child in element.children]: every child is cleaned by
    [f]; the results that are not [None] are collected in order. *)
Definition clean_each (f : Node -> Logged (option Node))
  : list Node -> Logged (list Node) :=
  fix go (children : list Node) : Logged (list Node) :=
    match children with
    | [] => ([], [])
    | child :: rest =>
        let (cleaned_child, w) := f child in
        let (cleaned_rest, ws) := go rest in
        (match cleaned_child with
         | Some c => c :: cleaned_rest
         | None => cleaned_rest
         end, w ++ ws)
    end.

Section Transformer.

Variable lib : Library.
Variable original_url : string.
Variable max_depth : nat.

Definition depth_warning : LogRecord :=
  warning ("Recursion depth limit ("
           ++ NilZero.string_of_uint (Nat.to_uint max_depth)
           ++ ") reached, skipping further nesting.").

Definition href_warning (e : PyException) (value : AttrValue) : LogRecord :=
  match e with
  | ValueError =>
      warning ("Could not parse/resolve href '" ++ py_str value ++ "' from "
               ++ original_url)
  | _ =>
      warning ("Error processing href '" ++ py_str value ++ "' from "
               ++ original_url)
  end.

(** The [href] branch: the value the attribute is given, or [None] where
    the loop goes on to the next attribute. *)
Definition resolve_href (value : AttrValue) : Logged (option AttrValue) :=
  match urljoin lib original_url (PyStr.strip (py_str value)) with
  | Raised e => (None, [href_warning e value])
  | Ok absolute_href =>
      match urlparse_scheme lib absolute_href with
      | Raised e => (None, [href_warning e value])
      | Ok scheme =>
          if PyStr.mem scheme ["http"; "https"]
          then (Some (AStr absolute_href), [])
          else (None, [])
      end
  end.

Definition is_language_class (c : string) : bool :=
  PyStr.startswith (PyStr.lower c) "language-"
  || PyStr.startswith (PyStr.lower c) "lang-".

(** The [class] branch of [pre] and [code]. *)
Definition language_class (value : AttrValue) : option AttrValue :=
  let classes :=
    match value with
    | AList l => l
    | AStr _ => PyStr.split (py_str value)
    end in
  match List.find is_language_class classes with
  | Some lang_class =>
      if PyStr.truthy lang_class then Some (AList [lang_class]) else None
  | None => None
  end.

(** One turn of the loop over [element.attrs.items()]: the cleaned value
    of an attribute that is kept. *)
Definition clean_attribute (tag_name attr : string) (value : AttrValue)
  : Logged (option AttrValue) :=
  let attr_lower := PyStr.lower attr in
  if PyStr.mem attr_lower (allow_list_get tag_name ATTRIBUTE_ALLOW_LIST) then
    let (cleaned_value, w) :=
      if String.eqb tag_name "a" && String.eqb attr_lower "href" then
        resolve_href value
      else if PyStr.mem tag_name ["pre"; "code"]
              && String.eqb attr_lower "class" then
        (language_class value, [])
      else (Some value, []) (* [str] of a string is the string *) in
    (match cleaned_value with
     | Some v => if attr_truthy v then Some v else None
     | None => None
     end, w)
  else (None, []).

Fixpoint clean_attributes (tag_name : string) (items clean_tag : Attrs)
  : Logged Attrs :=
  match items with
  | [] => (clean_tag, [])
  | (attr, value) :: rest =>
      let (cleaned_value, w) := clean_attribute tag_name attr value in
      let clean_tag' :=
        match cleaned_value with
        | Some v => Dict.set attr v clean_tag
        | None => clean_tag
        end in
      let (result, ws) := clean_attributes tag_name rest clean_tag' in
      (result, w ++ ws)
  end.

Fixpoint clean_element_recursively (element : Node) (depth : nat)
  {struct element} : Logged (option Node) :=
  if max_depth <? depth then (None, [depth_warning])
  else
    match element with
    | NavigableString s =>
        let stripped := PyStr.strip s in
        (if PyStr.truthy stripped then Some (NavigableString stripped)
         else None, [])
    | Tag name attrs contents =>
        let tag_name := PyStr.lower name in
        if negb (PyStr.mem tag_name LLM_OPTIMIZED_TAGS) then
          let (fragment, w) :=
            clean_each (fun child => clean_element_recursively child (S depth))
                       contents in
          (match fragment with
           | [] => None
           | _ => Some (Tag "div" [] fragment)
           end, w)
        else
          let (clean_attrs, w1) := clean_attributes tag_name attrs [] in
          let (cleaned, w2) :=
            clean_each (fun child => clean_element_recursively child (S depth))
                       contents in
          let clean_contents := flat_map splice cleaned in
          (match clean_contents with
           | [] =>
               if negb (PyStr.mem tag_name ["br"; "hr"]) then None
               else Some (Tag name clean_attrs clean_contents)
           | _ => Some (Tag name clean_attrs clean_contents)
           end, w1 ++ w2)
    end.

End Transformer.

(** ** 4.1 The boilerplate classifier *)

Definition BOILERPLATE_TAGS : list string :=
  [ "nav"; "aside"; "header"; "footer"; "form"; "select"; "option";
    "button"; "input"; "textarea"; "label" ].

Definition is_nil {A : Type} (l : list A) : bool :=
  match l with [] => true | _ => false end.

(** One turn of the loop over [NON_CONTENT_PATTERNS.items()]. *)
Definition attribute_matches (attrs : Attrs) (entry : string * list string)
  : bool :=
  let (attr_name, patterns) := entry in
  match Dict.get attr_name attrs with
  | None => false
  | Some attr_value =>
      if negb (attr_truthy attr_value) then false
      else
        let values :=
          match attr_value with AList l => l | AStr s => [s] end in
        let values_lower := map PyStr.lower values in
        existsb (fun pattern =>
                   existsb (fun val => PyStr.contains val pattern) values_lower)
                patterns
  end.

Definition sum (l : list nat) : nat := fold_right Nat.add 0 l.

(** [link_text_length / text_length > 0.65]: both lengths are integers and
    the test only counts below 500 characters, where the correctly rounded
    quotient lies on the same side of the double 0.65 as the exact
    quotient lies of 13/20. *)
Definition link_density_exceeds (link_text_length text_length : nat) : bool :=
  13 * text_length <? 20 * link_text_length.

Definition is_likely_boilerplate (element : Node) : bool :=
  match element with
  | NavigableString _ => false
  | Tag name attrs _ =>
      let tag_name := PyStr.lower name in
      if PyStr.mem tag_name BOILERPLATE_TAGS then true
      else if existsb (attribute_matches attrs) NON_CONTENT_PATTERNS then true
      else
        let text_content := get_text " " true element in
        let text_length := String.length text_content in
        let link_count := length (filter (named "a") (child_tags element)) in
        if (text_length =? 0) && (link_count =? 0)
           && is_nil (child_tags element)
        then true
        else if (2 <? link_count) && (0 <? text_length)
                && link_density_exceeds
                     (sum (map (fun a => String.length (get_text "" true a))
                               (find_all "a" element)))
                     text_length
                && (text_length <? MAX_BOILERPLATE_PHRASE_LENGTH * 2)
        then true
        else if (0 <? text_length)
                && (text_length <? MAX_BOILERPLATE_PHRASE_LENGTH)
                && existsb (fun phrase =>
                              PyStr.contains (PyStr.lower text_content) phrase)
                           BOILERPLATE_PHRASES
        then true
        else false
  end.

(** ** Equality of bs4 objects

    [Tag.__eq__] compares name, attributes and contents, so a dictionary
    keyed by tags is keyed by their structure. *)

Fixpoint list_eqb {A : Type} (eqb : A -> A -> bool) (l1 l2 : list A) : bool :=
  match l1, l2 with
  | [], [] => true
  | x :: r1, y :: r2 => eqb x y && list_eqb eqb r1 r2
  | _, _ => false
  end.

Definition attr_value_eqb (a b : AttrValue) : bool :=
  match a, b with
  | AStr x, AStr y => String.eqb x y
  | AList x, AList y => list_eqb String.eqb x y
  | _, _ => false
  end.

(** [d1 == d2] for dictionaries: the order of insertion does not count. *)
Definition dict_eqb (d1 d2 : Attrs) : bool :=
  (length d1 =? length d2)
  && forallb (fun kv =>
                match Dict.get (fst kv) d2 with
                | Some v => attr_value_eqb (snd kv) v
                | None => false
                end) d1.

Fixpoint node_eqb (a b : Node) : bool :=
  match a, b with
  | NavigableString s, NavigableString t => String.eqb s t
  | Tag n1 a1 c1, Tag n2 a2 c2 =>
      String.eqb n1 n2 && dict_eqb a1 a2
      && (fix go (l1 l2 : list Node) : bool :=
            match l1, l2 with
            | [], [] => true
            | x :: r1, y :: r2 => node_eqb x y && go r1 r2
            | _, _ => false
            end) c1 c2
  | _, _ => false
  end.

(** ** 4.2 The main-content locator *)

(** The selectors of the first strategy, as soupsieve reads them. *)
Inductive Selector : Type :=
| ByType (name : string)               (* main *)
| ByAttribute (attr value : string)    (* [role="main"] *)
| ById (id : string)                   (* #content *)
| ByClass (class : string).            (* .content *)

Definition selectors : list Selector :=
  [ ByType "main"; ByType "article"; ByAttribute "role" "main";
    ById "content"; ById "main-content"; ByClass "content";
    ByClass "main-content"; ById "bodyContent"; ByClass "post-content";
    ByClass "entry-content"; ByClass "article-body"; ByClass "story-content" ].

Definition selector_text (sel : Selector) : string :=
  match sel with
  | ByType name => name
  | ByAttribute attr value => "[" ++ attr ++ "=" ++ value ++ "]"
  | ById id => "#" ++ id
  | ByClass class => "." ++ class
  end.

(** The value of an attribute as soupsieve compares it: a list is joined
    with spaces. *)
Definition attribute_text (v : AttrValue) : string :=
  match v with
  | AStr s => s
  | AList l => PyStr.join " " l
  end.

Definition class_tokens (v : AttrValue) : list string :=
  match v with
  | AStr s => PyStr.split s
  | AList l => l
  end.

Definition selector_matches (sel : Selector) (n : Node) : bool :=
  match n with
  | NavigableString _ => false
  | Tag name attrs _ =>
      match sel with
      | ByType t => String.eqb (PyStr.lower name) t
      | ByAttribute attr value =>
          match List.find (fun kv => String.eqb (PyStr.lower (fst kv)) attr)
                          attrs with
          | Some kv => String.eqb (attribute_text (snd kv)) value
          | None => false
          end
      | ById id =>
          match Dict.get "id" attrs with
          | Some v => String.eqb (attribute_text v) id
          | None => false
          end
      | ByClass class =>
          match Dict.get "class" attrs with
          | Some v => PyStr.mem class (class_tokens v)
          | None => false
          end
      end
  end.

(** [soup.select_one(selector)]: the first match in document order. *)
Definition select_one (sel : Selector) (soup : Node) : option Node :=
  List.find (selector_matches sel) (descendant_tags soup).

(** Strategy 1: the loop over the selectors, left at the first selector
    whose match is long enough and no boilerplate. *)
Fixpoint try_selectors (soup : Node) (sels : list Selector)
  : option (Selector * Node) :=
  match sels with
  | [] => None
  | selector :: rest =>
      match select_one selector soup with
      | Some candidate =>
          if (MIN_MAIN_CONTENT_LENGTH
                <? String.length (get_text "" true candidate))
             && negb (is_likely_boilerplate candidate)
          then Some (selector, candidate)
          else try_selectors soup rest
      | None => try_selectors soup rest
      end
  end.

(** Every tag below [n] with its chain of parents, nearest first; the
    order is the document order of [find_all]. *)
Fixpoint with_parents (parents : list Node) (n : Node)
  : list (Node * list Node) :=
  match n with
  | NavigableString _ => []
  | Tag _ _ contents =>
      (n, parents) :: flat_map (with_parents (n :: parents)) contents
  end.

(** Two tags are the same dictionary key when they hash alike and are
    equal: [Tag.__hash__] hashes the serialization, which keeps the order
    of the attributes, so they are the same tree. *)
Definition attrs_same (d1 d2 : Attrs) : bool :=
  list_eqb (fun kv1 kv2 =>
              String.eqb (fst kv1) (fst kv2)
              && attr_value_eqb (snd kv1) (snd kv2)) d1 d2.

Fixpoint node_same (a b : Node) : bool :=
  match a, b with
  | NavigableString s, NavigableString t => String.eqb s t
  | Tag n1 a1 c1, Tag n2 a2 c2 =>
      String.eqb n1 n2 && attrs_same a1 a2
      && (fix go (l1 l2 : list Node) : bool :=
            match l1, l2 with
            | [], [] => true
            | x :: r1, y :: r2 => node_same x y && go r1 r2
            | _, _ => false
            end) c1 c2
  | _, _ => false
  end.

(** The candidate table [dict[Tag, float]], in insertion order.  The
    scores are quotients of integers; they are kept exact. *)
Definition Candidates : Type := list (Node * Q).

Fixpoint candidates_get (k : Node) (d : Candidates) : option Q :=
  match d with
  | [] => None
  | (k', v) :: r => if node_same k k' then Some v else candidates_get k r
  end.

Fixpoint candidates_set (k : Node) (v : Q) (d : Candidates) : Candidates :=
  match d with
  | [] => [(k, v)]
  | (k', v') :: r =>
      if node_same k k' then (k', v) :: r else (k', v') :: candidates_set k v r
  end.

Fixpoint candidates_del (k : Node) (d : Candidates) : Candidates :=
  match d with
  | [] => []
  | (k', v') :: r =>
      if node_same k k' then r else (k', v') :: candidates_del k r
  end.

Definition Qgtb (a b : Q) : bool := negb (Qle_bool a b).
Definition Qltb (a b : Q) : bool := negb (Qle_bool b a).

(** *** Floats

    A float is the rational number it stands for, in lowest terms.  The
    scores are quotients of lengths and their products with 1.1, far
    inside the exponent range of a double: an operation gives the exact
    result rounded to 53 significant bits, to nearest and ties to
    even. *)

(** The integer nearest to [a / b], ties to even, for [0 <= a] and
    [0 < b]. *)
Definition round_half_even (a b : Z) : Z :=
  let q := (a / b)%Z in
  match (2 * (a mod b) ?= b)%Z with
  | Lt => q
  | Gt => (q + 1)%Z
  | Eq => if Z.even q then q else (q + 1)%Z
  end.

(** The double nearest to [q]: with [e] such that [|q| / 2 ^ e] lies
    from [2 ^ 52] up to [2 ^ 53], that quotient rounded to an integer,
    times [2 ^ e]. *)
Definition float_of (q : Q) : Q :=
  let a := Z.abs (Qnum q) in
  let d := Zpos (Qden q) in
  if (a =? 0)%Z then 0%Q
  else
    let scaled (e : Z) : Z * Z :=
      if (0 <=? e)%Z then (a, d * 2 ^ e)%Z else (a * 2 ^ (- e), d)%Z in
    let e0 := (Z.log2 a - Z.log2 d - 52)%Z in
    let e :=
      if (fst (scaled e0) <? 2 ^ 52 * snd (scaled e0))%Z then (e0 - 1)%Z
      else e0 in
    let m :=
      (Z.sgn (Qnum q)
       * round_half_even (fst (scaled e)) (snd (scaled e)))%Z in
    Qred (if (0 <=? e)%Z then (m * 2 ^ e)%Z # 1
          else m # Z.to_pos (2 ^ (- e))).

(** [a * b] and [a / b] on floats; the quotient of two integers is
    rounded once, as Python rounds it. *)
Definition float_mul (a b : Q) : Q := float_of (a * b).

Definition float_div (a b : nat) : Q :=
  float_of (Z.of_nat a # Pos.of_nat b).

(** The literal [1.1] *)
Definition ratio : Q := float_of (11 # 10).

(** [outer.find(inner)] as the comments at its two uses read it: a tag
    equal to [inner] lies below [outer]. *)
Definition wraps (outer inner : Node) : bool :=
  existsb (node_eqb inner) (descendant_tags outer).

(** [score = text_length / (1 + child_penalty)] *)
Definition density_score (container : Node) : Q :=
  let text_length := String.length (get_text "" true container) in
  let child_penalty :=
    length (filter is_likely_boilerplate (child_tags container)) in
  float_div text_length (1 + child_penalty).

(** The walk up the parents: is one of them a candidate whose score is
    more than [ratio] times [score]? *)
Definition nested_in_better (candidates : Candidates) (parents : list Node)
  (score : Q) : bool :=
  existsb (fun parent =>
             match candidates_get parent candidates with
             | Some s => Qgtb s (float_mul score ratio)
             | None => false
             end) parents.

Section Locator.

Variable lib : Library.

(** The loop over the existing candidates; it stops with [should_add]
    false, or ends with the candidates to remove. *)
Fixpoint review_existing (container : Node) (score : Q)
  (existing : Candidates) (children_to_remove : list Node)
  : bool * list Node :=
  match existing with
  | [] => (true, children_to_remove)
  | (existing_candidate, existing_score) :: rest =>
      if tag_find lib container existing_candidate then
        if Qltb score (float_mul existing_score ratio)
        then (false, children_to_remove)
        else review_existing container score rest
               (children_to_remove ++ [existing_candidate])
      else if tag_find lib existing_candidate container then
        if Qgtb existing_score (float_mul score ratio)
        then (false, children_to_remove)
        else review_existing container score rest children_to_remove
      else review_existing container score rest children_to_remove
  end.

(** One turn of the loop over the containers. *)
Definition consider (candidates : Candidates) (entry : Node * list Node)
  : Candidates :=
  let (container, parents) := entry in
  if is_likely_boilerplate container then candidates
  else
    let text_length := String.length (get_text "" true container) in
    if text_length <? MIN_CANDIDATE_TEXT_LENGTH then candidates
    else
      let score := density_score container in
      if nested_in_better candidates parents score then candidates
      else
        let (should_add, children_to_remove) :=
          review_existing container score candidates [] in
        if should_add then
          candidates_set container score
            (fold_left (fun d child => candidates_del child d)
                       children_to_remove candidates)
        else candidates.

Definition is_container (n : Node) : bool :=
  match n with
  | Tag name _ _ => PyStr.mem name ["div"; "section"; "td"]
  | NavigableString _ => false
  end.

(** [soup.find_all(['div', 'section', 'td'], recursive=True)], each
    container with its parents up to the soup. *)
Definition containers (soup : Node) : list (Node * list Node) :=
  filter (fun entry => is_container (fst entry))
         (flat_map (with_parents []) (contents_of soup)).

Definition density_candidates (soup : Node) : Candidates :=
  fold_left consider (containers soup) [].

(** [max(candidates.items(), key=lambda item: item[1])]: the first of the
    items with the greatest score. *)
Fixpoint max_item (best : Node * Q) (items : Candidates) : Node * Q :=
  match items with
  | [] => best
  | item :: rest =>
      if Qgtb (snd item) (snd best) then max_item item rest
      else max_item best rest
  end.

Definition extract_main_content (soup : Node) : Logged Node :=
  match try_selectors soup selectors with
  | Some (selector, potential_main_content) =>
      (potential_main_content,
       [info ("Main content found using selector: '"
              ++ selector_text selector ++ "'")])
  | None =>
      match density_candidates soup with
      | first :: rest =>
          let best_candidate := fst (max_item first rest) in
          (best_candidate,
           [info ("Main content identified using text density: <"
                  ++ match tag_name_of best_candidate with
                     | Some name => name
                     | None => EmptyString
                     end ++ ">")])
      | [] =>
          (match find "body" soup with
           | Some body => body
           | None => soup
           end,
           [warning "Could not identify a specific main content area, falling back to <body>."])
      end
  end.

End Locator.

(** ** Removing tags *)

Definition is_tag (n : Node) : bool :=
  match n with Tag _ _ _ => true | NavigableString _ => false end.

(** [for tag in soup.find_all(...): tag.decompose()] over the tags below
    [n] that satisfy [doomed]: each goes with everything below it. *)
Fixpoint remove_tags (doomed : Node -> bool) (n : Node) : Node :=
  match n with
  | NavigableString _ => n
  | Tag name attrs contents =>
      Tag name attrs
        (flat_map (fun child =>
                     if is_tag child && doomed child then []
                     else [remove_tags doomed child])
                  contents)
  end.

Definition attrs_of (n : Node) : Attrs :=
  match n with
  | Tag _ attrs _ => attrs
  | NavigableString _ => []
  end.

Definition has_attr (k : string) (n : Node) : bool :=
  match Dict.get k (attrs_of n) with Some _ => true | None => false end.

Definition style_hides (n : Node) : bool :=
  match Dict.get "style" (attrs_of n) with
  | Some v =>
      let style := attribute_text v in
      PyStr.contains style "display: none"
      || PyStr.contains style "display:none"
      || PyStr.contains style "visibility: hidden"
  | None => false
  end.

Definition aria_hidden_without_text (n : Node) : bool :=
  match Dict.get "aria-hidden" (attrs_of n) with
  | Some v =>
      attr_value_eqb v (AStr "true") && negb (PyStr.truthy (get_text "" true n))
  | None => false
  end.

Definition strip_undesirables (soup : Node) : Node :=
  let soup := remove_tags (has_attr "hidden") soup in
  let soup := remove_tags style_hides soup in
  let soup := remove_tags aria_hidden_without_text soup in
  fold_left (fun soup tag_name => remove_tags (named tag_name) soup)
            NON_CONTENT_TAGS soup.

(** ** 4.4 The post-processors *)

Definition simplify_tables (soup : Node) : Node := soup.
Definition preserve_code_blocks (soup : Node) : Node := soup.

Definition VERBATIM_PARENTS : list string := ["pre"; "code"; "style"; "script"].

(** The first loop of [normalize_text_content], at one node below a
    parent named [parent_name]: what stands in its place afterwards. *)
Fixpoint normalize_strings (parent_name : string) (n : Node) : list Node :=
  match n with
  | NavigableString s =>
      if negb (PyStr.mem parent_name VERBATIM_PARENTS) then
        let normalized_text := PyStr.collapse_whitespace s in
        let stripped_text := PyStr.strip normalized_text in
        if PyStr.truthy stripped_text then [NavigableString stripped_text]
        else []
      else [n]
  | Tag name attrs contents =>
      [Tag name attrs (flat_map (normalize_strings name) contents)]
  end.

Definition normalize_whitespace (soup : Node) : Node :=
  match soup with
  | Tag name attrs contents =>
      Tag name attrs (flat_map (normalize_strings name) contents)
  | NavigableString _ => soup
  end.

Definition structurally_empty (tag : Node) : bool :=
  match tag with
  | Tag name attrs contents =>
      negb (PyStr.mem name ["br"; "hr"]) && is_nil contents && is_nil attrs
      && negb (PyStr.truthy (get_text "" true tag))
  | NavigableString _ => false
  end.

(** The [while True] loop: a turn decomposes the tags that are empty when
    it reaches them; a tag is reached before the tags below it, so these
    are the tags empty at the start of the turn.  [fuel] bounds the turns;
    [remove_empty_tags] gives one more than there are tags. *)
Fixpoint remove_empty_loop (fuel : nat) (soup : Node) : Node :=
  match fuel with
  | 0 => soup
  | S fuel' =>
      let removed_count :=
        length (filter structurally_empty (descendant_tags soup)) in
      if removed_count =? 0 then soup
      else remove_empty_loop fuel' (remove_tags structurally_empty soup)
  end.

Definition remove_empty_tags (soup : Node) : Node :=
  remove_empty_loop (S (length (descendant_tags soup))) soup.

(** *** Positions in the tree

    The paragraph merge and the metadata injector change the tree in
    place through references to tags found earlier; a reference is
    modelled by the position of the tag, the list of child indices leading
    to it from the soup. *)

Definition Position : Type := list nat.

Fixpoint get_at (pos : Position) (n : Node) : option Node :=
  match pos with
  | [] => Some n
  | i :: rest =>
      match nth_error (contents_of n) i with
      | Some child => get_at rest child
      | None => None
      end
  end.

(** The [i]-th element of [l] replaced by the elements [f] makes of it. *)
Fixpoint splice_nth {A : Type} (i : nat) (f : A -> list A) (l : list A)
  : list A :=
  match l, i with
  | [], _ => []
  | x :: r, 0 => f x ++ r
  | x :: r, S i' => x :: splice_nth i' f r
  end.

(** The node at [pos] replaced by the nodes [f] makes of it; the root is
    left alone. *)
Fixpoint update_at (pos : Position) (f : Node -> list Node) (n : Node) : Node :=
  match pos, n with
  | i :: rest, Tag name attrs contents =>
      Tag name attrs
        (splice_nth i
           (fun child =>
              match rest with
              | [] => f child
              | _ => [update_at rest f child]
              end)
           contents)
  | _, _ => n
  end.

(** The positions, counted from [n], of [n] and of the tags below it, in
    document order. *)
Fixpoint positions_or_self (n : Node) : list Position :=
  match n with
  | NavigableString _ => []
  | Tag _ _ contents =>
      [] :: (fix below (i : nat) (l : list Node) : list Position :=
               match l with
               | [] => []
               | child :: rest =>
                   map (cons i) (positions_or_self child) ++ below (S i) rest
               end) 0 contents
  end.

(** The positions of the tags below the soup. *)
Definition tag_positions (soup : Node) : list Position :=
  tl (positions_or_self soup).

Definition satisfies_at (p : Node -> bool) (soup : Node) (pos : Position) : bool :=
  match get_at pos soup with
  | Some n => p n
  | None => false
  end.

Definition find_all_positions (p : Node -> bool) (soup : Node) : list Position :=
  filter (satisfies_at p soup) (tag_positions soup).

Definition next_sibling (pos : Position) : Position :=
  match rev pos with
  | [] => []
  | i :: up => rev (S i :: up)
  end.

Definition append_children (new : list Node) (n : Node) : list Node :=
  match n with
  | Tag name attrs contents => [Tag name attrs (contents ++ new)]
  | NavigableString _ => [n]
  end.

(** One turn of the merge loop, for [prev_p] and [current_p]. *)
Definition merge_pair (prev_pos current_pos : Position) (soup : Node) : Node :=
  match get_at prev_pos soup, get_at current_pos soup with
  | Some prev_p, Some current_p =>
      if match get_at (next_sibling prev_pos) soup with
         | Some sibling => node_eqb sibling current_p
         | None => false
         end
         && dict_eqb (attrs_of current_p) (attrs_of prev_p)
      then
        let separator :=
          if PyStr.truthy (get_text "" true prev_p)
             && PyStr.truthy (get_text "" true current_p)
          then [NavigableString " "] else [] in
        let moved := contents_of current_p in
        update_at current_pos (fun _ => [])
          (update_at prev_pos (append_children (separator ++ moved)) soup)
      else soup
  | _, _ => soup
  end.

(** [for i in range(len(paragraphs) - 1, 0, -1)], the paragraphs given
    last first. *)
Fixpoint merge_backwards (paragraphs : list Position) (soup : Node) : Node :=
  match paragraphs with
  | current_pos :: ((prev_pos :: _) as rest) =>
      merge_backwards rest (merge_pair prev_pos current_pos soup)
  | _ => soup
  end.

Definition merge_paragraphs (soup : Node) : Node :=
  merge_backwards (rev (find_all_positions (named "p") soup)) soup.

Definition normalize_text_content (soup : Node) : Node :=
  merge_paragraphs (remove_empty_tags (normalize_whitespace soup)).

(** ** 4.5 The metadata injector *)

(** The clock and the log stream are the state the pipeline runs in:
    [now] is what [datetime.now().strftime('%Y-%m-%d %H:%M:%S UTC')]
    returns during the call. *)
Record World : Type := {
  now : string;
  stdout : list LogRecord
}.

Definition meta_section (original_url timestamp : string) : Node :=
  Tag "section"
      [("role", AStr "complementary"); ("aria-label", AStr "Document Metadata")]
      [ Tag "p" []
          [ Tag "strong" [] [NavigableString "Source URL: "];
            Tag "a" [("href", AStr original_url)] [NavigableString original_url] ];
        Tag "p" []
          [ Tag "strong" [] [NavigableString "Content Retrieved: "];
            NavigableString timestamp ];
        Tag "hr" [] [] ].

(** The position of the first tag below [soup] that satisfies [p]. *)
Definition find_position (p : Node -> bool) (soup : Node) : option Position :=
  hd_error (find_all_positions p soup).

Definition node_at (pos : Position) (soup : Node) : Node :=
  match get_at pos soup with
  | Some n => n
  | None => soup
  end.

Definition insert_before (pos : Position) (new : Node) (soup : Node) : Node :=
  update_at pos (fun n => [new; n]) soup.

Definition insert_after (pos : Position) (new : Node) (soup : Node) : Node :=
  update_at pos (fun n => [n; new]) soup.

Definition append_to (pos : Position) (new : Node) (soup : Node) : Node :=
  update_at pos (append_children [new]) soup.

Definition add_llm_metadata (soup : Node) (original_url original_title : string)
  (timestamp : string) : Logged Node :=
  match find_position (named "body") soup with
  | None => (soup, [warning "Cannot add metadata, body tag not found."])
  | Some body =>
      let section := meta_section original_url timestamp in
      (* soup.body.find(True), and where the section comes to stand *)
      let first_body_element :=
        find_position (fun _ => true) (node_at body soup) in
      let section_pos :=
        match first_body_element with
        | Some first => body ++ first
        | None => body ++ [length (contents_of (node_at body soup))]
        end in
      let soup :=
        match first_body_element with
        | Some _ => insert_before section_pos section soup
        | None => append_to body section soup
        end in
      let body_h1 := find "h1" (node_at body soup) in
      (match body_h1 with
       | None =>
           if PyStr.truthy original_title then
             insert_after section_pos
               (Tag "h1" [] [NavigableString original_title]) soup
           else soup
       | Some _ => soup
       end, [])
  end.

(** ** 4.6 The orchestrator *)

(** A computation that reads the clock, writes log records and may raise. *)
Definition Run (A : Type) : Type := World -> Result A * World.

Definition ret {A : Type} (a : A) : Run A := fun w => (Ok a, w).

Definition bind {A B : Type} (m : Run A) (k : A -> Run B) : Run B :=
  fun w =>
    match m w with
    | (Ok a, w') => k a w'
    | (Raised e, w') => (Raised e, w')
    end.

Definition call {A : Type} (r : Result A) : Run A := fun w => (r, w).

Definition emit (records : list LogRecord) : Run unit :=
  fun w => (Ok tt, {| now := now w; stdout := stdout w ++ records |}).

Definition logged {A : Type} (x : Logged A) : Run A :=
  bind (emit (snd x)) (fun _ => ret (fst x)).

Definition datetime_now : Run string := fun w => (Ok (now w), w).

(** [try: body except <those in handles> as e: handler e] *)
Definition try_except {A : Type} (body : Run A) (handles : PyException -> bool)
  (handler : PyException -> Run A) : Run A :=
  fun w =>
    match body w with
    | (Ok a, w') => (Ok a, w')
    | (Raised e, w') => if handles e then handler e w' else (Raised e, w')
    end.

Notation "x <- m ;; k" := (bind m (fun x => k))
  (at level 61, m at next level, right associativity).
Notation "m ;;; k" := (bind m (fun _ => k))
  (at level 61, right associativity).

(** [tag.string]: the single string a tag comes down to, if any. *)
Fixpoint tag_string (n : Node) : option string :=
  match n with
  | NavigableString s => Some s
  | Tag _ _ [child] => tag_string child
  | Tag _ _ _ => None
  end.

Definition title_of (soup : Node) : string :=
  match find "title" soup with
  | Some original_title_tag =>
      match tag_string original_title_tag with
      | Some s => if PyStr.truthy s then PyStr.strip s else "Untitled Document"
      | None => "Untitled Document"
      end
  | None => "Untitled Document"
  end.

Definition lang_of (soup : Node) : AttrValue :=
  match find "html" soup with
  | Some html =>
      match Dict.get "lang" (attrs_of html) with
      | Some lang => if attr_truthy lang then lang else AStr "en"
      | None => AStr "en"
      end
  | None => AStr "en"
  end.

(** The new soup, parsed from the fixed skeleton, with its [lang], its
    title and the contents of its body. *)
Definition new_soup (lang : AttrValue) (title : string) (body : list Node) : Node :=
  Tag "[document]" []
    [ Tag "html" [("lang", lang)]
        [ Tag "head" []
            [ Tag "meta" [("charset", AStr "utf-8")] [];
              Tag "title" [] [NavigableString title] ];
          Tag "body" [] body ] ].

Definition placeholder : Node :=
  Tag "p" []
    [ Tag "em" []
        [ NavigableString "[URL Cleaner: No processable content found after filtering. The original page might have been dynamic, empty, or primarily non-textual.]" ] ].

Definition DEFAULT_MAX_DEPTH : nat := 30.

Section Orchestrator.

Variable lib : Library.

(** Steps 3 and 4: the new soup built from the chosen content. *)
Definition build_clean_soup (soup main_content_element : Node)
  (original_url original_title : string) : Logged Node :=
  let source_elements :=
    if named "body" main_content_element
    then contents_of main_content_element
    else [main_content_element] in
  let (cleaned, w) :=
    clean_each (fun element =>
                  clean_element_recursively lib original_url
                    DEFAULT_MAX_DEPTH element 0)
               source_elements in
  let body := flat_map splice cleaned in
  let (body, w') :=
    match body with
    | [] =>
        ([placeholder],
         [warning ("Body is empty after recursive cleaning for "
                   ++ original_url
                   ++ ". Check extraction/cleaning logic.")])
    | _ => (body, [])
    end in
  let new_soup :=
    new_soup (lang_of soup) ("Cleaned: " ++ original_title) body in
  let new_soup := simplify_tables new_soup in
  let new_soup := preserve_code_blocks new_soup in
  (normalize_text_content new_soup, w ++ w').

(** Steps 1 to 5: from the parsed soup to the document handed to the
    serializer.  The locator always returns a tag, and a tag is true: the
    [return None] after step 2 is never taken. *)
Definition clean_document (soup : Node) (original_url : string) : Run Node :=
  let original_title := title_of soup in
  let soup := strip_undesirables soup in
  main_content_element <- logged (extract_main_content lib soup) ;;
  new_soup <- logged (build_clean_soup soup main_content_element
                        original_url original_title) ;;
  timestamp <- datetime_now ;;
  logged (add_llm_metadata new_soup original_url original_title timestamp).

Definition is_structure_error (e : PyException) : bool :=
  match e with
  | XMLSyntaxError | ParserError => true
  | _ => false
  end.

Definition clean_html_content (html_content original_url : string)
  : Run (option string) :=
  emit [info ("Starting cleaning process for: " ++ original_url)] ;;;
  try_except
    (soup <- call (BeautifulSoup lib html_content) ;;
     new_soup <- clean_document soup original_url ;;
     cleaned_html <- call (prettify lib new_soup) ;;
     try_except
       (call (fromstring lib cleaned_html))
       is_structure_error
       (fun e =>
          emit [warning ("Cleaned HTML for " ++ original_url
                         ++ " has structure issues (lxml validation)")]) ;;;
     emit [info ("Successfully cleaned content for: " ++ original_url)] ;;;
     ret (Some cleaned_html))
    (fun _ => true)
    (fun e =>
       emit [{| levelname := ERROR;
                message := "Critical error during HTML cleaning for "
                           ++ original_url |}] ;;;
       ret None).

End Orchestrator.

(** ** A stand-in library

    Small executable stand-ins for the library calls, used where a
    property is run on a concrete input: text without markup is parsed
    the way lxml wraps it, a reference with a scheme is taken as
    absolute, a path is resolved against the origin or the directory of
    the base, and the serializer writes tags without indentation. *)

Module Stub.

Definition quote : string := String (ascii_of_nat 34) EmptyString.

Definition parse (html_content : string) : Result Node :=
  if PyStr.contains html_content "<" then Raised OtherException
  else Ok (Tag "[document]" []
             [Tag "html" []
                [Tag "body" [] [Tag "p" [] [NavigableString html_content]]]]).

Fixpoint before_colon (s : string) : option string :=
  match s with
  | EmptyString => None
  | String c r =>
      if Ascii.eqb c ":" then Some EmptyString
      else match before_colon r with
           | Some p => Some (String c p)
           | None => None
           end
  end.

Definition scheme (url : string) : Result string :=
  match before_colon url with
  | Some s => Ok (PyStr.lower s)
  | None => Ok EmptyString
  end.

Fixpoint up_to_slash (s : string) : string :=
  match s with
  | EmptyString => EmptyString
  | String c r => if Ascii.eqb c "/" then EmptyString else String c (up_to_slash r)
  end.

(** [https://e.com] of [https://e.com/y/]. *)
Definition origin (base : string) : string :=
  match before_colon base with
  | Some s =>
      let rest := String.length s + 3 in
      (s ++ "://"
       ++ up_to_slash (substring rest (String.length base - rest) base))%string
  | None => EmptyString
  end.

(** [https://e.com/y/] of [https://e.com/y/z]. *)
Fixpoint directory (base : string) : string :=
  match base with
  | EmptyString => EmptyString
  | String c r =>
      if PyStr.contains r "/" then String c (directory r)
      else if Ascii.eqb c "/" then "/" else EmptyString
  end.

Definition join (base url : string) : Result string :=
  if PyStr.contains url "[" then Raised ValueError
  else if negb (PyStr.truthy url) then Ok base
  else match before_colon url with
       | Some _ => Ok url
       | None =>
           if PyStr.startswith url "/" then Ok (origin base ++ url)%string
           else Ok (directory base ++ url)%string
       end.

Definition attrs_html (attrs : Attrs) : string :=
  String.concat EmptyString
    (map (fun kv => " " ++ fst kv ++ "=" ++ quote ++ attribute_text (snd kv)
                    ++ quote)%string attrs).

Fixpoint to_html (n : Node) : string :=
  match n with
  | NavigableString s => s
  | Tag name attrs contents =>
      ("<" ++ name ++ attrs_html attrs ++ ">"
       ++ String.concat EmptyString (map to_html contents)
       ++ "</" ++ name ++ ">")%string
  end.

(** The library, for a reading [find] of [outer.find(inner)]. *)
Definition library_with (find : Node -> Node -> bool) : Library :=
  {| BeautifulSoup := parse;
     urljoin := join;
     urlparse_scheme := scheme;
     prettify := fun soup => Ok (String.concat EmptyString
                                   (map to_html (contents_of soup)));
     fromstring := fun _ => Ok tt;
     tag_find := find |}.

(** [find] read as the comments of the source read it. *)
Definition library : Library := library_with wraps.

(** [find] finding nothing when it is given a tag. *)
Definition library_find_nothing : Library := library_with (fun _ _ => false).

Definition world (timestamp : string) : World :=
  {| now := timestamp; stdout := [] |}.

(** The text a run returned, if it returned one. *)
Definition text_of (r : Result (option string)) : string :=
  match r with
  | Ok (Some text) => text
  | _ => EmptyString
  end.

Definition url : string := "https://e.com/p".
Definition midnight : string := "2026-01-01 00:00:00 UTC".
Definition one_second_later : string := "2026-01-01 00:00:01 UTC".

(** The soup [parse] makes of the text [hello]. *)
Definition hello : Node :=
  Tag "[document]" []
    [Tag "html" [] [Tag "body" [] [Tag "p" [] [NavigableString "hello"]]]].

End Stub.

(** ** Pages used in the scenarios *)

(** [n] nested [div]s around [inner]. *)
Fixpoint nested_divs (n : nat) (inner : Node) : Node :=
  match n with
  | 0 => inner
  | S n' => Tag "div" [] [nested_divs n' inner]
  end.

Definition page (body : list Node) : Node :=
  Tag "[document]" [] [Tag "html" [] [Tag "body" [] body]].

Definition link (text : string) : Node :=
  Tag "a" [("href", AStr ("https://e.com/" ++ text))] [NavigableString text].

(** A page of a short passage with a stock phrase, a rule, and a
    paragraph of three links. *)
Definition contact : Node := Tag "p" [] [NavigableString "Contact us"].
Definition links : Node := Tag "p" [] [link "one"; link "two"; link "three"].
Definition contact_page : Node := page [contact; Tag "hr" [] []; links].

(** A text of [n] letters. *)
Definition letters (n : nat) : string :=
  string_of_list_ascii (repeat "x"%char n).

Definition article (n : nat) : Node :=
  Tag "article" [] [NavigableString (letters n)].

(** A page with an article of [n] letters and a paragraph beside it. *)
Definition beside : Node := Tag "p" [] [NavigableString "elsewhere"].
Definition article_page (n : nat) : Node := page [article n; beside].

(** A div holding nothing but a div holding a text of 100 letters. *)
Definition inner_div : Node := Tag "div" [] [NavigableString (letters 100)].
Definition outer_div : Node := Tag "div" [] [inner_div].

(** [<pre>a   b<b>x   y</b></pre>], as the transformer rebuilds it. *)
Definition preformatted (direct nested : string) : Node :=
  Tag "[document]" []
    [Tag "pre" [] [NavigableString direct; Tag "b" [] [NavigableString nested]]].

(** ** The properties of section 8 of the specification *)

(** A property of the name and the attributes holds at a tag. *)
Definition label_ok (P : string -> Attrs -> Prop) (t : Node) : Prop :=
  match t with
  | Tag name attrs _ => P name attrs
  | NavigableString _ => True
  end.

(** It holds at [n] and at every tag below. *)
Definition all_tags (P : string -> Attrs -> Prop) (n : Node) : Prop :=
  Forall (label_ok P) (descendants_or_self n).

(** It holds at every element of the document [soup]. *)
Definition every_element (P : string -> Attrs -> Prop) (soup : Node) : Prop :=
  Forall (label_ok P) (descendant_tags soup).

(** It holds at every tag below [n]. *)
Definition all_below (P : string -> Attrs -> Prop) (n : Node) : Prop :=
  Forall (all_tags P) (contents_of n).

(** Allow-list closure at one element: the tag is permitted and so is
    every attribute, for that tag. *)
Definition allow_listed (name : string) (attrs : Attrs) : bool :=
  PyStr.mem (PyStr.lower name) LLM_OPTIMIZED_TAGS
  && forallb (fun k =>
                PyStr.mem (PyStr.lower k)
                  (allow_list_get (PyStr.lower name) ATTRIBUTE_ALLOW_LIST))
             (Dict.keys attrs).

(** The wrapper of an unwrapped tag. *)
Definition is_wrapper (name : string) (attrs : Attrs) : Prop :=
  name = "div" /\ attrs = [].

(** The [meta] element of the skeleton the new soup is parsed from. *)
Definition is_skeleton_meta (name : string) (attrs : Attrs) : Prop :=
  name = "meta" /\ attrs = [("charset", AStr "utf-8")].

(** The [section] element the metadata injector builds. *)
Definition is_metadata_section (name : string) (attrs : Attrs) : Prop :=
  name = "section" /\
  attrs = [("role", AStr "complementary");
           ("aria-label", AStr "Document Metadata")].

(** What the transformer builds. *)
Definition rebuilt (name : string) (attrs : Attrs) : Prop :=
  allow_listed name attrs = true \/ is_wrapper name attrs.

(** What the document handed to the serializer is made of. *)
Definition assembled (name : string) (attrs : Attrs) : Prop :=
  allow_listed name attrs = true \/ is_wrapper name attrs
  \/ is_skeleton_meta name attrs \/ is_metadata_section name attrs.

(** The document [clean_document] returns, as a function of the soup, the
    URL and the reading of the clock. *)
Definition document (lib : Library) (soup : Node) (original_url : string)
  (timestamp : string) : Node :=
  let original_title := title_of soup in
  let soup := strip_undesirables soup in
  let main_content_element := fst (extract_main_content lib soup) in
  let new_soup :=
    fst (build_clean_soup lib soup main_content_element original_url
           original_title) in
  fst (add_llm_metadata new_soup original_url original_title timestamp).

(** ** Texts, for the properties of the string handling *)

(** A string that does not begin with whitespace. *)
Definition starts_clean (s : string) : bool :=
  match s with
  | EmptyString => true
  | String c _ => negb (PyStr.isspace c)
  end.

(** Nothing but whitespace. *)
Fixpoint blank (s : string) : bool :=
  match s with
  | EmptyString => true
  | String c r => PyStr.isspace c && blank r
  end.

(** The characters of a string that are not whitespace, in order. *)
Fixpoint ink (s : string) : list ascii :=
  match s with
  | EmptyString => []
  | String c r => if PyStr.isspace c then ink r else c :: ink r
  end.

(** What the whitespace pass makes of a text. *)
Definition normalized (s : string) : string :=
  PyStr.strip (PyStr.collapse_whitespace s).

(** The characters of the text of a node that are not whitespace. *)
Definition text_ink (n : Node) : list ascii :=
  flat_map ink (all_strings false n).

(** How deep the nodes below [n] lie: the depth the transformer must be
    allowed beyond its own to reach them all. *)
Fixpoint nesting (n : Node) : nat :=
  match n with
  | NavigableString _ => 0
  | Tag _ _ contents =>
      fold_right (fun child m => Nat.max (S (nesting child)) m) 0 contents
  end.

(** The stripped texts of what the transformer returned. *)
Definition texts (r : option Node) : list string :=
  match r with
  | Some n => all_strings true n
  | None => []
  end.

(** Every text is stripped and not empty, and every tag but br and hr has
    contents. *)
Fixpoint well_built (n : Node) : bool :=
  match n with
  | NavigableString s => PyStr.truthy s && String.eqb (PyStr.strip s) s
  | Tag name _ contents =>
      (negb (is_nil contents) || PyStr.mem (PyStr.lower name) ["br"; "hr"])
      && forallb well_built contents
  end.

(** ** Attribute policies, as properties of one element *)

(** An anchor carries nothing but hrefs, each the URL of the page itself
    (the link of the metadata section) or a URL whose scheme [urlparse]
    gives as http or https. *)
Definition href_absolute (lib : Library) (original_url : string)
  (name : string) (attrs : Attrs) : Prop :=
  PyStr.lower name = "a" ->
  forall k v,
    In (k, v) attrs ->
    PyStr.lower k = "href"
    /\ (v = AStr original_url
        \/ exists absolute_href scheme,
             v = AStr absolute_href
             /\ urlparse_scheme lib absolute_href = Ok scheme
             /\ (scheme = "http" \/ scheme = "https")).

(** A class attribute sits on pre or code only and holds one token, with a
    language prefix. *)
Definition class_is_language (name : string) (attrs : Attrs) : Prop :=
  forall k v,
    In (k, v) attrs ->
    PyStr.lower k = "class" ->
    PyStr.mem (PyStr.lower name) ["pre"; "code"] = true
    /\ exists lang_class,
         v = AList [lang_class]
         /\ (PyStr.startswith (PyStr.lower lang_class) "language-"
             || PyStr.startswith (PyStr.lower lang_class) "lang-") = true.

(** What [strip_undesirables] leaves of an element: a content tag that
    is not marked hidden, by attribute or by style. *)
Definition desirable (name : string) (attrs : Attrs) : Prop :=
  ~ In name NON_CONTENT_TAGS
  /\ Dict.get "hidden" attrs = None
  /\ style_hides (Tag name attrs []) = false.

(** A property of every container that is a candidate. *)
Definition candidates_all (P : Node -> Q -> Prop) (d : Candidates) : Prop :=
  forall k s, In (k, s) d -> P k s.

(** ** 4.0 The command-line program around the pipeline *)

(** *** File names *)

(** [str.isalnum] on one character. *)
Definition isalnum (c : ascii) : bool :=
  let n := nat_of_ascii c in
  ((48 <=? n) && (n <=? 57)) || ((65 <=? n) && (n <=? 90))
  || ((97 <=? n) && (n <=? 122))
  || (n =? 170) || (n =? 178) || (n =? 179) || (n =? 181) || (n =? 185)
  || (n =? 186) || ((188 <=? n) && (n <=? 190))
  || ((192 <=? n) && (n <=? 214)) || ((216 <=? n) && (n <=? 246))
  || (248 <=? n).

(** [s.replace(old, new)] for strings of one character. *)
Fixpoint replace (old new : ascii) (s : string) : string :=
  match s with
  | EmptyString => EmptyString
  | String c r =>
      String (if Ascii.eqb c old then new else c) (replace old new r)
  end.

(** [s.strip(chars)] for one character. *)
Fixpoint lstrip_char (x : ascii) (s : string) : string :=
  match s with
  | EmptyString => EmptyString
  | String c r => if Ascii.eqb c x then lstrip_char x r else s
  end.

Fixpoint rstrip_char (x : ascii) (s : string) : string :=
  match s with
  | EmptyString => EmptyString
  | String c r =>
      match rstrip_char x r with
      | EmptyString =>
          if Ascii.eqb c x then EmptyString else String c EmptyString
      | r' => String c r'
      end
  end.

Definition strip_char (x : ascii) (s : string) : string :=
  rstrip_char x (lstrip_char x s).

(** ["".join(c if keep(c) else '' for c in s)] *)
Fixpoint keep_chars (keep : ascii -> bool) (s : string) : string :=
  match s with
  | EmptyString => EmptyString
  | String c r =>
      if keep c then String c (keep_chars keep r) else keep_chars keep r
  end.

(** [re.sub(r'_+', '_', s)]; [in_run] says the previous character was an
    underscore. *)
Fixpoint squeeze_from (in_run : bool) (s : string) : string :=
  match s with
  | EmptyString => EmptyString
  | String c r =>
      if Ascii.eqb c "_"
      then if in_run then squeeze_from true r
           else String "_" (squeeze_from true r)
      else String c (squeeze_from false r)
  end.

Definition squeeze_underscores (s : string) : string := squeeze_from false s.

(** [s[:n]] *)
Fixpoint take (n : nat) (s : string) : string :=
  match n, s with
  | S n', String c r => String c (take n' r)
  | _, _ => EmptyString
  end.

(** What [urlparse] gives, as far as the program reads it. *)
Record ParseResult : Type := {
  scheme : string;
  netloc : string;
  path : string
}.

Record Platform : Type := {
  (** [hashlib.sha256(url.encode('utf-8')).hexdigest()] *)
  sha256_hexdigest : string -> string;
  (** [urllib.parse.urldefrag(url)]: the URL without its fragment, and
      the fragment *)
  urldefrag : string -> Result (string * string);
  (** [urllib.parse.urlparse(url)] *)
  urlparse : string -> Result ParseResult
}.

Definition safe_char (c : ascii) : bool := isalnum c || Ascii.eqb c "_".

(** The two assignments to [safe_name]. *)
Definition safe_name (name_part : string) : string :=
  let safe_name := strip_char "_" (keep_chars safe_char name_part) in
  take 100 (squeeze_underscores safe_name).

Definition generate_filename (platform : Platform) (url : string)
  : Result string :=
  let url_hash := sha256_hexdigest platform url in
  match urldefrag platform url with
  | Raised e => Raised e
  | Ok (url_no_frag, _) =>
      match urlparse platform url_no_frag with
      | Raised e => Raised e
      | Ok parsed =>
          let domain := replace "-" "_" (replace "." "_" (netloc parsed)) in
          let stripped := strip_char "/" (path parsed) in
          let path_part :=
            replace "-" "_"
              (replace ":" "_"
                 (replace "/" "_"
                    (if PyStr.truthy stripped then stripped else "index"))) in
          let name_part := (domain ++ "_" ++ path_part)%string in
          let safe_name := safe_name name_part in
          let short_hash := take 16 url_hash in
          Ok (safe_name ++ "_" ++ short_hash ++ ".html")%string
      end
  end.

(** Every character of [s] satisfies [p]. *)
Fixpoint all_chars (p : ascii -> bool) (s : string) : bool :=
  match s with
  | EmptyString => true
  | String c r => p c && all_chars p r
  end.

(** No two underscores stand side by side in [s]. *)
Fixpoint single_underscores (s : string) : bool :=
  match s with
  | String a ((String b _) as r) =>
      negb (Ascii.eqb a "_" && Ascii.eqb b "_") && single_underscores r
  | _ => true
  end.

(** A stand-in for these calls: the digest is a fixed run of digits, a
    URL has no fragment, and it is split at the first colon and at the
    first slash after the host. *)
Definition parse_stand_in (url : string) : ParseResult :=
  match Stub.before_colon url with
  | Some s =>
      let rest :=
        substring (String.length s + 3)
          (String.length url - (String.length s + 3)) url in
      let host := Stub.up_to_slash rest in
      {| scheme := PyStr.lower s;
         netloc := host;
         path := substring (String.length host)
                   (String.length rest - String.length host) rest |}
  | None => {| scheme := EmptyString; netloc := EmptyString; path := url |}
  end.

Definition platform_stand_in : Platform :=
  {| sha256_hexdigest := fun _ => "00112233445566778899aabbccddeeff";
     urldefrag := fun url => Ok (url, EmptyString);
     urlparse := fun url =>
       if PyStr.contains url "[" then Raised ValueError
       else Ok (parse_stand_in url) |}.

(** *** The surroundings of the program

    The file system, the network and the clock are outside the program.
    Their state is an [Outside]; a call into them answers with a value or
    with an exception and leaves a new state.  [IOError] is [OSError];
    [Python e] stands for the exceptions that are neither of the three
    named ones.  Reading the clock does not change the state, and the
    duration the summary prints is left out of its record, as the texts
    of exceptions are.  Paths are written the POSIX way. *)

Inductive HostException : Type :=
| OSError
| HTTPStatusError
| RequestError
| Python (e : PyException).

Inductive Answer (A : Type) : Type :=
| Fine (a : A)
| Fails (e : HostException).
Arguments Fine {A} a.
Arguments Fails {A} e.

(** An [httpx.Response], as far as the program reads it. *)
Record Response : Type := {
  (** [response.raise_for_status()] *)
  raise_for_status : Answer unit;
  (** [response.headers.get("content-type")] *)
  content_type : option string;
  encoding : option string;
  charset_encoding : option string;
  (** [response.content.decode(encoding, errors='replace')] *)
  decode : string -> Answer string
}.

Record Host (Outside : Type) : Type := {
  (** [str(OUTPUT_DIR)] and [str(URL_LIST_FILE)] *)
  OUTPUT_DIR : string;
  URL_LIST_FILE : string;
  (** [OUTPUT_DIR.mkdir(parents=True, exist_ok=True)] *)
  mkdir : Outside -> Answer unit * Outside;
  (** [URL_LIST_FILE.is_file()] *)
  is_file : Outside -> bool * Outside;
  (** Opening the list and reading it line by line: the lines read, and
      the exception that ended the reading, if one did. *)
  read_lines : Outside -> (list string * option HostException) * Outside;
  (** [httpx.Client(headers=headers, ..., verify=True)], entered by the
      [with] statement of [main], and its exit *)
  client_open : Outside -> Answer unit * Outside;
  client_close : Outside -> Answer unit * Outside;
  (** [client.get(url, follow_redirects=True, timeout=REQUEST_TIMEOUT)] *)
  client_get : string -> Outside -> Answer Response * Outside;
  (** Opening the file of that name in [OUTPUT_DIR] and writing the text. *)
  write_text : string -> string -> Outside -> Answer unit * Outside;
  (** [datetime.now().strftime('%Y-%m-%d %H:%M:%S UTC')] *)
  clock : Outside -> string
}.
Arguments OUTPUT_DIR {Outside} h.
Arguments URL_LIST_FILE {Outside} h.
Arguments mkdir {Outside} h o.
Arguments is_file {Outside} h o.
Arguments read_lines {Outside} h o.
Arguments client_open {Outside} h o.
Arguments client_close {Outside} h o.
Arguments client_get {Outside} h url o.
Arguments write_text {Outside} h filename text o.
Arguments clock {Outside} h o.

(** How a run ends: with a value, with [sys.exit(code)], or with an
    exception nothing caught. *)
Inductive Outcome (A : Type) : Type :=
| Done (a : A)
| Exit (code : nat)
| Crash (e : HostException).
Arguments Done {A} a.
Arguments Exit {A} code.
Arguments Crash {A} e.

Record Machine (Outside : Type) : Type := {
  outside : Outside;
  records : list LogRecord
}.
Arguments outside {Outside} m.
Arguments records {Outside} m.

Definition Prog (Outside A : Type) : Type :=
  Machine Outside -> Outcome A * Machine Outside.

Definition error (msg : string) : LogRecord :=
  {| levelname := ERROR; message := msg |}.

(** [str(n)] *)
Definition decimal (n : nat) : string :=
  NilZero.string_of_uint (Nat.to_uint n).

(** [s.isspace()] *)
Definition str_isspace (s : string) : bool :=
  PyStr.truthy s && all_chars PyStr.isspace s.

Record Counts : Type := {
  processed_count : nat;
  fetch_error_count : nat;
  clean_error_count : nat;
  skip_count : nat
}.

Declare Scope prog_scope.
Delimit Scope prog_scope with prog.

Section Program.

Variable Outside : Type.
Variable host : Host Outside.
Variable lib : Library.
Variable platform : Platform.

Definition done {A : Type} (a : A) : Prog Outside A := fun m => (Done a, m).

Definition and_then {A B : Type} (p : Prog Outside A)
  (k : A -> Prog Outside B) : Prog Outside B :=
  fun m =>
    match p m with
    | (Done a, m') => k a m'
    | (Exit code, m') => (Exit code, m')
    | (Crash e, m') => (Crash e, m')
    end.

Notation "x <- p ;; k" := (and_then p (fun x => k))
  (at level 61, p at next level, right associativity) : prog_scope.
Notation "p ;;; k" := (and_then p (fun _ => k))
  (at level 61, right associativity) : prog_scope.
Local Open Scope prog_scope.

Definition log (new : list LogRecord) : Prog Outside unit :=
  fun m => (Done tt, {| outside := outside m; records := records m ++ new |}).

Definition sys_exit {A : Type} (code : nat) : Prog Outside A :=
  fun m => (Exit code, m).

Definition raise {A : Type} (e : HostException) : Prog Outside A :=
  fun m => (Crash e, m).

(** A call into the surroundings. *)
Definition host_call {A : Type} (f : Outside -> Answer A * Outside)
  : Prog Outside A :=
  fun m =>
    let (answer, o) := f (outside m) in
    (match answer with Fine a => Done a | Fails e => Crash e end,
     {| outside := o; records := records m |}).

(** A call into the surroundings that raises nothing. *)
Definition host_read {A : Type} (f : Outside -> A * Outside) : Prog Outside A :=
  fun m =>
    let (a, o) := f (outside m) in
    (Done a, {| outside := o; records := records m |}).

Definition answer {A : Type} (a : Answer A) : Prog Outside A :=
  match a with Fine x => done x | Fails e => raise e end.

Definition result {A : Type} (r : Result A) : Prog Outside A :=
  match r with Ok x => done x | Raised e => raise (Python e) end.

(** [try: body except <those in handles> as e: handler e]; [sys.exit]
    raises [SystemExit], which is no [Exception] and passes through. *)
Definition try_catch {A : Type} (body : Prog Outside A)
  (handles : HostException -> bool) (handler : HostException -> Prog Outside A)
  : Prog Outside A :=
  fun m =>
    match body m with
    | (Crash e, m') => if handles e then handler e m' else (Crash e, m')
    | ended => ended
    end.

(** [with manager: body], for a manager whose exit lets the exception
    of the body through: the exit runs however the body ends, and what it
    raises takes the place of the end of the body. *)
Definition leaving {A : Type} (body : Prog Outside A)
  (exit : Prog Outside unit) : Prog Outside A :=
  fun m =>
    let (ended, m') := body m in
    match exit m' with
    | (Done _, m'') => (ended, m'')
    | (Exit code, m'') => (Exit code, m'')
    | (Crash e, m'') => (Crash e, m'')
    end.

Definition is_OSError (e : HostException) : bool :=
  match e with OSError => true | _ => false end.

Definition is_ValueError (e : HostException) : bool :=
  match e with Python ValueError => true | _ => false end.

Definition setup_environment : Prog Outside unit :=
  try_catch
    (host_call (mkdir host) ;;;
     log [info ("Ensured output directory exists: " ++ OUTPUT_DIR host)])
    is_OSError
    (fun e =>
       log [error ("Failed to create output directory " ++ OUTPUT_DIR host)] ;;;
       sys_exit 1).

(** The body of the loop over the lines. *)
Definition keep_line (urls : list string) (line : string) : list string :=
  let stripped_line := PyStr.strip line in
  if PyStr.truthy stripped_line && negb (PyStr.startswith stripped_line "#")
  then urls ++ [stripped_line]
  else urls.

Definition load_urls : Prog Outside (list string) :=
  exists_ <- host_read (is_file host) ;;
  if negb exists_ then
    log [error ("URL list file not found: " ++ URL_LIST_FILE host)] ;;;
    done []
  else
    read <- host_read (read_lines host) ;;
    let urls := fold_left keep_line (fst read) [] in
    match snd read with
    | None =>
        log [info ("Loaded " ++ decimal (length urls) ++ " URLs from "
                   ++ URL_LIST_FILE host)] ;;;
        done urls
    | Some OSError =>
        log [error ("Failed to read URL list file " ++ URL_LIST_FILE host)] ;;;
        done urls
    | Some e => raise e
    end.

(** [a or b or "utf-8"] *)
Definition detected_encoding (response : Response) : string :=
  match encoding response with
  | Some e => if PyStr.truthy e then e else
      match charset_encoding response with
      | Some c => if PyStr.truthy c then c else "utf-8"
      | None => "utf-8"
      end
  | None =>
      match charset_encoding response with
      | Some c => if PyStr.truthy c then c else "utf-8"
      | None => "utf-8"
      end
  end.

Definition fetch_url_content (url : string) : Prog Outside (option string) :=
  log [info ("Fetching: " ++ url)] ;;;
  try_catch
    (response <- host_call (client_get host url) ;;
     answer (raise_for_status response) ;;;
     let content_type :=
       PyStr.lower (match content_type response with
                    | Some v => v
                    | None => EmptyString
                    end) in
     if negb (PyStr.contains content_type "text/html") then
       log [warning ("Skipping non-HTML content (" ++ content_type
                     ++ ") at: " ++ url)] ;;;
       done None
     else
       let detected_encoding := detected_encoding response in
       html_content <-
         try_catch
           (answer (decode response detected_encoding))
           (fun _ => true)
           (fun decode_err =>
              log [warning ("Decoding issue with " ++ detected_encoding
                            ++ " for " ++ url
                            ++ ", trying utf-8 fallback")] ;;;
              answer (decode response "utf-8")) ;;
       if negb (PyStr.truthy html_content) || str_isspace html_content then
         log [warning ("Fetched empty or whitespace-only content from: "
                       ++ url)] ;;;
         done None
       else done (Some html_content))
    (fun _ => true)
    (fun e =>
       log [error (match e with
                   | HTTPStatusError => "HTTP error fetching " ++ url
                   | RequestError => "Network error fetching " ++ url
                   | _ => "Unexpected error fetching " ++ url
                   end)] ;;;
       done None).

Definition save_cleaned_html (filename html_content : string)
  : Prog Outside unit :=
  let filepath := (OUTPUT_DIR host ++ "/" ++ filename)%string in
  log [info ("Saving cleaned content to: " ++ filename)] ;;;
  try_catch
    (host_call (write_text host filename html_content))
    (fun _ => true)
    (fun e =>
       log [error (match e with
                   | OSError => "Failed to write output file " ++ filepath
                   | _ => "Unexpected error saving file " ++ filepath
                   end)]).

(** [clean_html_content], run on the records so far with the clock of the
    surroundings. *)
Definition cleaned (raw_html url : string) : Prog Outside (option string) :=
  fun m =>
    let w := {| now := clock host (outside m); stdout := records m |} in
    let (r, w') := clean_html_content lib raw_html url w in
    (match r with Ok v => Done v | Raised e => Crash (Python e) end,
     {| outside := outside m; records := stdout w' |}).

Definition count_processed (c : Counts) : Counts :=
  {| processed_count := processed_count c + 1;
     fetch_error_count := fetch_error_count c;
     clean_error_count := clean_error_count c;
     skip_count := skip_count c |}.

Definition count_fetch_error (c : Counts) : Counts :=
  {| processed_count := processed_count c;
     fetch_error_count := fetch_error_count c + 1;
     clean_error_count := clean_error_count c;
     skip_count := skip_count c |}.

Definition count_clean_error (c : Counts) : Counts :=
  {| processed_count := processed_count c;
     fetch_error_count := fetch_error_count c;
     clean_error_count := clean_error_count c + 1;
     skip_count := skip_count c |}.

Definition count_skip (c : Counts) : Counts :=
  {| processed_count := processed_count c;
     fetch_error_count := fetch_error_count c;
     clean_error_count := clean_error_count c;
     skip_count := skip_count c + 1 |}.

Definition option_truthy (s : option string) : bool :=
  match s with Some v => PyStr.truthy v | None => false end.

(** One turn of the loop of [main] over the URLs. *)
Definition process_url (total_urls i : nat) (url : string) (c : Counts)
  : Prog Outside Counts :=
  log [info ("--- URL " ++ decimal i ++ "/" ++ decimal total_urls ++ ": "
             ++ url ++ " ---")] ;;;
  valid <-
    try_catch
      (parsed_url <- result (urlparse platform url) ;;
       if negb (PyStr.mem (scheme parsed_url) ["http"; "https"]) then
         log [warning ("Skipping invalid URL scheme: " ++ url)] ;;;
         done false
       else done true)
      is_ValueError
      (fun _ =>
         log [warning ("Skipping unparseable URL: " ++ url)] ;;;
         done false) ;;
  if negb valid then done (count_skip c)
  else
    raw_html <- fetch_url_content url ;;
    match raw_html with
    | Some raw_html' =>
        if PyStr.truthy raw_html' then
          cleaned_html <- cleaned raw_html' url ;;
          match cleaned_html with
          | Some cleaned_html' =>
              if PyStr.truthy cleaned_html' then
                output_filename <- result (generate_filename platform url) ;;
                save_cleaned_html output_filename cleaned_html' ;;;
                done (count_processed c)
              else
                log [error ("Failed to clean content for URL: " ++ url)] ;;;
                done (count_clean_error c)
          | None =>
              log [error ("Failed to clean content for URL: " ++ url)] ;;;
              done (count_clean_error c)
          end
        else done (count_fetch_error c)
    | None => done (count_fetch_error c)
    end.

(** [for i, url in enumerate(urls, 1)], from the [i]-th turn on. *)
Fixpoint process_urls (total_urls i : nat) (urls : list string) (c : Counts)
  : Prog Outside Counts :=
  match urls with
  | [] => done c
  | url :: rest =>
      c' <- process_url total_urls i url c ;;
      process_urls total_urls (S i) rest c'
  end.

(** The end of [main]: the summary and the exit status. *)
Definition summary (total_urls : nat) (c : Counts) : Prog Outside unit :=
  log [ info "--- Processing Summary ---";
        info ("Total URLs provided:        " ++ decimal total_urls);
        info ("Successfully processed:     " ++ decimal (processed_count c));
        info ("Skipped (invalid URL/type): " ++ decimal (skip_count c));
        info ("Fetch errors:               " ++ decimal (fetch_error_count c));
        info ("Cleaning errors:            " ++ decimal (clean_error_count c));
        info "Total execution time:       ";
        info "--- Finished ---" ] ;;;
  let total_errors := fetch_error_count c + clean_error_count c in
  if 0 <? total_errors then
    log [warning "Processing finished with errors. Please review logs."] ;;;
    sys_exit 1
  else if (0 <? skip_count c)
          || (Z.of_nat (processed_count c)
              <? Z.of_nat total_urls - Z.of_nat (skip_count c))%Z then
    log [info "Processing finished. Some URLs were skipped or encountered non-critical issues (check logs)."] ;;;
    sys_exit 0
  else
    log [info "All processable URLs completed successfully."] ;;;
    sys_exit 0.

Definition zero_counts : Counts :=
  {| processed_count := 0; fetch_error_count := 0;
     clean_error_count := 0; skip_count := 0 |}.

Definition main : Prog Outside unit :=
  log [info "--- Starting URL Content Cleaner ---"] ;;;
  setup_environment ;;;
  urls <- load_urls ;;
  if is_nil urls then
    log [warning "No URLs found in urls.txt. Exiting."] ;;;
    sys_exit 0
  else
    let total_urls := length urls in
    c <- (host_call (client_open host) ;;;
          leaving
            (log [info ("Processing " ++ decimal total_urls ++ " URLs...")] ;;;
             process_urls total_urls 1 urls zero_counts)
            (host_call (client_close host))) ;;
    summary total_urls c.

End Program.

Arguments done {Outside A} a m.
Arguments and_then {Outside A B} p k m.
Arguments log {Outside} new m.
Arguments sys_exit {Outside A} code m.
Arguments raise {Outside A} e m.
Arguments host_call {Outside A} f m.
Arguments host_read {Outside A} f m.
Arguments answer {Outside A} a m.
Arguments result {Outside A} r m.
Arguments try_catch {Outside A} body handles handler m.
Arguments leaving {Outside A} body exit m.
Arguments setup_environment {Outside} host m.
Arguments load_urls {Outside} host m.
Arguments fetch_url_content {Outside} host url m.
Arguments save_cleaned_html {Outside} host filename html_content m.
Arguments cleaned {Outside} host lib raw_html url m.
Arguments process_url {Outside} host lib platform total_urls i url c m.
Arguments process_urls {Outside} host lib platform total_urls i urls c m.
Arguments summary {Outside} total_urls c m.
Arguments main {Outside} host lib platform m.

(** How many URLs the counters account for. *)
Definition accounted (c : Counts) : nat :=
  processed_count c + fetch_error_count c + clean_error_count c + skip_count c.

(** A stand-in for the surroundings: the state is the list of the files
    written; the list of URLs has a comment, a page, a URL that is not
    http and a page that cannot be reached. *)
Definition response_stand_in : Response :=
  {| raise_for_status := Fine tt;
     content_type := Some "text/html; charset=utf-8";
     encoding := Some "utf-8";
     charset_encoding := Some "utf-8";
     decode := fun _ => Fine "hello" |}.

Definition host_stand_in : Host (list (string * string)) :=
  {| OUTPUT_DIR := "_output";
     URL_LIST_FILE := "urls.txt";
     mkdir := fun o => (Fine tt, o);
     is_file := fun o => (true, o);
     read_lines := fun o =>
       (([ "# pages"; " https://e.com/p "; "ftp://e.com/q";
           "https://e.com/missing" ], None), o);
     client_open := fun o => (Fine tt, o);
     client_close := fun o => (Fine tt, o);
     client_get := fun url o =>
       if PyStr.contains url "missing" then (Fails RequestError, o)
       else (Fine response_stand_in, o);
     write_text := fun filename text o => (Fine tt, (filename, text) :: o);
     clock := fun _ => Stub.midnight |}.

Definition machine_stand_in : Machine (list (string * string)) :=
  {| outside := []; records := [] |}.

(** An end of a run that the program provides for: a value, an exit with
    status 0 or 1, or an exception that is no [OSError]. *)
Definition orderly {A : Type} (out : Outcome A) : Prop :=
  match out with
  | Done _ => True
  | Exit code => code = 0 \/ code = 1
  | Crash e => e <> OSError
  end.

(** The same, but for an [OSError] where [P] holds. *)
Definition orderly_but (P : Prop) {A : Type} (out : Outcome A) : Prop :=
  match out with
  | Done _ => True
  | Exit code => code = 0 \/ code = 1
  | Crash e => e <> OSError \/ P
  end.

(** The client raises an [OSError] when it is opened or closed. *)
Definition client_fails {Outside : Type} (host : Host Outside) : Prop :=
  (exists o, fst (client_open host o) = Fails OSError)
  \/ (exists o, fst (client_close host o) = Fails OSError).

(** What [load_urls] keeps of the lines. *)
Definition is_url_line (stripped_line : string) : bool :=
  PyStr.truthy stripped_line && negb (PyStr.startswith stripped_line "#").

(** ** The shape of the document that is returned *)

(** A tag name as the parser gives it: in lower case. *)
Definition lowercase (name : string) (attrs : Attrs) : Prop :=
  PyStr.lower name = name.

(** Nothing in [n] is for the loop over the empty tags: every string has
    a character that is not whitespace, and every tag has contents or
    attributes or is a br or an hr. *)
Fixpoint solid (n : Node) : bool :=
  match n with
  | NavigableString s => negb (blank s)
  | Tag name attrs contents =>
      (negb (is_nil contents) || negb (is_nil attrs)
       || PyStr.mem name ["br"; "hr"])
      && forallb solid contents
  end.

(** ** The loop over the retained candidates, as a condition *)

(** A retained candidate that keeps [container] out of the table: one
    [find] finds below the container, the container's score being less
    than 1.1 times its own; or one [find] does not find below the
    container but finds the container below, its score being more than
    1.1 times the container's. *)
Definition stands_against (lib : Library) (container : Node) (score : Q)
  (item : Node * Q) : bool :=
  if tag_find lib container (fst item)
  then Qltb score (float_mul (snd item) ratio)
  else tag_find lib (fst item) container
       && Qgtb (snd item) (float_mul score ratio).

(** The retained candidates [find] finds below [container]. *)
Definition found_below (lib : Library) (container : Node)
  (candidates : Candidates) : list Node :=
  map fst (filter (fun item => tag_find lib container (fst item)) candidates).

(* ------------------------------------------------------------------ *)
(** * Properties *)

(** The literal 1.1 is the double next above 11/10, so that 100 * 1.1
    is more than 110. *)
Example ratio_value :
  ratio = 2476979795053773 # 2251799813685248
  /\ Qltb (110 # 1) (float_mul (100 # 1) ratio) = true.
Proof. split; vm_compute; reflexivity. Qed.

Lemma mem_In x l : PyStr.mem x l = true <-> In x l.
Proof.
  unfold PyStr.mem. rewrite existsb_exists. split.
  - intros [y [Hy E]]. apply String.eqb_eq in E. now subst.
  - intros H. exists x. split; [assumption | apply String.eqb_refl].
Qed.

Module DictFacts.

Lemma set_In k v d x w :
  In (x, w) (Dict.set k v d) -> (x = k /\ w = v) \/ In (x, w) d.
Proof.
  induction d as [|[k' v'] r IH]; simpl.
  - intros [H | []]. inversion H. now left.
  - destruct (String.eqb k k') eqn:E; simpl.
    + apply String.eqb_eq in E. subst k'.
      intros [H | H]; [inversion H; now left | right; now right].
    + intros [H | H]; [right; now left |].
      destruct (IH H) as [H' | H']; [now left | right; now right].
Qed.

Lemma set_keys k v d x :
  In x (Dict.keys (Dict.set k v d)) -> x = k \/ In x (Dict.keys d).
Proof.
  unfold Dict.keys. rewrite !in_map_iff.
  intros [[x' w] [Hx Hin]]. simpl in Hx. subst x'.
  destruct (set_In _ _ _ _ _ Hin) as [[-> _] | H]; [now left | right].
  now exists (x, w).
Qed.

End DictFacts.

(** ** The elements of a tree *)

Section AllTags.

Variable P : string -> Attrs -> Prop.

Lemma all_tags_string s : all_tags P (NavigableString s).
Proof. constructor. Qed.

Lemma all_tags_tag name attrs contents :
  all_tags P (Tag name attrs contents) <->
  P name attrs /\ Forall (all_tags P) contents.
Proof.
  unfold all_tags. simpl. rewrite Forall_cons_iff, Forall_flat_map.
  reflexivity.
Qed.

Lemma every_element_contents soup :
  every_element P soup <-> Forall (all_tags P) (contents_of soup).
Proof.
  unfold every_element, descendant_tags. now rewrite Forall_flat_map.
Qed.

Lemma all_tags_every_element n : all_tags P n -> every_element P n.
Proof.
  destruct n as [s | name attrs contents].
  - intros _. constructor.
  - rewrite all_tags_tag, every_element_contents. now intros [_ H].
Qed.

Lemma all_tags_flat_map (f : Node -> list Node) l :
  Forall (fun x => Forall (all_tags P) (f x)) l ->
  Forall (all_tags P) (flat_map f l).
Proof. now rewrite Forall_flat_map. Qed.

End AllTags.

Lemma all_tags_impl (P Q : string -> Attrs -> Prop) n :
  (forall name attrs, P name attrs -> Q name attrs) ->
  all_tags P n -> all_tags Q n.
Proof.
  intros HPQ. unfold all_tags. apply Forall_impl.
  intros [s | name attrs contents]; simpl; auto.
Qed.

(** ** The transformer *)

Arguments PyStr.mem : simpl never.
Arguments PyStr.lower : simpl never.
Arguments PyStr.strip : simpl never.

Section TransformerFacts.

Variable lib : Library.
Variable original_url : string.
Variable max_depth : nat.

Local Abbreviation clean :=
  (clean_element_recursively lib original_url max_depth).
Local Abbreviation clean_children depth :=
  (clean_each (fun child => clean child (S depth))).

Lemma clean_beyond_depth element depth :
  max_depth < depth ->
  clean element depth = (None, [depth_warning max_depth]).
Proof.
  intros H. apply Nat.ltb_lt in H.
  destruct element; simpl; now rewrite H.
Qed.

Lemma clean_string s depth :
  depth <= max_depth ->
  clean (NavigableString s) depth =
  (if PyStr.truthy (PyStr.strip s)
   then Some (NavigableString (PyStr.strip s)) else None, []).
Proof.
  intros H. apply Nat.ltb_ge in H. simpl. now rewrite H.
Qed.

Lemma clean_disallowed name attrs contents depth :
  depth <= max_depth ->
  PyStr.mem (PyStr.lower name) LLM_OPTIMIZED_TAGS = false ->
  fst (clean (Tag name attrs contents) depth) =
  match fst (clean_children depth contents) with
  | [] => None
  | fragment => Some (Tag "div" [] fragment)
  end.
Proof.
  intros H Hmem. apply Nat.ltb_ge in H. simpl. rewrite H, Hmem. simpl.
  destruct (clean_children depth contents) as [fragment w].
  simpl. now destruct fragment.
Qed.

Lemma clean_allowed name attrs contents depth :
  depth <= max_depth ->
  PyStr.mem (PyStr.lower name) LLM_OPTIMIZED_TAGS = true ->
  fst (clean (Tag name attrs contents) depth) =
  let clean_attrs :=
    fst (clean_attributes lib original_url (PyStr.lower name) attrs []) in
  let clean_contents :=
    flat_map splice (fst (clean_children depth contents)) in
  if is_nil clean_contents && negb (PyStr.mem (PyStr.lower name) ["br"; "hr"])
  then None
  else Some (Tag name clean_attrs clean_contents).
Proof.
  intros H Hmem. apply Nat.ltb_ge in H. simpl. rewrite H, Hmem. simpl.
  destruct (clean_attributes _ _ _ attrs []) as [clean_attrs w1].
  destruct (clean_children depth contents) as [cleaned w2].
  simpl.
  destruct (flat_map splice cleaned) eqn:E; simpl; [|reflexivity].
  now destruct (negb _).
Qed.

(** What [clean_each] collects comes from the children. *)
Lemma clean_each_In (f : Node -> Logged (option Node)) children c :
  In c (fst (clean_each f children)) ->
  exists child, In child children /\ fst (f child) = Some c.
Proof.
  induction children as [|child rest IH]; simpl; [intros []|].
  destruct (f child) as [cleaned_child w] eqn:Ef.
  destruct (clean_each f rest) as [cleaned_rest ws]. simpl in *.
  destruct cleaned_child as [c'|].
  - intros [<- | H].
    + exists child. rewrite Ef. auto.
    + destruct (IH H) as [x [Hx Hf]]. exists x. auto.
  - intros H. destruct (IH H) as [x [Hx Hf]]. exists x. auto.
Qed.

Lemma clean_each_truncated (f : Node -> Logged (option Node)) children :
  (forall child, fst (f child) = None) ->
  fst (clean_each f children) = [].
Proof.
  intros Hf. induction children as [|child rest IH]; simpl; [reflexivity|].
  specialize (Hf child).
  destruct (f child) as [cleaned_child w].
  destruct (clean_each f rest) as [cleaned_rest ws]. simpl in *.
  now subst.
Qed.

(** *** Attributes *)

Local Abbreviation clean_attrs_of tag_name items :=
  (fst (clean_attributes lib original_url tag_name items [])).

Lemma clean_attributes_cons tag_name attr value rest acc :
  fst (clean_attributes lib original_url tag_name ((attr, value) :: rest) acc) =
  fst (clean_attributes lib original_url tag_name rest
         match fst (clean_attribute lib original_url tag_name attr value) with
         | Some v => Dict.set attr v acc
         | None => acc
         end).
Proof.
  simpl.
  destruct (clean_attribute lib original_url tag_name attr value) as [cv w].
  simpl. now destruct (clean_attributes lib original_url tag_name rest _).
Qed.

Lemma clean_attributes_app tag_name l1 l2 acc :
  fst (clean_attributes lib original_url tag_name (l1 ++ l2) acc) =
  fst (clean_attributes lib original_url tag_name l2
         (fst (clean_attributes lib original_url tag_name l1 acc))).
Proof.
  revert acc. induction l1 as [|[attr value] rest IH]; intros acc.
  - reflexivity.
  - rewrite <- app_comm_cons, !clean_attributes_cons. apply IH.
Qed.

(** An attribute of the new tag was set by a turn of the loop. *)
Lemma clean_attributes_In tag_name items acc k v :
  In (k, v) (fst (clean_attributes lib original_url tag_name items acc)) ->
  In (k, v) acc \/
  exists value,
    In (k, value) items /\
    fst (clean_attribute lib original_url tag_name k value) = Some v.
Proof.
  revert acc. induction items as [|[attr value] rest IH]; intros acc.
  - now left.
  - rewrite clean_attributes_cons. intros H.
    destruct (IH _ H) as [Hacc | [value' [Hin Hc]]].
    + destruct (fst (clean_attribute lib original_url tag_name attr value))
        as [v'|] eqn:E.
      * destruct (DictFacts.set_In _ _ _ _ _ Hacc) as [[-> ->] | Hacc'];
          [right | now left].
        exists value. split; [now left | assumption].
      * now left.
    + right. exists value'. split; [now right | assumption].
Qed.

Lemma clean_attribute_allowed tag_name attr value v :
  fst (clean_attribute lib original_url tag_name attr value) = Some v ->
  PyStr.mem (PyStr.lower attr) (allow_list_get tag_name ATTRIBUTE_ALLOW_LIST)
  = true.
Proof.
  unfold clean_attribute.
  destruct (PyStr.mem (PyStr.lower attr) _); [reflexivity | discriminate].
Qed.

Lemma resolve_href_Some value v :
  fst (resolve_href lib original_url value) = Some v ->
  exists absolute_href scheme,
    urljoin lib original_url (PyStr.strip (py_str value)) = Ok absolute_href
    /\ urlparse_scheme lib absolute_href = Ok scheme
    /\ (scheme = "http" \/ scheme = "https")
    /\ v = AStr absolute_href.
Proof.
  unfold resolve_href.
  destruct (urljoin lib original_url _) as [absolute_href | e] eqn:Hj;
    [|discriminate].
  destruct (urlparse_scheme lib absolute_href) as [scheme | e] eqn:Hs;
    [|discriminate].
  destruct (PyStr.mem scheme ["http"; "https"]) eqn:E; [|discriminate].
  simpl. intros [= <-]. exists absolute_href, scheme.
  apply mem_In in E. simpl in E.
  split; [reflexivity | split; [assumption | split; [|reflexivity]]].
  destruct E as [E | [E | []]]; [left | right]; now symmetry.
Qed.

Lemma anchor_href_kept attr value v :
  fst (clean_attribute lib original_url "a" attr value) = Some v ->
  PyStr.lower attr = "href" /\
  fst (resolve_href lib original_url value) = Some v.
Proof.
  intros H. pose proof (clean_attribute_allowed _ _ _ _ H) as Hal.
  apply mem_In in Hal. simpl in Hal. destruct Hal as [Hk | []].
  split; [now symmetry|].
  revert H. unfold clean_attribute. rewrite <- Hk. simpl.
  destruct (resolve_href lib original_url value) as [[cv|] w]; simpl;
    [|discriminate].
  now destruct (attr_truthy cv).
Qed.

Lemma anchor_href_dropped attr value :
  PyStr.lower attr = "href" ->
  fst (resolve_href lib original_url value) = None ->
  fst (clean_attribute lib original_url "a" attr value) = None.
Proof.
  intros Hk Hr. unfold clean_attribute. rewrite Hk. simpl.
  destruct (resolve_href lib original_url value) as [cv w].
  simpl in *. now subst.
Qed.

End TransformerFacts.

(** C3, amended.  Href policy.  On an anchor within the depth bound:
    every attribute the new anchor keeps is an href whose value is the
    source value, stripped and resolved against the source URL by
    [urljoin], and whose scheme is http or https; an href whose
    resolution raises or whose scheme is anything else is dropped and
    nothing else changes, the result being that of the same anchor
    without the attribute; and the anchor is in the output exactly when
    some of its content is: an anchor none of whose content is left is
    discarded, whether its href was kept or dropped. *)
Theorem href_policy (lib : Library) (original_url : string) (max_depth : nat)
  (name : string) (attrs : Attrs) (contents : list Node) (depth : nat) :
  PyStr.lower name = "a" ->
  depth <= max_depth ->
  let clean := clean_element_recursively lib original_url max_depth in
  let clean_attrs := fst (clean_attributes lib original_url "a" attrs []) in
  let clean_contents :=
    flat_map splice
      (fst (clean_each (fun child => clean child (S depth)) contents)) in
  (forall k v, In (k, v) clean_attrs ->
     exists value absolute_href scheme,
       In (k, value) attrs /\ PyStr.lower k = "href"
       /\ urljoin lib original_url (PyStr.strip (py_str value))
          = Ok absolute_href
       /\ urlparse_scheme lib absolute_href = Ok scheme
       /\ (scheme = "http" \/ scheme = "https")
       /\ v = AStr absolute_href)
  /\ (forall before k value after,
        attrs = before ++ (k, value) :: after ->
        PyStr.lower k = "href" ->
        fst (resolve_href lib original_url value) = None ->
        fst (clean (Tag name attrs contents) depth)
        = fst (clean (Tag name (before ++ after) contents) depth))
  /\ (clean_contents <> [] ->
      fst (clean (Tag name attrs contents) depth)
      = Some (Tag name clean_attrs clean_contents))
  /\ (clean_contents = [] ->
      fst (clean (Tag name attrs contents) depth) = None).
Proof.
  intros Hname Hdepth clean clean_attrs clean_contents.
  assert (Hallowed : PyStr.mem (PyStr.lower name) LLM_OPTIMIZED_TAGS = true)
    by now rewrite Hname.
  split; [|split; [|split]].
  - intros k v Hin.
    destruct (clean_attributes_In _ _ _ _ _ _ _ Hin) as [[] | [value [Hsrc Hc]]].
    destruct (anchor_href_kept _ _ _ _ _ Hc) as [Hk Hr].
    destruct (resolve_href_Some _ _ _ _ Hr)
      as [absolute_href [scheme [Hj [Hs [Hsch ->]]]]].
    exists value, absolute_href, scheme. auto 10.
  - intros before k value after -> Hk Hr. unfold clean.
    rewrite !clean_allowed by assumption. rewrite Hname.
    rewrite !clean_attributes_app, clean_attributes_cons.
    now rewrite (anchor_href_dropped _ _ _ _ Hk Hr).
  - intros Hne. unfold clean. rewrite clean_allowed by assumption.
    rewrite Hname. fold clean. fold clean_contents. fold clean_attrs.
    simpl. destruct clean_contents; [contradiction | reflexivity].
  - intros Hnil. unfold clean. rewrite clean_allowed by assumption.
    rewrite Hname. fold clean. fold clean_contents. rewrite Hnil.
    reflexivity.
Qed.

(** C3 at [<a href="mailto:x">link</a>] on the page [https://e.com/y/]:
    the href goes, the anchor and its text stay. *)
Lemma href_policy_witness :
  PyStr.lower "a" = "a" /\ 0 <= 30 /\
  fst (clean_element_recursively Stub.library "https://e.com/y/" 30
         (Tag "a" [("href", AStr "mailto:x")] [NavigableString "link"]) 0)
  = Some (Tag "a" [] [NavigableString "link"]).
Proof.
  split; [reflexivity | split; [apply Nat.le_0_l |]].
  apply (href_policy Stub.library "https://e.com/y/" 30 "a"
           [("href", AStr "mailto:x")] [NavigableString "link"] 0
           eq_refl (Nat.le_0_l 30)).
  discriminate.
Defined.

(** C5, amended.  Empty-element discard.  An allow-listed element within
    the depth bound is discarded exactly when the rebuilt element has no
    children and its tag is not br or hr, whatever attributes it kept;
    otherwise the rebuilt element is returned, so br and hr always are. *)
Theorem discard_childless (lib : Library) (original_url : string)
  (max_depth : nat) (name : string) (attrs : Attrs) (contents : list Node)
  (depth : nat) :
  depth <= max_depth ->
  PyStr.mem (PyStr.lower name) LLM_OPTIMIZED_TAGS = true ->
  let clean := clean_element_recursively lib original_url max_depth in
  let clean_attrs :=
    fst (clean_attributes lib original_url (PyStr.lower name) attrs []) in
  let clean_contents :=
    flat_map splice
      (fst (clean_each (fun child => clean child (S depth)) contents)) in
  (fst (clean (Tag name attrs contents) depth) = None <->
   clean_contents = [] /\ PyStr.mem (PyStr.lower name) ["br"; "hr"] = false)
  /\ (fst (clean (Tag name attrs contents) depth) <> None ->
      fst (clean (Tag name attrs contents) depth)
      = Some (Tag name clean_attrs clean_contents)).
Proof.
  intros Hdepth Hallowed clean clean_attrs clean_contents.
  unfold clean. rewrite clean_allowed by assumption.
  fold clean. fold clean_contents. fold clean_attrs. simpl.
  destruct clean_contents as [|c r];
    destruct (PyStr.mem (PyStr.lower name) ["br"; "hr"]); simpl;
    (split; [split; [try discriminate; auto | intros [? ?]; congruence]
            | congruence]).
Qed.

(** C5 at [<br>]: childless, and returned. *)
Lemma discard_childless_witness :
  0 <= 30 /\ PyStr.mem (PyStr.lower "br") LLM_OPTIMIZED_TAGS = true /\
  fst (clean_element_recursively Stub.library "https://e.com/" 30
         (Tag "br" [] []) 0) = Some (Tag "br" [] []).
Proof.
  split; [apply Nat.le_0_l | split; [reflexivity |]].
  apply (discard_childless Stub.library "https://e.com/" 30 "br" [] [] 0
           (Nat.le_0_l 30) eq_refl).
  discriminate.
Defined.

(** C3 as stated fails: an anchor without content is not retained.  With
    an href that is rejected, [<a href="mailto:x"></a>], the attribute is
    dropped and the anchor with it; with an href that is kept,
    [<a href="/x"></a>], the anchor is discarded all the same. *)
Lemma anchor_without_content_discarded :
  fst (resolve_href Stub.library "https://e.com/y/" (AStr "mailto:x")) = None
  /\ fst (clean_element_recursively Stub.library "https://e.com/y/" 30
            (Tag "a" [("href", AStr "mailto:x")] []) 0) = None
  /\ fst (clean_attributes Stub.library "https://e.com/y/" "a"
            [("href", AStr "/x")] []) = [("href", AStr "https://e.com/x")]
  /\ fst (clean_element_recursively Stub.library "https://e.com/y/" 30
            (Tag "a" [("href", AStr "/x")] []) 0) = None.
Proof. repeat split; vm_compute; reflexivity. Qed.

(** C5 as stated fails: a table cell that keeps its colspan and has no
    children is discarded. *)
Lemma childless_with_attribute_discarded :
  fst (clean_attributes Stub.library "https://e.com/" "td"
         [("colspan", AStr "2")] []) = [("colspan", AStr "2")]
  /\ fst (clean_element_recursively Stub.library "https://e.com/" 30
            (Tag "td" [("colspan", AStr "2")] []) 0) = None.
Proof. split; reflexivity. Qed.

(** ** The depth bound *)

Lemma nested_divs_run (lib : Library) (original_url : string) (w : World) :
  let soup := page [nested_divs 31 (NavigableString "text")] in
  fst (clean_document lib soup original_url w)
  = Ok (new_soup (AStr "en") "Cleaned: Untitled Document"
          [ meta_section original_url (now w);
            Tag "h1" [] [NavigableString "Untitled Document"];
            placeholder ])
  /\ In (depth_warning DEFAULT_MAX_DEPTH)
       (stdout (snd (clean_document lib soup original_url w))).
Proof.
  intros soup. split.
  - vm_compute. reflexivity.
  - vm_compute. apply in_or_app. left. apply in_or_app. right.
    left. reflexivity.
Qed.

(** C4.  Depth bound.  A node reached at a depth beyond the bound is not
    visited: the call returns [None] and logs one warning, nothing is
    raised; a tag at the bound therefore gets no contents from its
    children.  On a page whose body is 31 nested divs around a text, the
    text lies at depth 31: the run completes, logs the warning, and
    returns the complete document with the placeholder passage. *)
Theorem depth_bound (lib : Library) (original_url : string) (element : Node)
  (depth : nat) :
  DEFAULT_MAX_DEPTH < depth ->
  let clean :=
    clean_element_recursively lib original_url DEFAULT_MAX_DEPTH in
  clean element depth = (None, [depth_warning DEFAULT_MAX_DEPTH])
  /\ (forall children,
        fst (clean_each (fun child => clean child depth) children) = [])
  /\ (forall w,
        let soup := page [nested_divs 31 (NavigableString "text")] in
        fst (clean_document lib soup original_url w)
        = Ok (new_soup (AStr "en") "Cleaned: Untitled Document"
                [ meta_section original_url (now w);
                  Tag "h1" [] [NavigableString "Untitled Document"];
                  placeholder ])
        /\ In (depth_warning DEFAULT_MAX_DEPTH)
             (stdout (snd (clean_document lib soup original_url w)))).
Proof.
  intros Hdepth clean. split; [|split].
  - now apply clean_beyond_depth.
  - intros children. apply clean_each_truncated.
    intros child. unfold clean. now rewrite clean_beyond_depth.
  - intros w. apply nested_divs_run.
Qed.

(** C4 at depth 31, for the text below 31 nested divs. *)
Lemma depth_bound_witness :
  DEFAULT_MAX_DEPTH < 31 /\
  clean_element_recursively Stub.library "https://e.com/" DEFAULT_MAX_DEPTH
    (NavigableString "text") 31
  = (None, [depth_warning DEFAULT_MAX_DEPTH]).
Proof.
  split; [unfold DEFAULT_MAX_DEPTH; apply Nat.lt_succ_diag_r |].
  apply (depth_bound Stub.library "https://e.com/" (NavigableString "text") 31
           (Nat.lt_succ_diag_r 30)).
Defined.

(** ** Allow-list closure of the transformer *)

Lemma all_tags_split P n : all_tags P n <-> label_ok P n /\ all_below P n.
Proof.
  destruct n as [s | name attrs contents].
  - split; [intros _; split; [exact I | constructor] | intros _; constructor].
  - apply all_tags_tag.
Qed.

Lemma every_element_all_below P soup : every_element P soup <-> all_below P soup.
Proof. apply every_element_contents. Qed.

Lemma Forall_clean_each (P : Node -> Prop) (f : Node -> Logged (option Node))
  children :
  Forall (fun child => forall r, fst (f child) = Some r -> P r) children ->
  Forall P (fst (clean_each f children)).
Proof.
  intros H. apply Forall_forall. intros c Hc.
  destruct (clean_each_In _ _ _ Hc) as [child [Hin Hf]].
  rewrite Forall_forall in H. eauto.
Qed.

Lemma splice_all_tags P c : all_tags P c -> Forall (all_tags P) (splice c).
Proof.
  intros H. unfold splice. destruct (is_fragment c).
  - apply all_tags_split in H. apply H.
  - now constructor.
Qed.

Lemma clean_attributes_allow_listed lib original_url name attrs :
  PyStr.mem (PyStr.lower name) LLM_OPTIMIZED_TAGS = true ->
  allow_listed name
    (fst (clean_attributes lib original_url (PyStr.lower name) attrs []))
  = true.
Proof.
  intros Hname. unfold allow_listed. rewrite Hname. simpl.
  apply forallb_forall. intros k Hk.
  unfold Dict.keys in Hk. apply in_map_iff in Hk.
  destruct Hk as [[k' v] [<- Hin]]. simpl.
  destruct (clean_attributes_In _ _ _ _ _ _ _ Hin) as [[] | [value [_ Hc]]].
  eapply clean_attribute_allowed; eauto.
Qed.

Lemma clean_rebuilt lib original_url max_depth element :
  forall depth r,
    fst (clean_element_recursively lib original_url max_depth element depth)
    = Some r ->
    all_tags rebuilt r.
Proof.
  induction element as [s | name attrs contents IH] using Node_ind_nested;
    intros depth r Hr.
  - destruct (Nat.le_gt_cases depth max_depth) as [Hd | Hd].
    + rewrite clean_string in Hr by assumption. simpl in Hr.
      destruct (PyStr.truthy _); [|discriminate].
      injection Hr as <-. apply all_tags_string.
    + rewrite clean_beyond_depth in Hr by assumption. discriminate.
  - destruct (Nat.le_gt_cases depth max_depth) as [Hd | Hd];
      [|rewrite clean_beyond_depth in Hr by assumption; discriminate].
    assert (Hkids :
      Forall (all_tags rebuilt)
        (fst (clean_each
                (fun child =>
                   clean_element_recursively lib original_url max_depth child
                     (S depth)) contents))).
    { apply Forall_clean_each. revert IH. apply Forall_impl.
      intros child Hchild r'. apply Hchild. }
    destruct (PyStr.mem (PyStr.lower name) LLM_OPTIMIZED_TAGS) eqn:Hname.
    + rewrite clean_allowed in Hr by assumption. simpl in Hr.
      destruct (_ && _); [discriminate|]. injection Hr as <-.
      apply all_tags_tag. split.
      * left. now apply clean_attributes_allow_listed.
      * apply all_tags_flat_map. revert Hkids. apply Forall_impl.
        intros c. apply splice_all_tags.
    + rewrite clean_disallowed in Hr by assumption.
      destruct (fst (clean_each _ contents)) as [|c fragment] eqn:E;
        [discriminate|].
      injection Hr as <-. apply all_tags_tag. split; [|assumption].
      right. split; reflexivity.
Qed.

(** ** The post-processors keep the names and attributes of the tags *)

Section Preservation.

Variable P : string -> Attrs -> Prop.

Lemma normalize_strings_all_tags n :
  forall parent_name,
    all_tags P n -> Forall (all_tags P) (normalize_strings parent_name n).
Proof.
  induction n as [s | name attrs contents IH] using Node_ind_nested;
    intros parent_name Hn; simpl.
  - destruct (negb _); [|now constructor].
    destruct (PyStr.truthy _); constructor; [apply all_tags_string | constructor].
  - constructor; [|constructor].
    apply all_tags_tag in Hn. destruct Hn as [Hl Hc].
    apply all_tags_tag. split; [assumption|].
    apply all_tags_flat_map. rewrite Forall_forall in *.
    intros c Hin. apply IH; auto.
Qed.

Lemma normalize_whitespace_all_below soup :
  all_below P soup -> all_below P (normalize_whitespace soup).
Proof.
  destruct soup as [s | name attrs contents]; [trivial|].
  unfold all_below. simpl. intros H.
  apply all_tags_flat_map. revert H. apply Forall_impl.
  intros c. apply normalize_strings_all_tags.
Qed.

Lemma remove_tags_all_tags doomed n :
  all_tags P n -> all_tags P (remove_tags doomed n).
Proof.
  induction n as [s | name attrs contents IH] using Node_ind_nested;
    intros Hn; simpl; [assumption|].
  apply all_tags_tag in Hn. destruct Hn as [Hl Hc].
  apply all_tags_tag. split; [assumption|].
  apply all_tags_flat_map. rewrite Forall_forall in *.
  intros c Hin. destruct (_ && _); constructor; [|constructor].
  apply IH; auto.
Qed.

Lemma remove_tags_all_below doomed soup :
  all_below P soup -> all_below P (remove_tags doomed soup).
Proof.
  destruct soup as [s | name attrs contents]; [trivial|].
  unfold all_below. simpl. intros H.
  apply all_tags_flat_map. rewrite Forall_forall in *.
  intros c Hin. destruct (_ && _); constructor; [|constructor].
  apply remove_tags_all_tags; auto.
Qed.

Lemma remove_empty_loop_all_below fuel :
  forall soup,
    all_below P soup -> all_below P (remove_empty_loop fuel soup).
Proof.
  induction fuel as [|fuel IH]; intros soup H; simpl; [assumption|].
  destruct (_ =? 0); [assumption|].
  apply IH. now apply remove_tags_all_below.
Qed.

Lemma splice_nth_Forall (Q : Node -> Prop) (g : Node -> list Node) l :
  forall i,
    Forall Q l -> (forall x, Q x -> Forall Q (g x)) ->
    Forall Q (splice_nth i g l).
Proof.
  induction l as [|x r IH]; intros i Hl Hg; destruct i; simpl;
    try constructor.
  - apply Forall_app. inversion Hl; subst. split; auto.
  - now inversion Hl.
  - inversion Hl; subst. now apply IH.
Qed.

Lemma get_at_all_tags pos :
  forall n x, all_tags P n -> get_at pos n = Some x -> all_tags P x.
Proof.
  induction pos as [|i rest IH]; intros n x Hn; simpl.
  - now intros [= <-].
  - destruct (nth_error (contents_of n) i) as [child|] eqn:E;
      [|discriminate].
    apply IH. apply all_tags_split in Hn. destruct Hn as [_ Hb].
    unfold all_below in Hb. rewrite Forall_forall in Hb.
    apply Hb. eapply nth_error_In; eauto.
Qed.

Lemma get_at_all_below pos soup x :
  all_below P soup -> pos <> [] -> get_at pos soup = Some x -> all_tags P x.
Proof.
  intros Hb Hpos. destruct pos as [|i rest]; [contradiction|]. simpl.
  destruct (nth_error (contents_of soup) i) as [child|] eqn:E;
    [|discriminate].
  apply get_at_all_tags. unfold all_below in Hb.
  rewrite Forall_forall in Hb. apply Hb. eapply nth_error_In; eauto.
Qed.

Lemma update_at_all_tags (f : Node -> list Node) pos :
  (forall x, all_tags P x -> Forall (all_tags P) (f x)) ->
  forall n, all_tags P n -> all_tags P (update_at pos f n).
Proof.
  intros Hf. induction pos as [|i rest IH]; intros n Hn; [assumption|].
  destruct n as [s | name attrs contents]; [assumption|]. simpl.
  apply all_tags_tag in Hn. destruct Hn as [Hl Hc].
  apply all_tags_tag. split; [assumption|].
  apply splice_nth_Forall; [assumption|].
  intros x Hx. destruct rest; [now apply Hf|].
  constructor; [now apply IH | constructor].
Qed.

Lemma update_at_all_below (f : Node -> list Node) pos soup :
  (forall x, all_tags P x -> Forall (all_tags P) (f x)) ->
  all_below P soup -> all_below P (update_at pos f soup).
Proof.
  intros Hf Hb. destruct pos as [|i rest]; [assumption|].
  destruct soup as [s | name attrs contents]; [assumption|].
  unfold all_below in *. simpl in *.
  apply splice_nth_Forall; [assumption|].
  intros x Hx. destruct rest; [now apply Hf|].
  constructor; [now apply update_at_all_tags | constructor].
Qed.

Lemma append_children_all_tags new x :
  Forall (all_tags P) new -> all_tags P x ->
  Forall (all_tags P) (append_children new x).
Proof.
  intros Hnew Hx. destruct x as [s | name attrs contents]; simpl;
    (constructor; [|constructor]); [assumption|].
  apply all_tags_tag in Hx. destruct Hx as [Hl Hc].
  apply all_tags_tag. split; [assumption|]. apply Forall_app. now split.
Qed.

End Preservation.

Section PreservationDocument.

Variable P : string -> Attrs -> Prop.

Lemma get_at_contents pos soup x :
  all_below P soup -> get_at pos soup = Some x -> all_below P x.
Proof.
  intros Hb. destruct pos as [|i rest].
  - now intros [= <-].
  - intros H. eapply get_at_all_below in H; [|eassumption|discriminate].
    apply all_tags_split in H. apply H.
Qed.

Lemma merge_pair_all_below prev_pos current_pos soup :
  all_below P soup -> all_below P (merge_pair prev_pos current_pos soup).
Proof.
  intros Hb. unfold merge_pair.
  destruct (get_at prev_pos soup) as [prev_p|]; [|assumption].
  destruct (get_at current_pos soup) as [current_p|] eqn:Hc; [|assumption].
  destruct (_ && _); [|assumption].
  apply update_at_all_below; [intros; constructor|].
  apply update_at_all_below; [|assumption].
  intros x Hx. apply append_children_all_tags; [|assumption].
  apply Forall_app. split.
  - destruct (_ && _); [|constructor].
    constructor; [apply all_tags_string | constructor].
  - eapply get_at_contents; eauto.
Qed.

Lemma merge_backwards_all_below paragraphs :
  forall soup,
    all_below P soup -> all_below P (merge_backwards paragraphs soup).
Proof.
  induction paragraphs as [|current_pos rest IH]; intros soup Hb;
    [assumption|].
  simpl. destruct rest as [|prev_pos rest']; [assumption|].
  apply IH. now apply merge_pair_all_below.
Qed.

Lemma normalize_text_content_all_below soup :
  all_below P soup -> all_below P (normalize_text_content soup).
Proof.
  intros Hb. unfold normalize_text_content, merge_paragraphs.
  apply merge_backwards_all_below. unfold remove_empty_tags.
  apply remove_empty_loop_all_below.
  now apply normalize_whitespace_all_below.
Qed.

Lemma add_llm_metadata_all_below soup original_url original_title timestamp :
  all_tags P (meta_section original_url timestamp) ->
  P "h1" [] ->
  all_below P soup ->
  all_below P
    (fst (add_llm_metadata soup original_url original_title timestamp)).
Proof.
  intros Hsection Hh1 Hb. unfold add_llm_metadata.
  destruct (find_position (named "body") soup) as [body|]; [|assumption].
  cbv zeta.
  set (first_body_element := find_position (fun _ => true) (node_at body soup)).
  assert (Hsoup :
    all_below P
      match first_body_element with
      | Some _ =>
          insert_before
            match first_body_element with
            | Some first => body ++ first
            | None => body ++ [length (contents_of (node_at body soup))]
            end (meta_section original_url timestamp) soup
      | None => append_to body (meta_section original_url timestamp) soup
      end).
  { destruct first_body_element.
    - apply update_at_all_below; [|assumption].
      intros x Hx.
      apply Forall_cons; [assumption|].
      apply Forall_cons; [assumption | apply Forall_nil].
    - apply update_at_all_below; [|assumption].
      intros x Hx. apply append_children_all_tags; [|assumption].
      apply Forall_cons; [assumption | apply Forall_nil]. }
  simpl. destruct (find "h1" _); [assumption|].
  destruct (PyStr.truthy original_title); [|assumption].
  apply update_at_all_below; [|assumption].
  intros x Hx. constructor; [assumption|]. constructor; [|constructor].
  apply all_tags_tag. split; [assumption|].
  constructor; [apply all_tags_string | constructor].
Qed.

End PreservationDocument.

(** ** The assembled document *)

Lemma rebuilt_assembled name attrs : rebuilt name attrs -> assembled name attrs.
Proof. unfold rebuilt, assembled. tauto. Qed.

Lemma meta_section_assembled original_url timestamp :
  all_tags assembled (meta_section original_url timestamp).
Proof.
  unfold meta_section.
  repeat (first [ apply all_tags_string
                | apply all_tags_tag; split
                | apply Forall_cons
                | apply Forall_nil ]);
    try (left; reflexivity).
  right. right. right. split; reflexivity.
Qed.

Lemma placeholder_assembled : all_tags assembled placeholder.
Proof.
  unfold placeholder.
  repeat (first [ apply all_tags_string
                | apply all_tags_tag; split
                | apply Forall_cons
                | apply Forall_nil ]);
    left; reflexivity.
Qed.

Lemma new_soup_assembled lang title body :
  Forall (all_tags assembled) body ->
  all_below assembled (new_soup lang title body).
Proof.
  intros Hbody. unfold new_soup, all_below. simpl.
  repeat (first [ apply all_tags_string
                | assumption
                | apply all_tags_tag; split
                | apply Forall_cons
                | apply Forall_nil ]);
    try (left; reflexivity).
  right. right. left. split; reflexivity.
Qed.

Lemma build_clean_soup_assembled lib soup main_content_element original_url
  original_title :
  all_below assembled
    (fst (build_clean_soup lib soup main_content_element original_url
            original_title)).
Proof.
  unfold build_clean_soup.
  destruct (clean_each _ _) as [cleaned w] eqn:E.
  assert (Hcleaned : Forall (all_tags rebuilt) cleaned).
  { replace cleaned with (fst (clean_each
      (fun element =>
         clean_element_recursively lib original_url DEFAULT_MAX_DEPTH element 0)
      (if named "body" main_content_element
       then contents_of main_content_element else [main_content_element])))
      by now rewrite E.
    apply Forall_clean_each. apply Forall_forall.
    intros child _ r. apply clean_rebuilt. }
  assert (Hbody : Forall (all_tags assembled) (flat_map splice cleaned)).
  { apply all_tags_flat_map. revert Hcleaned. apply Forall_impl.
    intros c Hc. apply splice_all_tags.
    revert Hc. apply all_tags_impl. apply rebuilt_assembled. }
  destruct (flat_map splice cleaned) as [|c body]; simpl;
    apply normalize_text_content_all_below; apply new_soup_assembled;
    [|assumption].
  constructor; [apply placeholder_assembled | constructor].
Qed.

Lemma document_assembled lib soup original_url timestamp :
  every_element assembled (document lib soup original_url timestamp).
Proof.
  apply every_element_all_below. unfold document.
  apply add_llm_metadata_all_below.
  - apply meta_section_assembled.
  - left. reflexivity.
  - apply build_clean_soup_assembled.
Qed.

(** ** Runs of the orchestrator *)

Lemma logged_run {A : Type} (x : Logged A) (w : World) :
  logged x w = (Ok (fst x), {| now := now w; stdout := stdout w ++ snd x |}).
Proof. reflexivity. Qed.

Lemma bind_Ok {A B : Type} (m : Run A) (k : A -> Run B) w a w' :
  m w = (Ok a, w') -> bind m k w = k a w'.
Proof. unfold bind. now intros ->. Qed.

Lemma bind_Raised {A B : Type} (m : Run A) (k : A -> Run B) w e w' :
  m w = (Raised e, w') -> bind m k w = (Raised e, w').
Proof. unfold bind. now intros ->. Qed.

(** A handler for every exception that itself returns a value turns
    whatever the body does into a value. *)
Lemma try_except_contains {A : Type} (body : Run A)
  (handler : PyException -> Run A) (w : World) :
  (forall e w', exists a, fst (handler e w') = Ok a) ->
  exists a, fst (try_except body (fun _ => true) handler w) = Ok a.
Proof.
  intros Hhandler. unfold try_except.
  destruct (body w) as [[a | e] w']; [now exists a | apply Hhandler].
Qed.

(** [clean_document] raises nothing, keeps the clock, and returns
    [document] at the reading of the clock. *)
Lemma clean_document_run lib soup original_url w :
  exists records,
    clean_document lib soup original_url w
    = (Ok (document lib soup original_url (now w)),
       {| now := now w; stdout := stdout w ++ records |}).
Proof.
  unfold clean_document, document.
  cbv beta iota zeta delta [bind logged emit ret datetime_now now stdout].
  eexists. rewrite <- !app_assoc. reflexivity.
Qed.

Lemma clean_html_content_run lib html_content original_url w :
  fst (clean_html_content lib html_content original_url w) =
  match BeautifulSoup lib html_content with
  | Raised _ => Ok None
  | Ok soup =>
      match prettify lib (document lib soup original_url (now w)) with
      | Raised _ => Ok None
      | Ok cleaned_html =>
          match fromstring lib cleaned_html with
          | Ok _ => Ok (Some cleaned_html)
          | Raised e =>
              if is_structure_error e then Ok (Some cleaned_html) else Ok None
          end
      end
  end.
Proof.
  unfold clean_html_content.
  cbv beta iota zeta delta [bind emit ret call try_except].
  destruct (BeautifulSoup lib html_content) as [soup | e]; [|reflexivity].
  match goal with
  | |- context [clean_document lib soup original_url ?w0] =>
      destruct (clean_document_run lib soup original_url w0) as [records ->]
  end.
  cbv beta iota zeta delta [now].
  destruct (prettify lib _) as [cleaned_html | e]; [|reflexivity].
  destruct (fromstring lib cleaned_html) as [[] | e]; [reflexivity|].
  destruct (is_structure_error e); reflexivity.
Qed.

(** A text that is returned is the serialization of the document built
    from the parsed soup at the reading of the clock. *)
Lemma clean_html_content_Some lib html_content original_url w cleaned_html :
  fst (clean_html_content lib html_content original_url w)
  = Ok (Some cleaned_html) ->
  exists soup,
    BeautifulSoup lib html_content = Ok soup
    /\ prettify lib (document lib soup original_url (now w)) = Ok cleaned_html.
Proof.
  rewrite clean_html_content_run.
  destruct (BeautifulSoup lib html_content) as [soup | e]; [|discriminate].
  destruct (prettify lib _) as [text | e] eqn:Hp; [|discriminate].
  intros H. exists soup. split; [reflexivity|].
  destruct (fromstring lib text) as [[] | e].
  - now injection H as ->.
  - destruct (is_structure_error e); [now injection H as -> | discriminate].
Qed.

Lemma allow_listed_name name attrs :
  allow_listed name attrs = true -> In (PyStr.lower name) LLM_OPTIMIZED_TAGS.
Proof.
  unfold allow_listed. intros H. apply andb_prop in H.
  now apply mem_In.
Qed.

Lemma assembled_no_noise_tag name attrs :
  assembled name attrs ->
  PyStr.mem (PyStr.lower name) BOILERPLATE_TAGS = false.
Proof.
  intros [H | [[-> _] | [[-> _] | [-> _]]]]; try reflexivity.
  apply allow_listed_name in H. unfold LLM_OPTIMIZED_TAGS in H.
  repeat (destruct H as [H | H]; [now rewrite <- H|]).
  destruct H.
Qed.

(** C1, amended.  Allow-list closure.  Whenever [clean_html_content]
    returns a text, the text is the serialization of a document in which
    every element is of one of four kinds: its tag is allow-listed and
    each of its attributes is in the allow-list of the tag; or it is the
    [meta charset] of the skeleton; or it is the [section] of the metadata
    injector with its [role] and [aria-label]; or it is the attribute-less
    [div] wrapper of an unwrapped tag. *)
Theorem allow_list_closure (lib : Library) (html_content original_url : string)
  (w : World) (cleaned_html : string) :
  fst (clean_html_content lib html_content original_url w)
  = Ok (Some cleaned_html) ->
  exists soup new_soup,
    BeautifulSoup lib html_content = Ok soup
    /\ fst (clean_document lib soup original_url w) = Ok new_soup
    /\ prettify lib new_soup = Ok cleaned_html
    /\ every_element assembled new_soup.
Proof.
  intros H. apply clean_html_content_Some in H.
  destruct H as [soup [Hparse Hpretty]].
  exists soup, (document lib soup original_url (now w)).
  destruct (clean_document_run lib soup original_url w) as [records Hrun].
  rewrite Hrun. repeat split; try assumption.
  apply document_assembled.
Qed.

(** C2, amended.  Boilerplate exclusion.  Whenever [clean_html_content]
    returns a text, it is the serialization of a document none of whose
    elements carries a tag of the classifier's noise-tag rule. *)
Theorem no_noise_tag_in_output (lib : Library)
  (html_content original_url : string) (w : World) (cleaned_html : string) :
  fst (clean_html_content lib html_content original_url w)
  = Ok (Some cleaned_html) ->
  exists soup new_soup,
    BeautifulSoup lib html_content = Ok soup
    /\ fst (clean_document lib soup original_url w) = Ok new_soup
    /\ prettify lib new_soup = Ok cleaned_html
    /\ every_element
         (fun name _ => PyStr.mem (PyStr.lower name) BOILERPLATE_TAGS = false)
         new_soup.
Proof.
  intros H. apply clean_html_content_Some in H.
  destruct H as [soup [Hparse Hpretty]].
  exists soup, (document lib soup original_url (now w)).
  destruct (clean_document_run lib soup original_url w) as [records Hrun].
  rewrite Hrun. repeat split; try assumption.
  pose proof (document_assembled lib soup original_url (now w)) as Hdoc.
  unfold every_element in *. revert Hdoc. apply Forall_impl.
  intros [s | name attrs contents]; simpl; [trivial|].
  apply assembled_no_noise_tag.
Qed.

(** C9, amended.  Determinism.  The result of [clean_html_content] is a
    function of the text, the URL and the reading of the clock: two runs
    on the same arguments in states with the same reading return the same
    result, whatever else the states hold. *)
Theorem deterministic_up_to_clock (lib : Library)
  (html_content original_url : string) (w1 w2 : World) :
  now w1 = now w2 ->
  fst (clean_html_content lib html_content original_url w1)
  = fst (clean_html_content lib html_content original_url w2).
Proof.
  intros H. rewrite !clean_html_content_run. now rewrite H.
Qed.

(** C10.  Failure containment.  [clean_html_content] never raises: every
    run ends with a value, a text or [None]; and a run in which the
    parser, the serializer or the validator raises anything but a
    structure error (which is logged and passed over) ends with [None]. *)
Theorem failure_containment (lib : Library)
  (html_content original_url : string) (w : World) :
  let result := fst (clean_html_content lib html_content original_url w) in
  (exists value : option string, result = Ok value)
  /\ (forall e, BeautifulSoup lib html_content = Raised e -> result = Ok None)
  /\ (forall soup e,
        BeautifulSoup lib html_content = Ok soup ->
        prettify lib (document lib soup original_url (now w)) = Raised e ->
        result = Ok None)
  /\ (forall soup cleaned_html e,
        BeautifulSoup lib html_content = Ok soup ->
        prettify lib (document lib soup original_url (now w))
        = Ok cleaned_html ->
        fromstring lib cleaned_html = Raised e ->
        result = if is_structure_error e then Ok (Some cleaned_html)
                 else Ok None).
Proof.
  intros result. unfold result.
  split; [|rewrite clean_html_content_run; split; [|split]].
  - unfold clean_html_content.
    match goal with
    | |- context [bind (emit ?r) ?k w] =>
        change (bind (emit r) k w)
          with (k tt {| now := now w; stdout := stdout w ++ r |})
    end.
    cbv beta. apply try_except_contains.
    intros e w'. eexists. reflexivity.
  - now intros e ->.
  - now intros soup e -> ->.
  - now intros soup text e -> -> ->.
Qed.

(** C1 on the text [hello]. *)
Lemma allow_list_closure_witness :
  let run :=
    fst (clean_html_content Stub.library "hello" Stub.url
           (Stub.world Stub.midnight)) in
  run = Ok (Some (Stub.text_of run))
  /\ exists soup new_soup,
       BeautifulSoup Stub.library "hello" = Ok soup
       /\ fst (clean_document Stub.library soup Stub.url
                 (Stub.world Stub.midnight)) = Ok new_soup
       /\ prettify Stub.library new_soup = Ok (Stub.text_of run)
       /\ every_element assembled new_soup.
Proof.
  intros run.
  assert (H : run = Ok (Some (Stub.text_of run))) by (vm_compute; reflexivity).
  split; [exact H|].
  exact (allow_list_closure Stub.library "hello" Stub.url
           (Stub.world Stub.midnight) (Stub.text_of run) H).
Defined.

Lemma every_element_check (P : string -> Attrs -> Prop)
  (p : string -> Attrs -> bool) soup :
  (forall name attrs, P name attrs -> p name attrs = true) ->
  every_element P soup ->
  forallb (fun t => match t with
                    | Tag name attrs _ => p name attrs
                    | NavigableString _ => true
                    end) (descendant_tags soup) = true.
Proof.
  intros Hp H. apply forallb_forall. intros t Ht.
  unfold every_element in H. rewrite Forall_forall in H.
  specialize (H t Ht). destruct t; simpl in *; auto.
Qed.

(** C1 as stated fails: the document returned for the text [hello] holds
    elements outside the allow-list (the section of the injector with its
    role and aria-label, the meta of the skeleton). *)
Lemma metadata_outside_allow_list :
  let new_soup := document Stub.library Stub.hello Stub.url Stub.midnight in
  BeautifulSoup Stub.library "hello" = Ok Stub.hello
  /\ fst (clean_document Stub.library Stub.hello Stub.url
            (Stub.world Stub.midnight)) = Ok new_soup
  /\ In (meta_section Stub.url Stub.midnight) (descendant_tags new_soup)
  /\ allow_list_get "section" ATTRIBUTE_ALLOW_LIST = []
  /\ In (Tag "meta" [("charset", AStr "utf-8")] []) (descendant_tags new_soup)
  /\ PyStr.mem "meta" LLM_OPTIMIZED_TAGS = false
  /\ ~ every_element (fun name attrs => allow_listed name attrs = true) new_soup.
Proof.
  intros new_soup. split; [reflexivity | split; [vm_compute; reflexivity |]].
  split; [vm_compute; do 5 right; left; reflexivity |].
  split; [reflexivity |].
  split; [vm_compute; do 2 right; left; reflexivity |].
  split; [reflexivity |].
  intros H. apply (every_element_check _ allow_listed) in H; [|auto].
  vm_compute in H. discriminate.
Qed.

(** C2 on the text [hello]. *)
Lemma no_noise_tag_in_output_witness :
  let run :=
    fst (clean_html_content Stub.library "hello" Stub.url
           (Stub.world Stub.midnight)) in
  run = Ok (Some (Stub.text_of run))
  /\ exists soup new_soup,
       BeautifulSoup Stub.library "hello" = Ok soup
       /\ fst (clean_document Stub.library soup Stub.url
                 (Stub.world Stub.midnight)) = Ok new_soup
       /\ prettify Stub.library new_soup = Ok (Stub.text_of run)
       /\ every_element
            (fun name _ => PyStr.mem (PyStr.lower name) BOILERPLATE_TAGS = false)
            new_soup.
Proof.
  intros run.
  assert (H : run = Ok (Some (Stub.text_of run))) by (vm_compute; reflexivity).
  split; [exact H|].
  exact (no_noise_tag_in_output Stub.library "hello" Stub.url
           (Stub.world Stub.midnight) (Stub.text_of run) H).
Defined.

(** C2 as stated fails: the document returned for [contact_page] holds
    nodes the classifier takes for boilerplate: the section of the
    injector (by its role), a rule (empty), the paragraph of links (link
    density) and the short passage (stock phrase). *)
Lemma boilerplate_in_output :
  let new_soup := document Stub.library contact_page Stub.url Stub.midnight in
  fst (clean_document Stub.library contact_page Stub.url
         (Stub.world Stub.midnight)) = Ok new_soup
  /\ Forall (fun node => In node (descendant_tags new_soup)
                         /\ is_likely_boilerplate node = true)
       [meta_section Stub.url Stub.midnight; Tag "hr" [] []; links; contact]
  /\ ~ (forall node, In node (descendant_tags new_soup) ->
                     is_likely_boilerplate node = false).
Proof.
  intros new_soup.
  assert (Hin : In (meta_section Stub.url Stub.midnight)
                   (descendant_tags new_soup)).
  { vm_compute. do 5 right. left. reflexivity. }
  split; [vm_compute; reflexivity | split].
  - repeat (apply Forall_cons; [split; [|vm_compute; reflexivity] |]);
      [exact Hin | | | | apply Forall_nil]; vm_compute.
    + do 11 right. left. reflexivity.
    + do 15 right. left. reflexivity.
    + do 13 right. left. reflexivity.
  - intros H. specialize (H _ Hin). vm_compute in H. discriminate.
Qed.

(** C9 at two states with the same reading of the clock and different
    log streams. *)
Lemma deterministic_up_to_clock_witness :
  let w1 := Stub.world Stub.midnight in
  let w2 := {| now := Stub.midnight; stdout := [info "earlier run"] |} in
  now w1 = now w2
  /\ fst (clean_html_content Stub.library "hello" Stub.url w1)
     = fst (clean_html_content Stub.library "hello" Stub.url w2).
Proof.
  intros w1 w2. split; [reflexivity|].
  exact (deterministic_up_to_clock Stub.library "hello" Stub.url w1 w2 eq_refl).
Defined.

(** C9 as stated fails: two runs on the same text and URL, one second
    apart, return different texts. *)
Lemma one_second_apart :
  fst (clean_html_content Stub.library "hello" Stub.url
         (Stub.world Stub.midnight))
  <> fst (clean_html_content Stub.library "hello" Stub.url
            (Stub.world Stub.one_second_later)).
Proof.
  intros H.
  apply (f_equal
           (fun r =>
              String.eqb (Stub.text_of r)
                (Stub.text_of
                   (fst (clean_html_content Stub.library "hello" Stub.url
                           (Stub.world Stub.midnight)))))) in H.
  vm_compute in H. discriminate.
Qed.

(** ** The locator *)

(** C6.  The acceptance test of the selector phase is strict: an article
    of exactly 150 visible characters that is no boilerplate is passed
    over, and the locator falls back to the body, the paragraph beside
    the article included; with 151 characters the article is accepted. *)
Theorem selector_threshold_strict :
  String.length (get_text "" true (article 150)) = MIN_MAIN_CONTENT_LENGTH
  /\ is_likely_boilerplate (article 150) = false
  /\ select_one (ByType "article") (article_page 150) = Some (article 150)
  /\ try_selectors (article_page 150) selectors = None
  /\ (forall lib,
        fst (extract_main_content lib (article_page 150))
        = Tag "body" [] [article 150; beside])
  /\ (forall lib,
        fst (extract_main_content lib (article_page 151)) = article 151).
Proof. repeat split; intros; vm_compute; reflexivity. Qed.

Lemma review_existing_removed lib container score existing :
  forall children_to_remove child,
    In child (snd (review_existing lib container score existing
                     children_to_remove)) ->
    In child children_to_remove \/
    (tag_find lib container child = true /\
     exists s, In (child, s) existing /\ Qltb score (float_mul s ratio) = false).
Proof.
  induction existing as [|[existing_candidate existing_score] rest IH];
    intros children_to_remove child; simpl; [now left|].
  destruct (tag_find lib container existing_candidate) eqn:Hw.
  - destruct (Qltb score (float_mul existing_score ratio)) eqn:Hs; [now left|].
    intros H. destruct (IH _ _ H) as [Hin | [Hw' [s [Hin Hs']]]].
    + apply in_app_or in Hin. destruct Hin as [Hin | [<- | []]];
        [now left | right].
      split; [assumption|]. exists existing_score. split; [now left | assumption].
    + right. split; [assumption|]. exists s. split; [now right | assumption].
  - assert (Hrest :
      In child (snd (review_existing lib container score rest
                       children_to_remove)) ->
      In child children_to_remove \/
      (tag_find lib container child = true /\
       exists s,
         ((existing_candidate, existing_score) = (child, s) \/ In (child, s) rest)
         /\ Qltb score (float_mul s ratio) = false)).
    { intros H. destruct (IH _ _ H) as [Hin | [Hw' [s [Hin Hs']]]];
        [now left | right].
      split; [assumption|]. exists s. split; [now right | assumption]. }
    destruct (tag_find lib existing_candidate container); [|exact Hrest].
    destruct (Qgtb existing_score (float_mul score ratio)); [now left | exact Hrest].
Qed.

(** Where [find] finds no candidate below the container and none above
    it, the loop over the existing candidates changes nothing. *)
Lemma review_existing_unrelated lib container score existing :
  (forall c s, In (c, s) existing ->
               tag_find lib container c = false) ->
  (forall c s, In (c, s) existing ->
               tag_find lib c container = true ->
               Qgtb s (float_mul score ratio) = false) ->
  forall children_to_remove,
    review_existing lib container score existing children_to_remove
    = (true, children_to_remove).
Proof.
  induction existing as [|[c s] rest IH]; intros Hbelow Habove acc; simpl;
    [reflexivity|].
  rewrite (Hbelow c s) by now left.
  destruct (tag_find lib c container) eqn:Hf.
  - rewrite (Habove c s) by (now left || assumption).
    apply IH; intros; eauto using in_cons.
  - apply IH; intros; eauto using in_cons.
Qed.

Lemma nested_in_better_true candidates parents score parent s :
  In parent parents ->
  candidates_get parent candidates = Some s ->
  Qgtb s (float_mul score ratio) = true ->
  nested_in_better candidates parents score = true.
Proof.
  intros Hin Hget Hs. unfold nested_in_better. apply existsb_exists.
  exists parent. split; [assumption|]. now rewrite Hget.
Qed.

Lemma max_item_first best items :
  (forall item, In item items -> Qgtb (snd item) (snd best) = false) ->
  max_item best items = best.
Proof.
  induction items as [|item rest IH]; intros H; simpl; [reflexivity|].
  rewrite (H item) by now left.
  apply IH. intros item' Hin. apply H. now right.
Qed.

(** What the loop over the retained candidates comes to: the container
    is added exactly when no candidate stands against it, and then the
    candidates removed are those [find] finds below it. *)
Lemma review_existing_verdict lib container score existing :
  forall children_to_remove,
    fst (review_existing lib container score existing children_to_remove)
    = negb (existsb (stands_against lib container score) existing)
    /\ (existsb (stands_against lib container score) existing = false ->
        snd (review_existing lib container score existing children_to_remove)
        = children_to_remove ++ found_below lib container existing).
Proof.
  unfold found_below.
  induction existing as [|[c s] rest IH]; intros acc; cbn [review_existing].
  - split; [reflexivity | intros _; cbn; now rewrite app_nil_r].
  - cbn [existsb filter map]. unfold stands_against at 1 3. cbn [fst snd].
    destruct (tag_find lib container c) eqn:Hbelow.
    + destruct (Qltb score (float_mul s ratio)); [split; [reflexivity | discriminate]|].
      cbn [orb]. destruct (IH (acc ++ [c])) as [H1 H2]. split; [exact H1|].
      intros H. rewrite (H2 H). cbn [map fst]. now rewrite <- app_assoc.
    + destruct (tag_find lib c container); cbn [andb].
      * destruct (Qgtb s (float_mul score ratio));
          [split; [reflexivity | discriminate]|].
        cbn [orb]. apply IH.
      * cbn [orb]. apply IH.
Qed.

(** C7, amended.  Candidate pruning.  A container is left out of the
    table when a parent of it is a retained candidate whose score is more
    than 1.1 times its own.  A container that is neither boilerplate nor
    too short, none of whose retained parents is better by that ratio,
    is left out exactly when a retained candidate stands against it: one
    that [find] finds below it and whose score times 1.1 is more than its
    own, or one that [find] finds it below and whose score is more than
    1.1 times its own; otherwise it is added, the candidates [find]
    finds below it are removed, and every other candidate stays.  So
    where [find] finds no retained candidate below it and none above it
    is better by the ratio, it is added and nothing is removed: an
    ancestor and its descendant are then both retained.  The candidates
    removed are retained candidates [find] finds below the container
    whose scores it reaches by the ratio, and no others.  The winner is
    an item of the greatest score and, among equals, the one encountered
    first.  The scores and their products with 1.1 are doubles. *)
Theorem candidate_pruning (lib : Library) (candidates : Candidates)
  (container : Node) (parents : list Node) :
  let score := density_score container in
  (forall parent s,
     In parent parents ->
     candidates_get parent candidates = Some s ->
     Qgtb s (float_mul score ratio) = true ->
     consider lib candidates (container, parents) = candidates)
  /\ (is_likely_boilerplate container = false ->
      MIN_CANDIDATE_TEXT_LENGTH <= String.length (get_text "" true container) ->
      nested_in_better candidates parents score = false ->
      consider lib candidates (container, parents)
      = if existsb (stands_against lib container score) candidates
        then candidates
        else candidates_set container score
               (fold_left (fun d child => candidates_del child d)
                          (found_below lib container candidates) candidates))
  /\ (is_likely_boilerplate container = false ->
      MIN_CANDIDATE_TEXT_LENGTH <= String.length (get_text "" true container) ->
      nested_in_better candidates parents score = false ->
      (forall c s, In (c, s) candidates -> tag_find lib container c = false) ->
      (forall c s, In (c, s) candidates -> tag_find lib c container = true ->
                   Qgtb s (float_mul score ratio) = false) ->
      consider lib candidates (container, parents)
      = candidates_set container score candidates)
  /\ (forall child,
        In child (snd (review_existing lib container score candidates [])) ->
        tag_find lib container child = true /\
        exists s, In (child, s) candidates
                  /\ Qltb score (float_mul s ratio) = false)
  /\ (forall best items,
        (forall item, In item items -> Qgtb (snd item) (snd best) = false) ->
        max_item best items = best).
Proof.
  intros score. split; [|split; [|split; [|split]]].
  - intros parent s Hin Hget Hs. unfold consider.
    destruct (is_likely_boilerplate container); [reflexivity|].
    destruct (_ <? _); [reflexivity|].
    fold score.
    now rewrite (nested_in_better_true _ _ _ _ _ Hin Hget Hs).
  - intros Hb Hlen Hnested. unfold consider.
    rewrite Hb. apply Nat.ltb_ge in Hlen. rewrite Hlen.
    fold score. rewrite Hnested.
    destruct (review_existing_verdict lib container score candidates [])
      as [Hadd Hremoved].
    destruct (review_existing lib container score candidates [])
      as [should_add children_to_remove].
    cbn [fst snd] in Hadd, Hremoved. subst should_add.
    destruct (existsb (stands_against lib container score) candidates);
      cbn [negb]; [reflexivity|].
    now rewrite (Hremoved eq_refl).
  - intros Hb Hlen Hnested Hbelow Habove. unfold consider.
    rewrite Hb. apply Nat.ltb_ge in Hlen. rewrite Hlen.
    fold score. rewrite Hnested.
    now rewrite (review_existing_unrelated _ _ _ _ Hbelow Habove).
  - intros child H.
    destruct (review_existing_removed _ _ _ _ _ _ H) as [[] | H']. exact H'.
  - apply max_item_first.
Qed.

(** C7 as stated fails: of two nested divs with the same text, scanned in
    document order, both are retained, neither exceeding the other by the
    ratio; this is so whether [find] is read as the comments read it or
    finds nothing. *)
Lemma nested_candidates_both_retained :
  density_candidates Stub.library (page [outer_div])
  = [(outer_div, 100 # 1); (inner_div, 100 # 1)]
  /\ density_candidates Stub.library_find_nothing (page [outer_div])
     = [(outer_div, 100 # 1); (inner_div, 100 # 1)]
  /\ wraps outer_div inner_div = true.
Proof. repeat split; vm_compute; reflexivity. Qed.

(** The rounding decides at the ratio: beside a div of 100 letters, a
    section of score 110 that holds an equal div is left out where [find]
    is read as the comments read it, 110 being less than the double
    100 * 1.1; the div is the content root. *)
Example tie_at_the_ratio :
  let div := Tag "div" [] [NavigableString (letters 100)] in
  let section := Tag "section" [] [div; NavigableString (letters 10)] in
  density_candidates Stub.library (page [div; section]) = [(div, 100 # 1)]
  /\ fst (extract_main_content Stub.library (page [div; section])) = div.
Proof. split; vm_compute; reflexivity. Qed.

(** ** Whitespace normalization *)

(** C8.  The exemption of the whitespace pass looks at the parent of a
    text only: a text directly below [pre] is left as it is, a text below
    a [b] below that [pre] is collapsed and trimmed like any other.  The
    transformer rebuilds [<pre>a   b<b>x   y</b></pre>] as it stands, and
    the pass turns its [x   y] into [x y]. *)
Theorem preformatted_exemption_is_shallow (direct nested : string) :
  (forall lib original_url,
     fst (clean_element_recursively lib original_url DEFAULT_MAX_DEPTH
            (Tag "pre" []
               [NavigableString "a   b"; Tag "b" [] [NavigableString "x   y"]])
            0)
     = Some (Tag "pre" []
               [NavigableString "a   b"; Tag "b" [] [NavigableString "x   y"]]))
  /\ normalize_whitespace (preformatted direct nested)
  = Tag "[document]" []
      [Tag "pre" []
         [NavigableString direct;
          Tag "b" []
            (let stripped_text :=
               PyStr.strip (PyStr.collapse_whitespace nested) in
             if PyStr.truthy stripped_text
             then [NavigableString stripped_text] else [])]]
  /\ normalize_whitespace (preformatted "a   b" "x   y")
     = preformatted "a   b" "x y".
Proof.
  split; [intros; vm_compute; reflexivity | split; [|vm_compute; reflexivity]].
  unfold preformatted. simpl.
  now destruct (PyStr.truthy _).
Qed.

(** ** The loop that removes empty tags comes to its end *)

Section RemoveEmpty.

Variable doomed : Node -> bool.

Local Abbreviation tags l := (length (flat_map descendants_or_self l)).

Local Abbreviation kept :=
  (fun child : Node =>
     if is_tag child && doomed child then []
     else [remove_tags doomed child]).

Lemma tags_cons n l : tags (n :: l) = length (descendants_or_self n) + tags l.
Proof. simpl. now rewrite length_app. Qed.

Lemma tags_kept_le contents :
  Forall (fun c => length (descendants_or_self (remove_tags doomed c))
                   <= length (descendants_or_self c)) contents ->
  tags (flat_map kept contents) <= tags contents.
Proof.
  induction 1 as [|c r Hc _ IH]; [reflexivity|].
  rewrite tags_cons. cbn [flat_map].
  destruct (is_tag c && doomed c); cbn [app].
  - lia.
  - rewrite tags_cons. lia.
Qed.

Lemma remove_tags_le n :
  length (descendants_or_self (remove_tags doomed n))
  <= length (descendants_or_self n).
Proof.
  induction n as [s | name attrs contents IH] using Node_ind_nested;
    [reflexivity|].
  cbn [remove_tags descendants_or_self length].
  apply le_n_S. now apply tags_kept_le.
Qed.

Lemma tags_kept_lt contents :
  Forall (fun c => existsb doomed (descendant_tags c) = true ->
                   length (descendants_or_self (remove_tags doomed c))
                   < length (descendants_or_self c)) contents ->
  existsb doomed (flat_map descendants_or_self contents) = true ->
  tags (flat_map kept contents) < tags contents.
Proof.
  induction 1 as [|c r Hc _ IH]; [discriminate|].
  rewrite tags_cons. cbn [flat_map]. rewrite existsb_app. intros Hex.
  assert (Hrest : tags (flat_map kept r) <= tags r).
  { apply tags_kept_le. apply Forall_forall. intros; apply remove_tags_le. }
  destruct c as [s | name attrs cs].
  - cbn [app descendants_or_self length existsb orb plus] in Hex |- *.
    apply IH. exact Hex.
  - cbn [is_tag andb].
    destruct (doomed (Tag name attrs cs)) eqn:Hd; cbn [app].
    + cbn [descendants_or_self length]. lia.
    + rewrite tags_cons.
      pose proof (remove_tags_le (Tag name attrs cs)) as Hle.
      cbn [descendants_or_self existsb] in Hex. rewrite Hd in Hex.
      cbn [orb] in Hex. apply orb_prop in Hex. destruct Hex as [Hex | Hex].
      * specialize (Hc Hex). lia.
      * specialize (IH Hex). lia.
Qed.

Lemma remove_tags_lt n :
  existsb doomed (descendant_tags n) = true ->
  length (descendants_or_self (remove_tags doomed n))
  < length (descendants_or_self n).
Proof.
  induction n as [s | name attrs contents IH] using Node_ind_nested;
    [discriminate|].
  intros Hex. cbn [remove_tags descendants_or_self length].
  apply (proj1 (Nat.succ_lt_mono _ _)). now apply tags_kept_lt.
Qed.

End RemoveEmpty.

Lemma remove_tags_fewer doomed soup :
  existsb doomed (descendant_tags soup) = true ->
  length (descendant_tags (remove_tags doomed soup))
  < length (descendant_tags soup).
Proof.
  intros Hex. pose proof (remove_tags_lt doomed soup Hex) as Hlt.
  destruct soup as [s | name attrs contents]; [discriminate|].
  cbn [remove_tags descendants_or_self length] in Hlt.
  unfold descendant_tags. cbn [remove_tags contents_of]. lia.
Qed.

Lemma filter_nil_existsb {A : Type} (p : A -> bool) l :
  (length (filter p l) =? 0) = negb (existsb p l).
Proof.
  induction l as [|x r IH]; [reflexivity|]. simpl.
  destruct (p x); [reflexivity | exact IH].
Qed.

(** With one more turn allowed than there are tags, the loop ends in a
    turn that removes nothing: no empty tag is left. *)
Lemma remove_empty_loop_settled fuel :
  forall soup,
    length (descendant_tags soup) < fuel ->
    existsb structurally_empty
      (descendant_tags (remove_empty_loop fuel soup)) = false.
Proof.
  induction fuel as [|fuel IH]; intros soup Hfuel; [lia|].
  cbn [remove_empty_loop]. rewrite filter_nil_existsb.
  destruct (existsb structurally_empty (descendant_tags soup)) eqn:Hex;
    cbn [negb]; [|exact Hex].
  apply IH. pose proof (remove_tags_fewer _ _ Hex). lia.
Qed.

Lemma remove_empty_tags_settled soup :
  existsb structurally_empty (descendant_tags (remove_empty_tags soup)) = false.
Proof. apply remove_empty_loop_settled. lia. Qed.

(** ** The scenarios of section 8 *)

(** Scenario 1: the navigation is dropped, the text of the article is
    kept. *)
Example scenario_navigation_dropped :
  document Stub.library
    (page [ Tag "nav" [] [NavigableString "Home"];
            Tag "article" []
              [ NavigableString "Real ";
                Tag "b" [] [NavigableString "content"];
                NavigableString " here." ] ])
    Stub.url Stub.midnight
  = new_soup (AStr "en") "Cleaned: Untitled Document"
      [ meta_section Stub.url Stub.midnight;
        Tag "h1" [] [NavigableString "Untitled Document"];
        Tag "article" []
          [ NavigableString "Real";
            Tag "b" [] [NavigableString "content"];
            NavigableString "here." ] ].
Proof. vm_compute. reflexivity. Qed.

(** Scenario 3: adjacent paragraphs without attributes are merged, a
    space between their texts. *)
Example scenario_paragraphs_merged :
  normalize_text_content
    (page [ Tag "p" [] [NavigableString "A"];
            Tag "p" [] [NavigableString "B"];
            Tag "p" [] [NavigableString "C"] ])
  = page [ Tag "p" []
             [ NavigableString "A"; NavigableString " "; NavigableString "B";
               NavigableString " "; NavigableString "C" ] ].
Proof. vm_compute. reflexivity. Qed.

(** Scenario 4: a path is resolved against the page. *)
Example scenario_href_resolved :
  fst (clean_element_recursively Stub.library "https://e.com/y/"
         DEFAULT_MAX_DEPTH
         (Tag "a" [("href", AStr "/x")] [NavigableString "link"]) 0)
  = Some (Tag "a" [("href", AStr "https://e.com/x")] [NavigableString "link"]).
Proof. vm_compute. reflexivity. Qed.

(** A tag that is not allow-listed inside another one: the inner wrapper
    is appended to the outer wrapper as it is, and is left in the result
    when the caller moves the contents of the outer one over. *)
Example nested_unwrap_leaves_wrapper :
  fst (clean_element_recursively Stub.library Stub.url DEFAULT_MAX_DEPTH
         (Tag "p" []
            [Tag "span" [] [Tag "span" [] [NavigableString "text"]]]) 0)
  = Some (Tag "p" [] [Tag "div" [] [NavigableString "text"]]).
Proof. vm_compute. reflexivity. Qed.


Lemma lstrip_idempotent s : PyStr.lstrip (PyStr.lstrip s) = PyStr.lstrip s.
Proof.
  induction s as [|c r IH]; simpl; [reflexivity|].
  destruct (PyStr.isspace c) eqn:E; [exact IH|]. simpl. now rewrite E.
Qed.

Lemma rstrip_idempotent s : PyStr.rstrip (PyStr.rstrip s) = PyStr.rstrip s.
Proof.
  induction s as [|c r IH]; simpl; [reflexivity|].
  destruct (PyStr.rstrip r) as [|d r'] eqn:E.
  - destruct (PyStr.isspace c) eqn:Ec; simpl; [reflexivity|]. now rewrite Ec.
  - change (PyStr.rstrip (String c (String d r')) = String c (String d r')).
    simpl. simpl in IH. now rewrite IH.
Qed.

Lemma lstrip_starts_clean s : starts_clean (PyStr.lstrip s) = true.
Proof.
  induction s as [|c r IH]; simpl; [reflexivity|].
  destruct (PyStr.isspace c) eqn:E; [exact IH|]. simpl. now rewrite E.
Qed.

Lemma starts_clean_lstrip s : starts_clean s = true -> PyStr.lstrip s = s.
Proof.
  destruct s as [|c r]; simpl; [reflexivity|].
  now destruct (PyStr.isspace c).
Qed.

Lemma rstrip_starts_clean s :
  starts_clean s = true -> starts_clean (PyStr.rstrip s) = true.
Proof.
  destruct s as [|c r]; simpl; [reflexivity|].
  intros H. destruct (PyStr.rstrip r); [|exact H].
  destruct (PyStr.isspace c) eqn:E; [discriminate | simpl; now rewrite E].
Qed.

Lemma strip_idempotent s : PyStr.strip (PyStr.strip s) = PyStr.strip s.
Proof.
  unfold PyStr.strip.
  rewrite (starts_clean_lstrip (PyStr.rstrip (PyStr.lstrip s))).
  - apply rstrip_idempotent.
  - apply rstrip_starts_clean, lstrip_starts_clean.
Qed.

Lemma lstrip_blank s : PyStr.truthy (PyStr.lstrip s) = negb (blank s).
Proof.
  induction s as [|c r IH]; simpl; [reflexivity|].
  destruct (PyStr.isspace c); [exact IH | reflexivity].
Qed.

Lemma rstrip_blank s : PyStr.truthy (PyStr.rstrip s) = negb (blank s).
Proof.
  induction s as [|c r IH]; simpl; [reflexivity|].
  destruct (PyStr.rstrip r) as [|d r'] eqn:E; simpl in *.
  - destruct (PyStr.isspace c); simpl; [exact IH | reflexivity].
  - destruct (blank r); [discriminate | now rewrite andb_false_r].
Qed.

Lemma lstrip_keeps_blank s : blank (PyStr.lstrip s) = blank s.
Proof.
  induction s as [|c r IH]; simpl; [reflexivity|].
  destruct (PyStr.isspace c) eqn:E; simpl; [exact IH | now rewrite E].
Qed.

Lemma strip_blank s : PyStr.truthy (PyStr.strip s) = negb (blank s).
Proof. unfold PyStr.strip. now rewrite rstrip_blank, lstrip_keeps_blank. Qed.

Lemma ink_lstrip s : ink (PyStr.lstrip s) = ink s.
Proof.
  induction s as [|c r IH]; simpl; [reflexivity|].
  destruct (PyStr.isspace c) eqn:E; [exact IH|]. simpl. now rewrite E.
Qed.

Lemma ink_rstrip s : ink (PyStr.rstrip s) = ink s.
Proof.
  induction s as [|c r IH]; simpl; [reflexivity|].
  destruct (PyStr.rstrip r) as [|d r'] eqn:E.
  - simpl in IH. destruct (PyStr.isspace c) eqn:Ec; simpl; [exact IH|].
    rewrite Ec. now rewrite <- IH.
  - change (ink (String c (String d r'))) with
      (if PyStr.isspace c then ink (String d r') else c :: ink (String d r')).
    now rewrite IH.
Qed.

Lemma ink_strip s : ink (PyStr.strip s) = ink s.
Proof. unfold PyStr.strip. now rewrite ink_rstrip, ink_lstrip. Qed.

Lemma ink_collapse b s : ink (PyStr.collapse_from b s) = ink s.
Proof.
  revert b. induction s as [|c r IH]; intros b; simpl; [reflexivity|].
  destruct (PyStr.isspace c) eqn:E.
  - destruct b; [apply IH|].
    change (ink (String " " (PyStr.collapse_from true r))) with
      (ink (PyStr.collapse_from true r)). apply IH.
  - simpl. rewrite E. now rewrite IH.
Qed.

Lemma blank_ink s : blank s = true <-> ink s = [].
Proof.
  induction s as [|c r IH]; simpl; [tauto|].
  destruct (PyStr.isspace c); simpl; [exact IH|]. split; discriminate.
Qed.

Lemma collapse_idempotent b s :
  PyStr.collapse_from b (PyStr.collapse_from b s) = PyStr.collapse_from b s.
Proof.
  revert b. induction s as [|c r IH]; intros b; simpl; [reflexivity|].
  destruct (PyStr.isspace c) eqn:E.
  - destruct b; [apply IH|].
    change (PyStr.collapse_from false (String " " (PyStr.collapse_from true r)))
      with (String " " (PyStr.collapse_from true (PyStr.collapse_from true r))).
    now rewrite IH.
  - simpl. rewrite E. now rewrite IH.
Qed.

Lemma collapse_length b s :
  String.length (PyStr.collapse_from b s) <= String.length s.
Proof.
  revert b. induction s as [|c r IH]; intros b; simpl; [lia|].
  destruct (PyStr.isspace c); [destruct b|]; simpl;
    try (specialize (IH true); lia); specialize (IH false); lia.
Qed.

(** Collapsing a string that is collapsed already changes nothing; such
    a string stays collapsed when whitespace is stripped from its ends. *)
Lemma collapsed_after_run s :
  PyStr.collapse_from true s = s -> PyStr.collapse_from false s = s.
Proof.
  destruct s as [|c r]; simpl; [reflexivity|].
  destruct (PyStr.isspace c); [|trivial].
  intros H. pose proof (collapse_length true r) as Hl.
  rewrite H in Hl. simpl in Hl. lia.
Qed.

Lemma collapsed_lstrip s :
  PyStr.collapse_from false s = s -> PyStr.collapse_from false (PyStr.lstrip s) = PyStr.lstrip s.
Proof.
  destruct s as [|c r]; simpl; [reflexivity|].
  destruct (PyStr.isspace c) eqn:E.
  - intros [= _ H].
    assert (Hr : PyStr.lstrip r = r).
    { destruct r as [|d r']; simpl in *; [reflexivity|].
      destruct (PyStr.isspace d); [|reflexivity].
      pose proof (collapse_length true r') as Hl.
      rewrite H in Hl. simpl in Hl. lia. }
    rewrite Hr. now apply collapsed_after_run.
  - intros H. simpl. now rewrite E.
Qed.

Lemma collapsed_rstrip s :
  forall b, PyStr.collapse_from b s = s -> PyStr.collapse_from b (PyStr.rstrip s) = PyStr.rstrip s.
Proof.
  induction s as [|c r IH]; intros b; simpl; [reflexivity|].
  destruct (PyStr.isspace c) eqn:E.
  - destruct b.
    + intros H. pose proof (collapse_length true r) as Hl.
      rewrite H in Hl. simpl in Hl. lia.
    + intros [= Hc H]. specialize (IH true H).
      destruct (PyStr.rstrip r) as [|d r'] eqn:Er; [reflexivity|].
      change (PyStr.collapse_from false (String c (String d r')))
        with (if PyStr.isspace c
              then String " " (PyStr.collapse_from true (String d r'))
              else String c (PyStr.collapse_from false (String d r'))).
      rewrite E, IH. now rewrite <- Hc.
  - intros [= H]. specialize (IH false H).
    destruct (PyStr.rstrip r) as [|d r'] eqn:Er.
    + simpl. now rewrite E.
    + change (PyStr.collapse_from b (String c (String d r')))
        with (if PyStr.isspace c
              then if b then PyStr.collapse_from true (String d r')
                   else String " " (PyStr.collapse_from true (String d r'))
              else String c (PyStr.collapse_from false (String d r'))).
      now rewrite E, IH.
Qed.

Lemma normalized_collapsed s :
  PyStr.collapse_whitespace (normalized s) = normalized s.
Proof.
  unfold normalized, PyStr.strip, PyStr.collapse_whitespace.
  apply collapsed_rstrip, collapsed_lstrip, collapse_idempotent.
Qed.

Lemma normalized_idempotent s : normalized (normalized s) = normalized s.
Proof.
  unfold normalized at 1. rewrite normalized_collapsed.
  unfold normalized. apply strip_idempotent.
Qed.

Lemma ink_normalized s : ink (normalized s) = ink s.
Proof.
  unfold normalized, PyStr.collapse_whitespace. now rewrite ink_strip, ink_collapse.
Qed.

Lemma text_ink_tag name attrs contents :
  text_ink (Tag name attrs contents) = flat_map text_ink contents.
Proof.
  unfold text_ink. simpl. induction contents as [|c r IH]; [reflexivity|].
  simpl. now rewrite flat_map_app, IH.
Qed.

Lemma normalize_strings_ink n :
  forall parent_name,
    flat_map text_ink (normalize_strings parent_name n) = text_ink n.
Proof.
  induction n as [s | name attrs contents IH] using Node_ind_nested;
    intros parent_name; cbn [normalize_strings].
  - destruct (negb _); [|cbn [flat_map]; now rewrite app_nil_r].
    fold (normalized s).
    destruct (PyStr.truthy (normalized s)) eqn:E; cbn [flat_map].
    + unfold text_ink. cbn [all_strings flat_map].
      now rewrite !app_nil_r, ink_normalized.
    + unfold text_ink. cbn [all_strings flat_map]. rewrite app_nil_r.
      symmetry. apply blank_ink.
      unfold normalized in E. rewrite strip_blank in E.
      apply negb_false_iff in E. apply blank_ink in E.
      unfold PyStr.collapse_whitespace in E. rewrite ink_collapse in E.
      now apply blank_ink.
  - cbn [flat_map]. rewrite app_nil_r, !text_ink_tag.
    induction IH as [|c r Hc _ IHr]; [reflexivity|].
    cbn [flat_map]. now rewrite flat_map_app, Hc, IHr.
Qed.

Lemma normalize_strings_idempotent n :
  forall parent_name,
    flat_map (normalize_strings parent_name) (normalize_strings parent_name n)
    = normalize_strings parent_name n.
Proof.
  induction n as [s | name attrs contents IH] using Node_ind_nested;
    intros parent_name.
  - cbn [normalize_strings].
    destruct (negb (PyStr.mem parent_name VERBATIM_PARENTS)) eqn:Ev.
    + fold (normalized s).
      destruct (PyStr.truthy (normalized s)) eqn:E; [|reflexivity].
      cbn [flat_map normalize_strings]. rewrite Ev. fold (normalized (normalized s)).
      now rewrite normalized_idempotent, E.
    + cbn [flat_map normalize_strings]. now rewrite Ev.
  - cbn [normalize_strings flat_map]. rewrite app_nil_r. do 2 f_equal.
    induction IH as [|c r Hc _ IHr]; [reflexivity|].
    cbn [flat_map]. now rewrite flat_map_app, Hc, IHr.
Qed.

(** X7. The whitespace pass of [normalize_text_content] changes nothing
    when it is run a second time, and it keeps the characters of the text
    that are not whitespace, in their order. *)
Theorem whitespace_pass_idempotent soup :
  normalize_whitespace (normalize_whitespace soup) = normalize_whitespace soup
  /\ text_ink (normalize_whitespace soup) = text_ink soup.
Proof.
  destruct soup as [s | name attrs contents]; [split; reflexivity|].
  split.
  - cbn [normalize_whitespace]. f_equal.
    induction contents as [|c r IH]; [reflexivity|].
    cbn [flat_map]. now rewrite flat_map_app, normalize_strings_idempotent, IH.
  - cbn [normalize_whitespace]. rewrite !text_ink_tag.
    induction contents as [|c r IH]; [reflexivity|].
    cbn [flat_map]. now rewrite flat_map_app, normalize_strings_ink, IH.
Qed.

Section TextKept.

Variable lib : Library.
Variable original_url : string.
Variable max_depth : nat.

Local Abbreviation clean :=
  (clean_element_recursively lib original_url max_depth).

Lemma all_strings_stripped s :
  all_strings true (NavigableString (PyStr.strip s))
  = all_strings true (NavigableString s).
Proof. cbn [all_strings]. now rewrite strip_idempotent. Qed.

Lemma splice_strings c :
  flat_map (all_strings true) (splice c) = all_strings true c.
Proof.
  unfold splice. destruct (is_fragment c) eqn:E.
  - destruct c; [discriminate | reflexivity].
  - cbn [flat_map]. apply app_nil_r.
Qed.

Lemma splice_all_strings cleaned :
  flat_map (all_strings true) (flat_map splice cleaned)
  = flat_map (all_strings true) cleaned.
Proof.
  induction cleaned as [|c r IH]; [reflexivity|].
  cbn [flat_map]. now rewrite flat_map_app, splice_strings, IH.
Qed.

Lemma clean_each_strings (f : Node -> Logged (option Node)) children :
  Forall (fun child => texts (fst (f child)) = all_strings true child) children ->
  flat_map (all_strings true) (fst (clean_each f children))
  = flat_map (all_strings true) children.
Proof.
  induction 1 as [|child rest Hc _ IH]; [reflexivity|].
  cbn [clean_each flat_map].
  destruct (f child) as [[c|] w]; destruct (clean_each f rest) as [cs ws];
    cbn [fst texts flat_map] in *; now rewrite <- Hc, IH.
Qed.

Lemma nesting_child name attrs contents child :
  In child contents -> S (nesting child) <= nesting (Tag name attrs contents).
Proof.
  cbn [nesting]. induction contents as [|c r IH]; [intros []|].
  cbn [fold_right]. intros [<- | H]; [lia|]. specialize (IH H). lia.
Qed.

(** X3. The transformer keeps the text.  When the nesting below an
    element stays within the depth bound, the strings of what
    [clean_element_recursively] returns are the strings of the element,
    each stripped and the empty ones left out, in the same order;
    whatever tags are unwrapped or discarded, no text goes with them. *)
Theorem text_kept element :
  forall depth,
    depth + nesting element <= max_depth ->
    texts (fst (clean element depth)) = all_strings true element.
Proof.
  induction element as [s | name attrs contents IH] using Node_ind_nested;
    intros depth Hd.
  - rewrite clean_string by lia. cbn [fst].
    destruct (PyStr.truthy (PyStr.strip s)) eqn:E.
    + apply all_strings_stripped.
    + cbn [texts all_strings]. now rewrite E.
  - assert (Hkids :
      flat_map (all_strings true)
        (fst (clean_each (fun child => clean child (S depth)) contents))
      = flat_map (all_strings true) contents).
    { apply clean_each_strings. apply Forall_forall. intros child Hin.
      rewrite Forall_forall in IH. apply IH; [assumption|].
      pose proof (nesting_child name attrs contents child Hin). lia. }
    cbn [all_strings]. rewrite <- Hkids.
    destruct (PyStr.mem (PyStr.lower name) LLM_OPTIMIZED_TAGS) eqn:Hname.
    + assert (Hle : depth <= max_depth) by lia.
      rewrite (clean_allowed lib original_url max_depth name attrs contents
                 depth Hle Hname). cbv zeta.
      rewrite <- splice_all_strings.
      destruct (flat_map splice _) as [|c r]; cbn [is_nil andb];
        [destruct (negb _)|]; reflexivity.
    + assert (Hle : depth <= max_depth) by lia.
      rewrite (clean_disallowed lib original_url max_depth name attrs contents
                 depth Hle Hname).
      destruct (fst (clean_each _ contents)); reflexivity.
Qed.

Lemma clean_each_well_built (f : Node -> Logged (option Node)) children :
  Forall (fun child => forall r, fst (f child) = Some r -> well_built r = true)
         children ->
  forallb well_built (fst (clean_each f children)) = true.
Proof.
  intros H. apply forallb_forall. intros c Hc.
  destruct (clean_each_In _ _ _ Hc) as [child [Hin Hf]].
  rewrite Forall_forall in H. eauto.
Qed.

Lemma splice_well_built cleaned :
  forallb well_built cleaned = true ->
  forallb well_built (flat_map splice cleaned) = true.
Proof.
  induction cleaned as [|c r IH]; [reflexivity|].
  cbn [forallb flat_map]. intros H. apply andb_prop in H. destruct H as [Hc Hr].
  rewrite forallb_app, (IH Hr), andb_true_r.
  unfold splice. destruct (is_fragment c).
  - destruct c as [s | name attrs cs]; [reflexivity|].
    cbn [well_built] in Hc. apply andb_prop in Hc. apply Hc.
  - cbn [forallb]. now rewrite Hc.
Qed.

(** X4. What [clean_element_recursively] returns is well built: every
    string in it is stripped and not empty, and every tag in it has
    contents or is a br or an hr. *)
Theorem clean_well_built element :
  forall depth r,
    fst (clean element depth) = Some r -> well_built r = true.
Proof.
  induction element as [s | name attrs contents IH] using Node_ind_nested;
    intros depth r Hr;
    (destruct (Nat.le_gt_cases depth max_depth) as [Hd | Hd];
     [|rewrite clean_beyond_depth in Hr by assumption; discriminate]).
  - rewrite clean_string in Hr by assumption. cbn [fst] in Hr.
    destruct (PyStr.truthy (PyStr.strip s)) eqn:E; [|discriminate].
    injection Hr as <-. cbn [well_built].
    now rewrite E, strip_idempotent, String.eqb_refl.
  - assert (Hkids :
      forallb well_built
        (fst (clean_each (fun child => clean child (S depth)) contents)) = true).
    { apply clean_each_well_built. revert IH. apply Forall_impl.
      intros child Hchild r'. apply Hchild. }
    destruct (PyStr.mem (PyStr.lower name) LLM_OPTIMIZED_TAGS) eqn:Hname.
    + rewrite clean_allowed in Hr by assumption. cbv zeta in Hr.
      apply splice_well_built in Hkids.
      destruct (flat_map splice _) as [|c r'] eqn:E; cbn [is_nil andb] in Hr.
      * destruct (PyStr.mem (PyStr.lower name) ["br"; "hr"]) eqn:Hv;
          [|discriminate].
        cbn [negb] in Hr. injection Hr as <-. cbn [well_built is_nil negb orb].
        now rewrite Hv.
      * injection Hr as <-. cbn [well_built is_nil negb orb].
        exact Hkids.
    + rewrite clean_disallowed in Hr by assumption.
      destruct (fst (clean_each _ contents)) as [|c fragment] eqn:E;
        [discriminate|].
      injection Hr as <-. cbn [well_built is_nil negb orb]. exact Hkids.
Qed.

End TextKept.

Lemma text_kept_witness :
  texts (fst (clean_element_recursively Stub.library Stub.url 30
                (Tag "span" []
                   [ NavigableString " a ";
                     Tag "p" [] [NavigableString "b"; Tag "em" [] []] ]) 0))
  = ["a"; "b"].
Proof.
  apply (text_kept Stub.library Stub.url 30
           (Tag "span" []
              [ NavigableString " a ";
                Tag "p" [] [NavigableString "b"; Tag "em" [] []] ]) 0).
  vm_compute. lia.
Defined.

Lemma clean_well_built_witness :
  well_built (Tag "p" [] [NavigableString "b"; Tag "br" [] []]) = true.
Proof.
  apply (clean_well_built Stub.library Stub.url 30
           (Tag "p" [] [NavigableString " b "; Tag "em" [] []; Tag "br" [] []])
           0).
  reflexivity.
Defined.

(** ** Properties of the labels that hold throughout the pipeline *)

Section LabelInvariant.

Variable lib : Library.
Variable original_url : string.
Variable Q : string -> Attrs -> Prop.

Hypothesis Q_wrapper : Q "div" [].
Hypothesis Q_rebuilt :
  forall name attrs,
    PyStr.mem (PyStr.lower name) LLM_OPTIMIZED_TAGS = true ->
    Q name (fst (clean_attributes lib original_url (PyStr.lower name) attrs [])).

Lemma Q_plain name :
  PyStr.mem (PyStr.lower name) LLM_OPTIMIZED_TAGS = true -> Q name [].
Proof. intros H. apply (Q_rebuilt name [] H). Qed.

Lemma clean_all_tags max_depth element :
  forall depth r,
    fst (clean_element_recursively lib original_url max_depth element depth)
    = Some r ->
    all_tags Q r.
Proof.
  induction element as [s | name attrs contents IH] using Node_ind_nested;
    intros depth r Hr;
    (destruct (Nat.le_gt_cases depth max_depth) as [Hd | Hd];
     [|rewrite clean_beyond_depth in Hr by assumption; discriminate]).
  - rewrite clean_string in Hr by assumption. cbn [fst] in Hr.
    destruct (PyStr.truthy _); [|discriminate].
    injection Hr as <-. apply all_tags_string.
  - assert (Hkids :
      Forall (all_tags Q)
        (fst (clean_each
                (fun child =>
                   clean_element_recursively lib original_url max_depth child
                     (S depth)) contents))).
    { apply Forall_clean_each. revert IH. apply Forall_impl.
      intros child Hchild r'. apply Hchild. }
    destruct (PyStr.mem (PyStr.lower name) LLM_OPTIMIZED_TAGS) eqn:Hname.
    + rewrite clean_allowed in Hr by assumption. cbv zeta in Hr.
      destruct (_ && _); [discriminate|]. injection Hr as <-.
      apply all_tags_tag. split; [now apply Q_rebuilt|].
      apply all_tags_flat_map. revert Hkids. apply Forall_impl.
      intros c. apply splice_all_tags.
    + rewrite clean_disallowed in Hr by assumption.
      destruct (fst (clean_each _ contents)) as [|c fragment] eqn:E;
        [discriminate|].
      injection Hr as <-. apply all_tags_tag. split; assumption.
Qed.

Hypothesis Q_html : forall lang, Q "html" [("lang", lang)].
Hypothesis Q_meta : Q "meta" [("charset", AStr "utf-8")].
Hypothesis Q_section :
  Q "section" [("role", AStr "complementary");
               ("aria-label", AStr "Document Metadata")].
Hypothesis Q_source_link : Q "a" [("href", AStr original_url)].

Lemma meta_section_all_tags timestamp :
  all_tags Q (meta_section original_url timestamp).
Proof.
  unfold meta_section.
  repeat (first [ apply all_tags_string
                | apply all_tags_tag; split
                | apply Forall_cons
                | apply Forall_nil ]);
    first [ exact Q_section | exact Q_source_link
          | apply Q_plain; reflexivity ].
Qed.

Lemma build_clean_soup_all_below soup main_content_element original_title :
  all_below Q
    (fst (build_clean_soup lib soup main_content_element original_url
            original_title)).
Proof.
  unfold build_clean_soup.
  destruct (clean_each _ _) as [cleaned w] eqn:E.
  assert (Hcleaned : Forall (all_tags Q) cleaned).
  { replace cleaned with (fst (clean_each
      (fun element =>
         clean_element_recursively lib original_url DEFAULT_MAX_DEPTH element 0)
      (if named "body" main_content_element
       then contents_of main_content_element else [main_content_element])))
      by now rewrite E.
    apply Forall_clean_each. apply Forall_forall.
    intros child _ r. apply clean_all_tags. }
  assert (Hbody : Forall (all_tags Q) (flat_map splice cleaned)).
  { apply all_tags_flat_map. revert Hcleaned. apply Forall_impl.
    intros c Hc. now apply splice_all_tags. }
  assert (Hsoup : forall body,
             Forall (all_tags Q) body ->
             all_below Q (new_soup (lang_of soup)
                            ("Cleaned: " ++ original_title) body)).
  { intros body Hb. unfold new_soup, all_below. cbn [contents_of].
    repeat (first [ apply all_tags_string
                  | assumption
                  | apply all_tags_tag; split
                  | apply Forall_cons
                  | apply Forall_nil ]);
      first [ apply Q_html | exact Q_meta | apply Q_plain; reflexivity ]. }
  destruct (flat_map splice cleaned) as [|c body]; cbn [fst];
    apply normalize_text_content_all_below; apply Hsoup; [|assumption].
  apply Forall_cons; [|apply Forall_nil]. unfold placeholder.
  repeat (first [ apply all_tags_string
                | apply all_tags_tag; split
                | apply Forall_cons
                | apply Forall_nil ]);
    apply Q_plain; reflexivity.
Qed.

Lemma document_all_tags soup timestamp :
  every_element Q (document lib soup original_url timestamp).
Proof.
  apply every_element_all_below. unfold document.
  apply add_llm_metadata_all_below.
  - apply meta_section_all_tags.
  - apply Q_plain. reflexivity.
  - apply build_clean_soup_all_below.
Qed.

End LabelInvariant.

Lemma lower_not_anchor name :
  PyStr.mem name ["div"; "html"; "meta"; "section"] = true ->
  PyStr.lower name <> "a".
Proof.
  intros H. apply mem_In in H. cbn [In] in H.
  destruct H as [<- | [<- | [<- | [<- | []]]]]; vm_compute; discriminate.
Qed.

(** X5.  Href absoluteness.  [clean_document] always returns a document,
    and in it every attribute of every anchor is an href whose value is
    either the URL of the page, as the metadata section links it, or the
    value [urljoin] resolved, with the scheme http or https. *)
Theorem href_absolute_in_output (lib : Library) (soup : Node)
  (original_url : string) (w : World) :
  exists new_soup w',
    clean_document lib soup original_url w = (Ok new_soup, w')
    /\ every_element (href_absolute lib original_url) new_soup.
Proof.
  destruct (clean_document_run lib soup original_url w) as [records Hrun].
  eexists. eexists. split; [exact Hrun|].
  apply document_all_tags.
  - intros H. apply lower_not_anchor in H; [contradiction | reflexivity].
  - intros name attrs Hname Ha k v Hin. rewrite Ha in Hin.
    destruct (clean_attributes_In _ _ _ _ _ _ _ Hin) as [[] | [value [_ Hc]]].
    destruct (anchor_href_kept _ _ _ _ _ Hc) as [Hk Hr].
    destruct (resolve_href_Some _ _ _ _ Hr)
      as [absolute_href [scheme [_ [Hs [Hsch ->]]]]].
    split; [assumption | right]. exists absolute_href, scheme. auto.
  - intros lang H. apply lower_not_anchor in H; [contradiction | reflexivity].
  - intros H. apply lower_not_anchor in H; [contradiction | reflexivity].
  - intros H. apply lower_not_anchor in H; [contradiction | reflexivity].
  - intros _ k v [[= <- <-] | []]. split; [reflexivity | now left].
Qed.

Lemma class_allowed_on tag_name :
  PyStr.mem "class" (allow_list_get tag_name ATTRIBUTE_ALLOW_LIST) = true ->
  PyStr.mem tag_name ["pre"; "code"] = true.
Proof.
  unfold ATTRIBUTE_ALLOW_LIST. cbn [allow_list_get].
  repeat match goal with
         | |- context [String.eqb tag_name ?t] =>
             destruct (String.eqb_spec tag_name t) as [-> | _];
             [first [reflexivity | discriminate] |]
         end.
  discriminate.
Qed.

Lemma language_class_Some value v :
  language_class value = Some v ->
  exists lang_class,
    v = AList [lang_class] /\ is_language_class lang_class = true.
Proof.
  unfold language_class.
  destruct (List.find is_language_class _) as [lang_class|] eqn:E;
    [|discriminate].
  destruct (PyStr.truthy lang_class); [|discriminate].
  intros [= <-]. exists lang_class. split; [reflexivity|].
  now apply find_some in E.
Qed.

Lemma clean_attribute_class lib original_url tag_name attr value v :
  fst (clean_attribute lib original_url tag_name attr value) = Some v ->
  PyStr.lower attr = "class" ->
  PyStr.mem tag_name ["pre"; "code"] = true
  /\ exists lang_class,
       v = AList [lang_class] /\ is_language_class lang_class = true.
Proof.
  intros H Hk. pose proof (clean_attribute_allowed _ _ _ _ _ _ H) as Hal.
  rewrite Hk in Hal. apply class_allowed_on in Hal. split; [assumption|].
  revert H. unfold clean_attribute. rewrite Hk.
  destruct (PyStr.mem "class" _); [|discriminate].
  replace (String.eqb "class" "href") with false by reflexivity.
  rewrite andb_false_r, Hal. cbn [andb String.eqb Ascii.eqb Bool.eqb fst].
  destruct (language_class value) as [cv|] eqn:E; [|discriminate].
  destruct (attr_truthy cv); [|discriminate].
  intros [= <-]. now apply language_class_Some in E.
Qed.

(** X6.  Class policy.  [clean_document] always returns a document, and
    in it a class attribute is found on pre and code elements only, its
    value one token that begins, case folded, with [language-] or
    [lang-]. *)
Theorem class_is_language_in_output (lib : Library) (soup : Node)
  (original_url : string) (w : World) :
  exists new_soup w',
    clean_document lib soup original_url w = (Ok new_soup, w')
    /\ every_element class_is_language new_soup.
Proof.
  destruct (clean_document_run lib soup original_url w) as [records Hrun].
  eexists. eexists. split; [exact Hrun|].
  apply (document_all_tags lib original_url).
  - intros k v [].
  - intros name attrs Hname k v Hin Hk.
    destruct (clean_attributes_In _ _ _ _ _ _ _ Hin) as [[] | [value [_ Hc]]].
    apply (clean_attribute_class _ _ _ _ _ _ Hc Hk).
  - intros lang k v [[= <- <-] | []]. discriminate.
  - intros k v [[= <- <-] | []]. discriminate.
  - intros k v [[= <- <-] | [[= <- <-] | []]]; discriminate.
  - intros k v [[= <- <-] | []]. discriminate.
Qed.

(** ** What [strip_undesirables] leaves *)

Section Removal.

Variable doomed : Node -> bool.
Variable P : string -> Attrs -> Prop.

(** A tag that is not doomed has the property. *)
Hypothesis spared :
  forall name attrs contents,
    doomed (Tag name attrs contents) = false -> P name attrs.

Lemma remove_tags_clears n :
  doomed n = false -> all_tags P (remove_tags doomed n).
Proof.
  induction n as [s | name attrs contents IH] using Node_ind_nested;
    intros Hn; [apply all_tags_string|].
  cbn [remove_tags]. apply all_tags_tag. split; [eapply spared; eauto|].
  apply all_tags_flat_map. rewrite Forall_forall in *.
  intros c Hin. destruct c as [s | cname cattrs ccontents].
  - cbn [is_tag andb]. apply Forall_cons; [apply all_tags_string | apply Forall_nil].
  - cbn [is_tag andb]. destruct (doomed (Tag cname cattrs ccontents)) eqn:E;
      [apply Forall_nil|].
    apply Forall_cons; [|apply Forall_nil]. now apply IH.
Qed.

Lemma remove_tags_clears_below soup :
  all_below P (remove_tags doomed soup).
Proof.
  destruct soup as [s | name attrs contents]; [apply Forall_nil|].
  unfold all_below. cbn [remove_tags contents_of].
  apply all_tags_flat_map. apply Forall_forall.
  intros c _. destruct c as [s | cname cattrs ccontents].
  - cbn [is_tag andb]. apply Forall_cons; [apply all_tags_string | apply Forall_nil].
  - cbn [is_tag andb]. destruct (doomed (Tag cname cattrs ccontents)) eqn:E;
      [apply Forall_nil|].
    apply Forall_cons; [|apply Forall_nil]. now apply remove_tags_clears.
Qed.

End Removal.

Lemma all_below_and (P Q : string -> Attrs -> Prop) soup :
  all_below P soup -> all_below Q soup ->
  all_below (fun name attrs => P name attrs /\ Q name attrs) soup.
Proof.
  unfold all_below, all_tags. intros HP HQ.
  rewrite Forall_forall in *. intros c Hc.
  specialize (HP c Hc). specialize (HQ c Hc).
  rewrite Forall_forall in *. intros t Ht.
  specialize (HP t Ht). specialize (HQ t Ht).
  destruct t; cbn [label_ok] in *; auto.
Qed.

Lemma remove_named_all_below names :
  forall soup,
    all_below (fun name _ => ~ In name names)
      (fold_left (fun soup tag_name => remove_tags (named tag_name) soup)
                 (rev names) soup).
Proof.
  induction names as [|t names IH]; intros soup.
  - cbn [rev fold_left]. unfold all_below, all_tags.
    apply Forall_forall. intros c _. apply Forall_forall.
    intros [s | name attrs contents] _; cbn [label_ok]; auto.
  - cbn [rev]. rewrite fold_left_app. cbn [fold_left].
    pose proof (all_below_and
                  (fun name _ => name <> t) (fun name _ => ~ In name names)
                  (remove_tags (named t)
                     (fold_left
                        (fun soup tag_name => remove_tags (named tag_name) soup)
                        (rev names) soup))) as H.
    cbv beta in H.
    assert (H1 : all_below (fun name _ => name <> t)
                   (remove_tags (named t)
                      (fold_left
                         (fun soup tag_name =>
                            remove_tags (named tag_name) soup)
                         (rev names) soup))).
    { apply remove_tags_clears_below. intros name attrs contents.
      cbn [named]. intros E ->. now rewrite String.eqb_refl in E. }
    specialize (H H1 (remove_tags_all_below _ _ _ (IH soup))).
    unfold all_below, all_tags in *. rewrite Forall_forall in *.
    intros c Hc. specialize (H c Hc). rewrite Forall_forall in *.
    intros x Hx. specialize (H x Hx).
    destruct x as [s | name attrs contents]; cbn [label_ok] in *; [exact I|].
    intros [<- | Hin]; tauto.
Qed.

(** X1.  What [strip_undesirables] leaves.  In the soup it returns no
    element carries a tag of [NON_CONTENT_TAGS], none has the attribute
    [hidden], and none has a style holding [display: none],
    [display:none] or [visibility: hidden]. *)
Theorem strip_undesirables_leaves (soup : Node) :
  every_element desirable (strip_undesirables soup).
Proof.
  apply every_element_all_below. unfold strip_undesirables.
  set (s1 := remove_tags (has_attr "hidden") soup).
  set (s2 := remove_tags style_hides s1).
  set (s3 := remove_tags aria_hidden_without_text s2).
  assert (H1 : all_below (fun _ attrs => Dict.get "hidden" attrs = None) s1).
  { apply remove_tags_clears_below. intros name attrs contents.
    unfold has_attr. cbn [attrs_of].
    now destruct (Dict.get "hidden" attrs). }
  assert (H2 : all_below
                 (fun name attrs => style_hides (Tag name attrs []) = false) s2).
  { apply remove_tags_clears_below. intros name attrs contents H. exact H. }
  assert (H3 : all_below
                 (fun name attrs =>
                    Dict.get "hidden" attrs = None
                    /\ style_hides (Tag name attrs []) = false) s3).
  { apply remove_tags_all_below. apply all_below_and; [|assumption].
    now apply remove_tags_all_below. }
  assert (Hfold : forall names s,
             all_below
               (fun name attrs =>
                  Dict.get "hidden" attrs = None
                  /\ style_hides (Tag name attrs []) = false) s ->
             all_below
               (fun name attrs =>
                  Dict.get "hidden" attrs = None
                  /\ style_hides (Tag name attrs []) = false)
               (fold_left
                  (fun soup tag_name => remove_tags (named tag_name) soup)
                  names s)).
  { induction names as [|t names IH]; intros s Hs; [assumption|].
    cbn [fold_left]. apply IH. now apply remove_tags_all_below. }
  pose proof (remove_named_all_below (rev NON_CONTENT_TAGS) s3) as Hnames.
  rewrite rev_involutive in Hnames.
  pose proof (all_below_and _ _ _ Hnames (Hfold NON_CONTENT_TAGS s3 H3)) as H.
  unfold all_below, all_tags in *. rewrite Forall_forall in *.
  intros c Hc. specialize (H c Hc). rewrite Forall_forall in *.
  intros x Hx. specialize (H x Hx).
  destruct x as [s | name attrs contents]; cbn [label_ok] in *; [exact I|].
  unfold desirable. rewrite <- in_rev in H. tauto.
Qed.

(** ** The locator returns a node of the soup *)

Lemma list_eqb_eq {A : Type} (eqb : A -> A -> bool) :
  (forall x y, eqb x y = true -> x = y) ->
  forall l1 l2, list_eqb eqb l1 l2 = true -> l1 = l2.
Proof.
  intros Heq. induction l1 as [|x r IH]; intros [|y r']; cbn [list_eqb];
    try discriminate; [reflexivity|].
  intros H. apply andb_prop in H. destruct H as [Hx Hr].
  now rewrite (Heq _ _ Hx), (IH _ Hr).
Qed.

Lemma attr_value_eqb_eq a b : attr_value_eqb a b = true -> a = b.
Proof.
  destruct a as [x | x], b as [y | y]; cbn [attr_value_eqb];
    try discriminate; intros H.
  - now apply String.eqb_eq in H; subst.
  - apply list_eqb_eq in H; [now subst|].
    intros s t. apply String.eqb_eq.
Qed.

Lemma attrs_same_eq d1 d2 : attrs_same d1 d2 = true -> d1 = d2.
Proof.
  apply list_eqb_eq. intros [k1 v1] [k2 v2]. cbn [fst snd]. intros H.
  apply andb_prop in H. destruct H as [Hk Hv].
  apply String.eqb_eq in Hk. apply attr_value_eqb_eq in Hv. now subst.
Qed.

(** Equal dictionary keys are the same tree. *)
Lemma node_same_eq a : forall b, node_same a b = true -> a = b.
Proof.
  induction a as [s | name attrs contents IH] using Node_ind_nested;
    intros [t | name' attrs' contents']; cbn [node_same]; try discriminate.
  - intros H. apply String.eqb_eq in H. now subst.
  - intros H. apply andb_prop in H. destruct H as [H Hc].
    apply andb_prop in H. destruct H as [Hn Ha].
    apply String.eqb_eq in Hn. apply attrs_same_eq in Ha. subst. f_equal.
    revert contents' Hc. induction IH as [|c r Hhead _ IHr];
      intros [|c' r']; try discriminate; [reflexivity|].
    intros H. apply andb_prop in H. destruct H as [Hx Hr].
    now rewrite (Hhead _ Hx), (IHr _ Hr).
Qed.

Lemma with_parents_tags n :
  forall parents,
    map fst (with_parents parents n) = descendants_or_self n.
Proof.
  induction n as [s | name attrs contents IH] using Node_ind_nested;
    intros parents; [reflexivity|].
  cbn [with_parents descendants_or_self map fst]. f_equal.
  generalize (Tag name attrs contents :: parents) as above. intros above.
  induction IH as [|c r Hc _ IHr]; [reflexivity|].
  cbn [flat_map]. now rewrite map_app, Hc, IHr.
Qed.

Lemma containers_in_soup soup entry :
  In entry (containers soup) ->
  In (fst entry) (descendant_tags soup) /\ is_container (fst entry) = true.
Proof.
  unfold containers. intros H. apply filter_In in H. destruct H as [H Hc].
  split; [|assumption]. unfold descendant_tags.
  apply (in_map fst) in H.
  revert H. generalize (contents_of soup) as l.
  induction l as [|c r IH]; [intros []|].
  cbn [flat_map]. rewrite map_app, with_parents_tags. intros H.
  apply in_app_or in H. apply in_or_app. destruct H; [now left | right; auto].
Qed.

Lemma candidates_del_incl k d x : In x (candidates_del k d) -> In x d.
Proof.
  induction d as [|[k' v'] r IH]; cbn [candidates_del]; [intros []|].
  destruct (node_same k k'); [now right|].
  intros [<- | H]; [now left | right; auto].
Qed.

Lemma candidates_set_In k v d x s :
  In (x, s) (candidates_set k v d) -> (x = k /\ s = v) \/ In (x, s) d.
Proof.
  induction d as [|[k' v'] r IH]; cbn [candidates_set].
  - intros [[= <- <-] | []]. now left.
  - destruct (node_same k k') eqn:E.
    + apply node_same_eq in E. subst k'.
      intros [[= <- <-] | H]; [now left | right; now right].
    + intros [H | H]; [right; now left|].
      destruct (IH H) as [H' | H']; [now left | right; now right].
Qed.

Lemma fold_del_incl children d x :
  In x (fold_left (fun d child => candidates_del child d) children d) ->
  In x d.
Proof.
  revert d. induction children as [|c r IH]; intros d; [trivial|].
  cbn [fold_left]. intros H. apply IH in H.
  now apply candidates_del_incl in H.
Qed.

Section Candidates.

Variable lib : Library.
Variable P : Node -> Q -> Prop.

Lemma consider_all candidates container parents :
  candidates_all P candidates ->
  (is_likely_boilerplate container = false ->
   MIN_CANDIDATE_TEXT_LENGTH <= String.length (get_text "" true container) ->
   P container (density_score container)) ->
  candidates_all P (consider lib candidates (container, parents)).
Proof.
  intros Hall Hnew. unfold consider.
  destruct (is_likely_boilerplate container); [assumption|].
  destruct (_ <? _) eqn:Hlen; [assumption|].
  destruct (nested_in_better _ _ _); [assumption|].
  destruct (review_existing _ _ _ _ _) as [should_add children_to_remove].
  destruct should_add; [|assumption].
  intros k s Hin. apply candidates_set_In in Hin.
  destruct Hin as [[-> ->] | Hin].
  - apply Hnew; [reflexivity|]. now apply Nat.ltb_ge in Hlen.
  - apply Hall. now apply fold_del_incl in Hin.
Qed.

Lemma fold_consider_all entries :
  forall candidates,
    candidates_all P candidates ->
    (forall entry,
       In entry entries ->
       is_likely_boilerplate (fst entry) = false ->
       MIN_CANDIDATE_TEXT_LENGTH
         <= String.length (get_text "" true (fst entry)) ->
       P (fst entry) (density_score (fst entry))) ->
    candidates_all P (fold_left (consider lib) entries candidates).
Proof.
  induction entries as [|[container parents] rest IH]; intros candidates Hall Hnew;
    [assumption|].
  cbn [fold_left]. apply IH.
  - apply consider_all; [assumption|]. apply (Hnew (container, parents)).
    now left.
  - intros entry Hin. apply Hnew. now right.
Qed.

End Candidates.

(** Every retained candidate is a container of the soup that is no
    boilerplate, holds at least the minimum of text, and is kept with its
    density as its score. *)
Lemma density_candidates_sound lib soup k s :
  In (k, s) (density_candidates lib soup) ->
  In k (descendant_tags soup)
  /\ is_container k = true
  /\ is_likely_boilerplate k = false
  /\ MIN_CANDIDATE_TEXT_LENGTH <= String.length (get_text "" true k)
  /\ s = density_score k.
Proof.
  unfold density_candidates.
  apply (fold_consider_all lib
           (fun k s =>
              In k (descendant_tags soup)
              /\ is_container k = true
              /\ is_likely_boilerplate k = false
              /\ MIN_CANDIDATE_TEXT_LENGTH
                 <= String.length (get_text "" true k)
              /\ s = density_score k)).
  - intros k' s' [].
  - intros entry Hin Hb Hlen.
    destruct (containers_in_soup soup entry Hin) as [H1 H2]. auto.
Qed.

Lemma Qgtb_false a b : Qgtb a b = false -> (a <= b)%Q.
Proof.
  unfold Qgtb. intros H. apply negb_false_iff in H.
  now apply Qle_bool_iff.
Qed.

Lemma Qgtb_true a b : Qgtb a b = true -> (b <= a)%Q.
Proof.
  unfold Qgtb. intros H. apply negb_true_iff in H.
  apply Qlt_le_weak. apply Qnot_le_lt. intros Hle.
  apply Qle_bool_iff in Hle. congruence.
Qed.

(** [max] returns one of the items, and none has a greater score. *)
Lemma max_item_greatest items :
  forall best,
    In (max_item best items) (best :: items)
    /\ (snd best <= snd (max_item best items))%Q
    /\ forall item, In item items ->
                    (snd item <= snd (max_item best items))%Q.
Proof.
  induction items as [|item rest IH]; intros best; cbn [max_item].
  - split; [now left | split; [apply Qle_refl | intros _ []]].
  - destruct (Qgtb (snd item) (snd best)) eqn:E.
    + destruct (IH item) as [Hin [Hle Hall]].
      split; [right; exact Hin | split].
      * apply Qgtb_true in E. eapply Qle_trans; eauto.
      * intros x [<- | Hx]; auto.
    + destruct (IH best) as [Hin [Hle Hall]].
      split; [destruct Hin as [<- | Hin]; [now left | right; now right] | split].
      * assumption.
      * intros x [<- | Hx]; [|auto].
        apply Qgtb_false in E. eapply Qle_trans; eauto.
Qed.

Lemma find_In name soup n : find name soup = Some n -> In n (descendant_tags soup).
Proof.
  unfold find, find_all. intros H.
  destruct (filter (named name) (descendant_tags soup)) as [|x r] eqn:E;
    [discriminate|].
  injection H as ->.
  assert (Hin : In n (filter (named name) (descendant_tags soup)))
    by (rewrite E; now left).
  now apply filter_In in Hin.
Qed.

Lemma try_selectors_Some soup sels selector candidate :
  try_selectors soup sels = Some (selector, candidate) ->
  In selector sels
  /\ select_one selector soup = Some candidate
  /\ MIN_MAIN_CONTENT_LENGTH < String.length (get_text "" true candidate)
  /\ is_likely_boilerplate candidate = false.
Proof.
  induction sels as [|sel rest IH]; cbn [try_selectors]; [discriminate|].
  destruct (select_one sel soup) as [c|] eqn:Hsel.
  - destruct (_ && _) eqn:Hok.
    + intros [= <- <-]. apply andb_prop in Hok. destruct Hok as [Hlen Hb].
      apply Nat.ltb_lt in Hlen. apply negb_true_iff in Hb.
      split; [now left | auto].
    + intros H. destruct (IH H) as [Hin Hrest]. split; [now right | exact Hrest].
  - intros H. destruct (IH H) as [Hin Hrest]. split; [now right | exact Hrest].
Qed.

(** X2.  The locator returns a node of the document.  The content root
    is the soup itself or a tag within it; and it is one of three: a tag
    that is the first match of one of the selectors, holds more than 150
    characters of text and is no boilerplate; or, when no selector
    yields such a match, a div, section or td that is no boilerplate, holds at
    least 100 characters and whose density no retained candidate
    exceeds; or, when there is no candidate either, the body, or the
    soup where there is no body. *)
Theorem content_root_in_soup (lib : Library) (soup : Node) :
  let root := fst (extract_main_content lib soup) in
  (root = soup \/ In root (descendant_tags soup))
  /\ ((exists selector,
         In selector selectors
         /\ select_one selector soup = Some root
         /\ MIN_MAIN_CONTENT_LENGTH < String.length (get_text "" true root)
         /\ is_likely_boilerplate root = false)
      \/ (try_selectors soup selectors = None
          /\ In (root, density_score root) (density_candidates lib soup)
          /\ is_container root = true
          /\ is_likely_boilerplate root = false
          /\ MIN_CANDIDATE_TEXT_LENGTH
             <= String.length (get_text "" true root)
          /\ forall k s, In (k, s) (density_candidates lib soup) ->
                         (s <= density_score root)%Q)
      \/ (try_selectors soup selectors = None
          /\ density_candidates lib soup = []
          /\ root = match find "body" soup with
                    | Some body => body
                    | None => soup
                    end)).
Proof.
  intros root. unfold root, extract_main_content.
  destruct (try_selectors soup selectors) as [[selector candidate]|] eqn:Hsel.
  - cbn [fst]. apply try_selectors_Some in Hsel.
    destruct Hsel as [Hin [Hone [Hlen Hb]]]. split.
    + right. unfold select_one in Hone. now apply find_some in Hone.
    + left. exists selector. auto.
  - destruct (density_candidates lib soup) as [|first rest] eqn:Hd.
    + cbn [fst]. split.
      * destruct (find "body" soup) as [body|] eqn:Hbody; [right | now left].
        now apply find_In in Hbody.
      * right. right. auto.
    + cbn [fst].
      destruct (max_item_greatest rest first) as [Hin [Hfirst Hall]].
      assert (Hbest : In (max_item first rest) (density_candidates lib soup))
        by now rewrite Hd.
      destruct (max_item first rest) as [best score] eqn:Hmax.
      cbn [fst snd] in *.
      destruct (density_candidates_sound lib soup best score Hbest)
        as [H1 [H2 [H3 [H4 H5]]]].
      split; [now right|]. right. left.
      split; [reflexivity|]. rewrite <- H5.
      split; [rewrite <- Hd; exact Hbest|].
      repeat split; try assumption.
      intros k s Hks.
      destruct Hks as [-> | Hks]; [exact Hfirst | now apply (Hall (k, s))].
Qed.

(** ** Positions stand for the tags, in document order *)

Local Abbreviation positions_below :=
  (fix below (i : nat) (l : list Node) : list Position :=
     match l with
     | [] => []
     | child :: rest =>
         map (cons i) (positions_or_self child) ++ below (S i) rest
     end).

Lemma nth_error_middle {A : Type} (pre : list A) x rest :
  nth_error (pre ++ x :: rest) (length pre) = Some x.
Proof. induction pre as [|y pre IH]; [reflexivity | exact IH]. Qed.

Lemma positions_below_get name attrs rest :
  Forall (fun n => map (fun pos => get_at pos n) (positions_or_self n)
                   = map Some (descendants_or_self n)) rest ->
  forall pre,
    map (fun pos => get_at pos (Tag name attrs (pre ++ rest)))
        (positions_below (length pre) rest)
    = map Some (flat_map descendants_or_self rest).
Proof.
  induction 1 as [|c r Hc _ IH]; intros pre; [reflexivity|].
  cbn [flat_map]. rewrite !map_app, map_map. f_equal.
  - rewrite <- Hc. apply map_ext. intros pos.
    cbn [get_at contents_of]. now rewrite nth_error_middle.
  - specialize (IH (pre ++ [c])).
    rewrite <- app_assoc, length_app, Nat.add_1_r in IH. exact IH.
Qed.

Lemma positions_get n :
  map (fun pos => get_at pos n) (positions_or_self n)
  = map Some (descendants_or_self n).
Proof.
  induction n as [s | name attrs contents IH] using Node_ind_nested;
    [reflexivity|].
  cbn [positions_or_self descendants_or_self map get_at]. f_equal.
  apply (positions_below_get name attrs contents IH []).
Qed.

Lemma tag_positions_get soup :
  map (fun pos => get_at pos soup) (tag_positions soup)
  = map Some (descendant_tags soup).
Proof.
  destruct soup as [s | name attrs contents]; [reflexivity|].
  pose proof (positions_get (Tag name attrs contents)) as H.
  cbn [positions_or_self descendants_or_self map] in H.
  injection H as H. exact H.
Qed.

Lemma filter_map_Some {A B : Type} (g : A -> option B) (p : B -> bool) l :
  forall l',
    map g l = map Some l' ->
    map g (filter (fun x => match g x with Some n => p n | None => false end) l)
    = map Some (filter p l').
Proof.
  induction l as [|x r IH]; intros [|y r']; try discriminate; [reflexivity|].
  cbn [map filter]. intros [= Hx Hr]. rewrite Hx.
  destruct (p y); cbn [map]; rewrite ?Hx; [f_equal|]; now apply IH.
Qed.

(** The positions [find_all_positions] gives are those of the tags
    [find_all] gives, in the same order. *)
Lemma find_all_positions_get p soup :
  map (fun pos => get_at pos soup) (find_all_positions p soup)
  = map Some (filter p (descendant_tags soup)).
Proof.
  unfold find_all_positions, satisfies_at.
  apply filter_map_Some, tag_positions_get.
Qed.

Lemma find_position_get p soup :
  match find_position p soup with
  | Some pos => get_at pos soup = hd_error (filter p (descendant_tags soup))
                /\ hd_error (filter p (descendant_tags soup)) <> None
  | None => filter p (descendant_tags soup) = []
  end.
Proof.
  unfold find_position. pose proof (find_all_positions_get p soup) as H.
  destruct (find_all_positions p soup) as [|pos r];
    destruct (filter p (descendant_tags soup)) as [|n r'];
    try discriminate; [reflexivity|].
  cbn [hd_error]. injection H as H _. split; [assumption | discriminate].
Qed.

Lemma positions_below_nonempty l :
  forall i pos, In pos (positions_below i l) -> pos <> [].
Proof.
  induction l as [|c r IH]; intros i pos; [intros []|].
  intros H. apply in_app_or in H. destruct H as [H | H].
  - apply in_map_iff in H. destruct H as [p [<- _]]. discriminate.
  - now apply IH in H.
Qed.

Lemma tag_positions_nonempty soup pos : In pos (tag_positions soup) -> pos <> [].
Proof.
  destruct soup as [s | name attrs contents]; [intros []|].
  apply positions_below_nonempty.
Qed.

Lemma find_position_nonempty p soup pos :
  find_position p soup = Some pos -> pos <> [].
Proof.
  unfold find_position, find_all_positions. intros H.
  destruct (filter _ (tag_positions soup)) as [|x r] eqn:E; [discriminate|].
  injection H as ->.
  assert (Hin : In pos (filter (satisfies_at p soup) (tag_positions soup)))
    by (rewrite E; now left).
  apply filter_In in Hin. destruct Hin as [Hin _].
  now apply tag_positions_nonempty in Hin.
Qed.

(** The first tag below a node is one of its children. *)
Lemma first_position_child soup first :
  find_position (fun _ => true) soup = Some first ->
  exists i, first = [i].
Proof.
  unfold find_position, find_all_positions, satisfies_at.
  destruct soup as [s | name attrs contents]; [discriminate|].
  pose proof (tag_positions_get (Tag name attrs contents)) as Hget.
  unfold tag_positions in *. cbn [positions_or_self tl] in *.
  unfold descendant_tags in Hget. cbn [contents_of] in Hget.
  assert (Hgen : forall i l pre,
             contents = pre ++ l -> i = length pre ->
             hd_error
               (filter
                  (fun pos =>
                     match get_at pos (Tag name attrs contents) with
                     | Some _ => true
                     | None => false
                     end) (positions_below i l)) = Some first ->
             exists j, first = [j]).
  { intros i l. revert i. induction l as [|c r IH]; intros i pre Hl Hi;
      [discriminate|].
    destruct c as [s | cname cattrs ccontents].
    - cbn [positions_or_self map app]. apply (IH (S i) (pre ++ [NavigableString s])).
      + now rewrite <- app_assoc.
      + rewrite length_app, Nat.add_1_r. now subst.
    - cbn [positions_or_self map app filter].
      subst contents i.
      cbn [get_at contents_of]. rewrite nth_error_middle.
      cbn [hd_error]. intros [= <-]. now exists (length pre). }
  apply (Hgen 0 contents []); reflexivity.
Qed.

(** ** Changing the tree at a position *)

Lemma splice_nth_get {A : Type} (g : A -> list A) l :
  forall i x y ys,
    nth_error l i = Some x -> g x = y :: ys ->
    nth_error (splice_nth i g l) i = Some y.
Proof.
  induction l as [|a r IH]; intros [|i] x y ys; cbn [nth_error splice_nth];
    try discriminate.
  - intros [= ->] ->. reflexivity.
  - apply IH.
Qed.

Lemma splice_nth_get_next {A : Type} (g : A -> list A) l :
  forall i x y z zs,
    nth_error l i = Some x -> g x = y :: z :: zs ->
    nth_error (splice_nth i g l) (S i) = Some z.
Proof.
  induction l as [|a r IH]; intros [|i] x y z zs; cbn [nth_error splice_nth];
    try discriminate.
  - intros [= ->] ->. reflexivity.
  - apply IH.
Qed.

(** What stands at a position after an update there: the first of the
    nodes the update made; and next to it the second. *)
Lemma update_at_get f pos :
  forall soup n y ys,
    pos <> [] -> get_at pos soup = Some n -> f n = y :: ys ->
    get_at pos (update_at pos f soup) = Some y.
Proof.
  induction pos as [|i rest IH]; intros soup n y ys Hpos; [contradiction|].
  destruct soup as [s | name attrs contents];
    [cbn [get_at contents_of]; now destruct i|].
  cbn [get_at contents_of update_at].
  destruct (nth_error contents i) as [child|] eqn:Hi; [|discriminate].
  intros Hget Hf. destruct rest as [|j rest'].
  - cbn [get_at] in Hget. injection Hget as ->.
    now rewrite (splice_nth_get (fun child => f child) _ _ _ _ _ Hi Hf).
  - erewrite splice_nth_get; [|exact Hi|reflexivity].
    eapply IH; eauto. discriminate.
Qed.

Lemma update_at_get_next f pos :
  forall soup n y z zs,
    pos <> [] -> get_at pos soup = Some n -> f n = y :: z :: zs ->
    get_at (next_sibling pos) (update_at pos f soup) = Some z.
Proof.
  induction pos as [|i rest IH]; intros soup n y z zs Hpos; [contradiction|].
  destruct soup as [s | name attrs contents];
    [cbn [get_at contents_of]; now destruct i|].
  cbn [get_at contents_of update_at].
  destruct (nth_error contents i) as [child|] eqn:Hi; [|discriminate].
  intros Hget Hf. destruct rest as [|j rest'].
  - cbn [get_at] in Hget. injection Hget as ->.
    cbn [next_sibling rev app get_at contents_of].
    now rewrite (splice_nth_get_next (fun child => f child) _ _ _ _ _ _ Hi Hf).
  - assert (Hnext : next_sibling (i :: j :: rest') = i :: next_sibling (j :: rest')).
    { unfold next_sibling.
      change (rev (i :: j :: rest')) with (rev (j :: rest') ++ [i]).
      destruct (rev (j :: rest')) as [|k up] eqn:E.
      - cbn [rev] in E. destruct (rev rest'); discriminate.
      - cbn [app rev]. rewrite rev_app_distr. reflexivity. }
    rewrite Hnext. cbn [get_at contents_of].
    erewrite splice_nth_get; [|exact Hi|reflexivity].
    eapply IH; eauto. discriminate.
Qed.

Lemma get_at_In pos :
  forall soup name attrs contents,
    pos <> [] ->
    get_at pos soup = Some (Tag name attrs contents) ->
    In (Tag name attrs contents) (descendant_tags soup).
Proof.
  induction pos as [|i rest IH]; intros soup name attrs contents Hpos;
    [contradiction|].
  cbn [get_at]. destruct (nth_error (contents_of soup) i) as [child|] eqn:Hi;
    [|discriminate].
  intros Hget. unfold descendant_tags. apply in_flat_map.
  exists child. split; [eapply nth_error_In; eauto|].
  destruct rest as [|j rest'].
  - cbn [get_at] in Hget. injection Hget as ->. now left.
  - destruct child as [s | cname cattrs ccontents];
      [cbn [get_at contents_of] in Hget; now destruct j|].
    cbn [descendants_or_self]. right.
    apply (IH (Tag cname cattrs ccontents)); [discriminate | exact Hget].
Qed.

(** ** The metadata injector *)

Lemma get_at_app pos rest :
  forall soup,
    get_at (pos ++ rest) soup
    = match get_at pos soup with
      | Some n => get_at rest n
      | None => None
      end.
Proof.
  induction pos as [|i pos IH]; intros soup; [reflexivity|].
  cbn [app get_at]. destruct (nth_error (contents_of soup) i); [apply IH | reflexivity].
Qed.

Lemma next_sibling_nonempty pos : pos <> [] -> next_sibling pos <> [].
Proof.
  intros Hpos. unfold next_sibling.
  destruct (rev pos) as [|i up] eqn:E.
  - apply (f_equal (@rev nat)) in E. rewrite rev_involutive in E. contradiction.
  - cbn [rev]. destruct (rev up); discriminate.
Qed.

Lemma descendant_tags_self child :
  incl (descendant_tags child) (descendants_or_self child).
Proof.
  destruct child as [s | name attrs contents]; intros n Hn; [exact Hn|].
  now right.
Qed.

Lemma get_at_descendants pos :
  forall soup b,
    get_at pos soup = Some b ->
    incl (descendant_tags b) (descendant_tags soup).
Proof.
  induction pos as [|i rest IH]; intros soup b.
  - intros [= ->]. apply incl_refl.
  - cbn [get_at].
    destruct (nth_error (contents_of soup) i) as [child|] eqn:Hi; [|discriminate].
    intros Hget n Hn. unfold descendant_tags at 1. apply in_flat_map.
    exists child. split; [eapply nth_error_In; eauto|].
    apply descendant_tags_self. eapply IH; eauto.
Qed.

Lemma find_In_descendants name soup h :
  find name soup = Some h -> In h (descendant_tags soup) /\ named name h = true.
Proof.
  unfold find, find_all. intros H.
  destruct (filter (named name) (descendant_tags soup)) as [|x r] eqn:E;
    [discriminate|].
  injection H as ->. apply filter_In. rewrite E. now left.
Qed.

Lemma node_at_descendants pos soup :
  incl (descendant_tags (node_at pos soup)) (descendant_tags soup).
Proof.
  unfold node_at. destruct (get_at pos soup) as [b|] eqn:E.
  - eapply get_at_descendants; eauto.
  - apply incl_refl.
Qed.

Lemma app_nonempty {A : Type} (l r : list A) : r <> [] -> l ++ r <> [].
Proof. destruct l; [trivial | discriminate]. Qed.

(** Where the section comes to stand, it stands. *)
Lemma section_inserted soup body b section :
  body <> [] ->
  get_at body soup = Some b ->
  let first_body_element := find_position (fun _ => true) b in
  let section_pos :=
    match first_body_element with
    | Some first => body ++ first
    | None => body ++ [length (contents_of b)]
    end in
  let soup' :=
    match first_body_element with
    | Some _ => insert_before section_pos section soup
    | None => append_to body section soup
    end in
  named "body" b = true ->
  section_pos <> [] /\ get_at section_pos soup' = Some section.
Proof.
  intros Hbody Hget. cbv zeta.
  pose proof (find_position_get (fun _ => true) b) as Hfirst.
  destruct (find_position (fun _ => true) b) as [first|] eqn:Hf; intros Hb.
  - split; [apply app_nonempty; eapply find_position_nonempty; eauto|].
    destruct Hfirst as [Hfirst Hsome].
    destruct (get_at first b) as [n|] eqn:Hn; [|now rewrite <- Hfirst in Hsome].
    unfold insert_before.
    apply (update_at_get _ _ _ n section [n]);
      [apply app_nonempty; eapply find_position_nonempty; eauto | | reflexivity].
    now rewrite get_at_app, Hget.
  - split; [apply app_nonempty; discriminate|].
    destruct b as [s | name attrs contents]; [discriminate|].
    unfold append_to. rewrite get_at_app.
    rewrite (update_at_get _ _ _ _ (Tag name attrs (contents ++ [section])) []
               Hbody Hget eq_refl).
    cbn [get_at contents_of]. now rewrite nth_error_middle.
Qed.

(** X9. [add_llm_metadata]: without a body the document comes back as it
    was, with one warning; with a body nothing is logged, the metadata
    section is in the result, and when the page has a title the result
    has an h1. *)
Theorem metadata_injected soup original_url original_title timestamp :
  let result := add_llm_metadata soup original_url original_title timestamp in
  match find "body" soup with
  | None =>
      result = (soup, [warning "Cannot add metadata, body tag not found."])
  | Some _ =>
      snd result = []
      /\ In (meta_section original_url timestamp) (descendant_tags (fst result))
      /\ (PyStr.truthy original_title = true ->
          exists h1,
            In h1 (descendant_tags (fst result)) /\ named "h1" h1 = true)
  end.
Proof.
  cbv zeta. unfold add_llm_metadata.
  pose proof (find_position_get (named "body") soup) as Hbody.
  pose proof (find_position_nonempty (named "body") soup) as Hpos.
  assert (Hfind : find "body" soup
                  = hd_error (filter (named "body") (descendant_tags soup)))
    by reflexivity.
  rewrite Hfind. clear Hfind.
  destruct (find_position (named "body") soup) as [body|].
  - specialize (Hpos body eq_refl). destruct Hbody as [Hget Hsome].
    destruct (hd_error (filter (named "body") (descendant_tags soup)))
      as [b|] eqn:Hhd; [clear Hsome | contradiction].
    assert (Hb : named "body" b = true).
    { destruct (filter (named "body") (descendant_tags soup)) as [|x r] eqn:E;
        [discriminate|].
      injection Hhd as ->.
      assert (Hin : In b (filter (named "body") (descendant_tags soup)))
        by (rewrite E; now left).
      now apply filter_In in Hin. }
    assert (Hnode : node_at body soup = b)
      by (unfold node_at; now rewrite Hget).
    rewrite !Hnode. clear Hnode.
    pose proof (section_inserted soup body b
                  (meta_section original_url timestamp) Hpos Hget) as Hs.
    cbv zeta in Hs. specialize (Hs Hb).
    set (section_pos :=
           match find_position (fun _ => true) b with
           | Some first => body ++ first
           | None => body ++ [length (contents_of b)]
           end) in *.
    set (soup' :=
           match find_position (fun _ => true) b with
           | Some _ => insert_before section_pos _ soup
           | None => append_to body _ soup
           end) in *.
    destruct Hs as [Hne Hat].
    cbn [fst snd]. split; [reflexivity|].
    destruct (find "h1" (node_at body soup')) as [h|] eqn:Hh1.
    + split; [eapply get_at_In; [exact Hne | exact Hat]|].
      intros _. exists h. apply find_In_descendants in Hh1.
      destruct Hh1 as [Hin Hnamed]. split; [|exact Hnamed].
      now apply node_at_descendants in Hin.
    + destruct (PyStr.truthy original_title).
      * unfold insert_after. split.
        -- eapply get_at_In; [exact Hne|].
           eapply update_at_get; [exact Hne | exact Hat | reflexivity].
        -- intros _. exists (Tag "h1" [] [NavigableString original_title]).
           split; [|reflexivity].
           eapply get_at_In; [apply next_sibling_nonempty; exact Hne|].
           eapply update_at_get_next; [exact Hne | exact Hat | reflexivity].
      * split; [eapply get_at_In; [exact Hne | exact Hat] | discriminate].
  - now rewrite Hbody.
Qed.

(** ** The loop that removes the empty tags *)

Lemma remove_tags_strings strip n :
  all_strings strip (remove_tags structurally_empty n) = all_strings strip n.
Proof.
  induction n as [s | name attrs contents IH] using Node_ind_nested;
    [reflexivity|].
  cbn [remove_tags all_strings].
  induction IH as [|c r Hc _ IHr]; [reflexivity|].
  cbn [flat_map]. rewrite flat_map_app, IHr. f_equal.
  destruct (is_tag c && structurally_empty c) eqn:E.
  - apply andb_prop in E. destruct E as [_ E].
    destruct c as [s | cname cattrs [|x ccontents]]; [discriminate | reflexivity |].
    cbn [structurally_empty is_nil] in E.
    now rewrite andb_false_r in E.
  - cbn [flat_map]. now rewrite app_nil_r.
Qed.

Lemma remove_empty_loop_strings strip fuel :
  forall soup, all_strings strip (remove_empty_loop fuel soup) = all_strings strip soup.
Proof.
  induction fuel as [|fuel IH]; intros soup; [reflexivity|].
  cbn [remove_empty_loop].
  destruct (length (filter structurally_empty (descendant_tags soup)) =? 0);
    [reflexivity|].
  now rewrite IH, remove_tags_strings.
Qed.

(** X8. The loop over the structurally empty tags ends with none left,
    keeps every string of the document, and leaves the document as it was
    exactly when it held no such tag. *)
Theorem empty_tags_removed soup :
  existsb structurally_empty (descendant_tags (remove_empty_tags soup)) = false
  /\ (forall strip,
        all_strings strip (remove_empty_tags soup) = all_strings strip soup)
  /\ (remove_empty_tags soup = soup
      <-> existsb structurally_empty (descendant_tags soup) = false).
Proof.
  split; [apply remove_empty_tags_settled|].
  split; [intros strip; apply remove_empty_loop_strings|].
  split.
  - intros H. rewrite <- H at 1. apply remove_empty_tags_settled.
  - intros H. unfold remove_empty_tags. cbn [remove_empty_loop].
    now rewrite filter_nil_existsb, H.
Qed.

(** ** File names *)

Lemma keep_chars_all p s : all_chars p (keep_chars p s) = true.
Proof.
  induction s as [|c r IH]; [reflexivity|].
  cbn [keep_chars]. destruct (p c) eqn:E; [|exact IH].
  cbn [all_chars]. now rewrite E.
Qed.

Lemma lstrip_char_all p x s :
  all_chars p s = true -> all_chars p (lstrip_char x s) = true.
Proof.
  induction s as [|c r IH]; [trivial|].
  cbn [lstrip_char]. destruct (Ascii.eqb c x); [|trivial].
  cbn [all_chars]. intros H. apply andb_prop in H. now apply IH.
Qed.

Lemma rstrip_char_all p x s :
  all_chars p s = true -> all_chars p (rstrip_char x s) = true.
Proof.
  induction s as [|c r IH]; [trivial|].
  cbn [all_chars rstrip_char]. intros H. apply andb_prop in H.
  destruct H as [Hc Hr]. specialize (IH Hr).
  destruct (rstrip_char x r) as [|c' r'].
  - destruct (Ascii.eqb c x); [reflexivity|].
    cbn [all_chars]. now rewrite Hc.
  - cbn [all_chars] in *. now rewrite Hc.
Qed.

Lemma squeeze_from_all b s :
  all_chars safe_char s = true ->
  all_chars safe_char (squeeze_from b s) = true.
Proof.
  revert b. induction s as [|c r IH]; intros b; [trivial|].
  cbn [all_chars squeeze_from]. intros H. apply andb_prop in H.
  destruct H as [Hc Hr].
  destruct (Ascii.eqb c "_"); [destruct b|]; cbn [all_chars].
  - auto.
  - apply andb_true_intro. split; [reflexivity | auto].
  - rewrite Hc. cbn [andb]. auto.
Qed.

Lemma take_all p n :
  forall s, all_chars p s = true -> all_chars p (take n s) = true.
Proof.
  induction n as [|n IH]; intros [|c r]; try reflexivity.
  cbn [all_chars take]. intros H. apply andb_prop in H.
  destruct H as [Hc Hr]. now rewrite Hc, IH.
Qed.

Lemma take_length n : forall s, String.length (take n s) <= n.
Proof.
  induction n as [|n IH]; intros [|c r]; cbn [take String.length]; try lia.
  specialize (IH r). lia.
Qed.

Lemma startswith_char a r x :
  PyStr.startswith (String a r) (String x EmptyString) = Ascii.eqb x a.
Proof. cbn [PyStr.startswith]. destruct r; apply andb_true_r. Qed.

Lemma single_underscores_cons a b r :
  single_underscores (String a (String b r))
  = negb (Ascii.eqb a "_" && Ascii.eqb b "_") && single_underscores (String b r).
Proof. reflexivity. Qed.

Lemma squeeze_from_single b s :
  single_underscores (squeeze_from b s) = true
  /\ (b = true -> PyStr.startswith (squeeze_from b s) "_" = false).
Proof.
  revert b. induction s as [|c r IH]; intros b;
    [split; [reflexivity | now intros _]|].
  cbn [squeeze_from]. destruct (Ascii.eqb c "_") eqn:Ec.
  - destruct b.
    + apply IH.
    + split; [|discriminate].
      destruct (IH true) as [Hs Hb]. specialize (Hb eq_refl).
      destruct (squeeze_from true r) as [|c' r'] eqn:E; [reflexivity|].
      rewrite single_underscores_cons, Hs.
      rewrite startswith_char, Ascii.eqb_sym in Hb. rewrite Hb.
      now rewrite andb_false_r.
  - split.
    + destruct (IH false) as [Hs _].
      destruct (squeeze_from false r) as [|c' r'] eqn:E; [reflexivity|].
      rewrite single_underscores_cons, Hs. now rewrite Ec.
    + intros _. now rewrite startswith_char, Ascii.eqb_sym.
Qed.

Lemma take_single n :
  forall s, single_underscores s = true -> single_underscores (take n s) = true.
Proof.
  induction n as [|n IH]; intros [|c r]; try reflexivity.
  intros H. cbn [take]. specialize (IH r).
  destruct r as [|c' r']; [now destruct n|].
  rewrite single_underscores_cons in H. apply andb_prop in H.
  destruct H as [Hc Hr].
  specialize (IH Hr). destruct n as [|n']; [reflexivity|].
  cbn [take] in *. now rewrite single_underscores_cons, Hc, IH.
Qed.

Lemma lstrip_char_begins x s :
  PyStr.startswith (lstrip_char x s) (String x EmptyString) = false.
Proof.
  induction s as [|c r IH]; [reflexivity|].
  cbn [lstrip_char]. destruct (Ascii.eqb c x) eqn:E; [exact IH|].
  now rewrite startswith_char, Ascii.eqb_sym.
Qed.

Lemma rstrip_char_begins x y s :
  PyStr.startswith s (String y EmptyString) = false ->
  PyStr.startswith (rstrip_char x s) (String y EmptyString) = false.
Proof.
  destruct s as [|c r]; [trivial|].
  cbn [rstrip_char]. rewrite startswith_char. intros H.
  destruct (rstrip_char x r); [destruct (Ascii.eqb c x); [reflexivity|]|];
    now rewrite startswith_char.
Qed.

Lemma squeeze_begins s :
  PyStr.startswith s "_" = false ->
  PyStr.startswith (squeeze_underscores s) "_" = false.
Proof.
  destruct s as [|c r]; [trivial|].
  unfold squeeze_underscores. cbn [squeeze_from].
  rewrite startswith_char, Ascii.eqb_sym. intros E. rewrite E.
  now rewrite startswith_char, Ascii.eqb_sym.
Qed.

Lemma take_begins n y s :
  PyStr.startswith s (String y EmptyString) = false ->
  PyStr.startswith (take n s) (String y EmptyString) = false.
Proof.
  destruct n, s; trivial. cbn [take]. now rewrite !startswith_char.
Qed.

Lemma length_append (a b : string) :
  String.length (a ++ b) = String.length a + String.length b.
Proof. induction a as [|c r IH]; cbn; [reflexivity | now rewrite IH]. Qed.

Lemma filename_length name short_hash :
  String.length name <= 100 ->
  String.length short_hash <= 16 ->
  String.length (name ++ "_" ++ short_hash ++ ".html") <= 122.
Proof.
  intros Hn Hh. rewrite length_append. cbn [append String.length].
  rewrite length_append. cbn [String.length]. lia.
Qed.

(** X11. A generated file name is a safe part, an underscore, the first
    16 characters of the digest and the suffix .html.  The safe part has
    at most 100 characters, all of them alphanumeric or underscores, no
    two underscores side by side and none in front; the name has at most
    122 characters. *)
Theorem filename_safe platform url filename :
  generate_filename platform url = Ok filename ->
  exists name,
    filename
    = (name ++ "_" ++ take 16 (sha256_hexdigest platform url) ++ ".html")%string
    /\ String.length name <= 100
    /\ all_chars safe_char name = true
    /\ single_underscores name = true
    /\ PyStr.startswith name "_" = false
    /\ String.length filename <= 122.
Proof.
  unfold generate_filename.
  destruct (urldefrag platform url) as [[url_no_frag fragment] | e];
    [|discriminate].
  destruct (urlparse platform url_no_frag) as [parsed | e]; [|discriminate].
  cbv zeta. set (name := safe_name _). intros H.
  assert (E : filename
              = (name ++ "_" ++ take 16 (sha256_hexdigest platform url)
                   ++ ".html")%string) by congruence.
  clear H. exists name.
  assert (Hlen : String.length name <= 100) by apply take_length.
  split; [exact E|]. repeat split.
  - exact Hlen.
  - apply take_all, squeeze_from_all, rstrip_char_all, lstrip_char_all,
      keep_chars_all.
  - apply take_single, squeeze_from_single.
  - apply take_begins, squeeze_begins, rstrip_char_begins, lstrip_char_begins.
  - rewrite E. apply filename_length; [exact Hlen | apply take_length].
Qed.

Lemma filename_safe_witness :
  exists name,
    "e_x_com_a_b_c_0011223344556677.html"
    = (name ++ "_" ++ take 16 (sha256_hexdigest platform_stand_in "https://e-x.com/a-b//c/")
         ++ ".html")%string
    /\ String.length name <= 100
    /\ all_chars safe_char name = true
    /\ single_underscores name = true
    /\ PyStr.startswith name "_" = false
    /\ String.length "e_x_com_a_b_c_0011223344556677.html" <= 122.
Proof.
  apply (filename_safe platform_stand_in "https://e-x.com/a-b//c/"). reflexivity.
Defined.

(** ** The command-line program *)

Section ProgramFacts.

Variable Outside : Type.
Variable host : Host Outside.
Variable lib : Library.
Variable platform : Platform.

Lemma and_then_Done {A B : Type} (p : Prog Outside A)
  (k : A -> Prog Outside B) m b m' :
  and_then p k m = (Done b, m') ->
  exists a m1, p m = (Done a, m1) /\ k a m1 = (Done b, m').
Proof.
  unfold and_then. destruct (p m) as [[a | code | e] m1]; try discriminate.
  intros H. now exists a, m1.
Qed.

Lemma done_Done {A : Type} (a b : A) (m m' : Machine Outside) :
  done a m = (Done b, m') -> b = a /\ m' = m.
Proof. unfold done. now intros [= <- <-]. Qed.

Ltac peel :=
  repeat match goal with
    | H : and_then _ _ _ = (Done _, _) |- _ =>
        apply and_then_Done in H; destruct H as (? & ? & ? & H)
    | H : done _ _ = (Done _, _) |- _ =>
        apply done_Done in H; destruct H as [? ?]; subst
    | H : (if ?b then _ else _) _ = (Done _, _) |- _ => destruct b
    | H : match ?x with Some _ => _ | None => _ end _ = (Done _, _) |- _ =>
        destruct x
    end.

Lemma process_url_accounted total_urls i url c m c' m' :
  process_url host lib platform total_urls i url c m = (Done c', m') ->
  accounted c' = S (accounted c).
Proof.
  unfold process_url. intros H. peel;
    unfold accounted, count_skip, count_processed, count_fetch_error,
      count_clean_error;
    cbn [processed_count fetch_error_count clean_error_count skip_count]; lia.
Qed.

(** X14. The loop of [main] over the URLs counts every URL once: when
    it comes to its end, the four counters together have grown by the
    number of URLs. *)
Theorem urls_accounted total_urls urls :
  forall i c m c' m',
    process_urls host lib platform total_urls i urls c m = (Done c', m') ->
    accounted c' = accounted c + length urls.
Proof.
  induction urls as [|url rest IH]; intros i c m c' m' H.
  - apply done_Done in H. destruct H as [-> _]. cbn [length]. lia.
  - cbn [process_urls] in H. apply and_then_Done in H.
    destruct H as (c1 & m1 & H1 & H2).
    apply process_url_accounted in H1. apply IH in H2.
    cbn [length]. lia.
Qed.

(** X15. The exit status after the summary is 1 when a fetch or a
    cleaning failed and 0 otherwise; with every URL accounted for, the
    last record says that all URLs completed exactly when nothing failed
    and nothing was skipped. *)
Theorem exit_status total_urls c (m : Machine Outside) :
  accounted c = total_urls ->
  fst (summary total_urls c m)
  = Exit (if 0 <? fetch_error_count c + clean_error_count c then 1 else 0)
  /\ (last (records (snd (summary total_urls c m))) (info EmptyString)
      = info "All processable URLs completed successfully."
      <-> fetch_error_count c + clean_error_count c = 0 /\ skip_count c = 0).
Proof.
  intros Hacc. unfold summary, and_then, log, sys_exit. cbn [fst snd].
  destruct (0 <? fetch_error_count c + clean_error_count c) eqn:Herr.
  - cbn [fst snd records]. split; [reflexivity|].
    rewrite !last_last. apply Nat.ltb_lt in Herr.
    split; [discriminate | lia].
  - apply Nat.ltb_ge in Herr.
    destruct (0 <? skip_count c) eqn:Hskip; cbn [orb].
    + cbn [fst snd records]. split; [reflexivity|].
      rewrite !last_last. apply Nat.ltb_lt in Hskip.
      split; [discriminate | lia].
    + apply Nat.ltb_ge in Hskip.
      assert (Hdead : (Z.of_nat (processed_count c)
                       <? Z.of_nat total_urls - Z.of_nat (skip_count c))%Z
                      = false).
      { apply Z.ltb_ge. unfold accounted in Hacc. lia. }
      rewrite Hdead. cbn [fst snd records]. split; [reflexivity|].
      rewrite !last_last. split; [lia | reflexivity].
Qed.

(** X13. [fetch_url_content] always returns: nothing it calls makes it
    raise or exit.  A text it returns is not empty and not all
    whitespace, and comes from a response without an error status whose
    content type names text/html; when it returns None, the record it
    logged last is a warning or an error. *)
Theorem fetch_contained url (m : Machine Outside) :
  exists r m',
    fetch_url_content host url m = (Done r, m')
    /\ match r with
       | Some html_content =>
           PyStr.truthy html_content = true
           /\ all_chars PyStr.isspace html_content = false
           /\ exists response o,
                client_get host url (outside m) = (Fine response, o)
                /\ raise_for_status response = Fine tt
                /\ PyStr.contains
                     (PyStr.lower (match content_type response with
                                   | Some v => v
                                   | None => EmptyString
                                   end)) "text/html" = true
       | None => levelname (last (records m') (info EmptyString)) <> INFO
       end.
Proof.
  unfold fetch_url_content, and_then, try_catch, host_call, log, answer, done,
    raise.
  cbn [outside records].
  destruct (client_get host url (outside m)) as [[response | e] o] eqn:Hget.
  - destruct (raise_for_status response) as [[] | e] eqn:Hstatus.
    + destruct (PyStr.contains _ "text/html") eqn:Htype; cbn [negb].
      * destruct (decode response (detected_encoding response))
          as [html_content | e] eqn:Hdecode.
        -- destruct (negb (PyStr.truthy html_content)
                     || str_isspace html_content) eqn:Hblank.
           ++ eexists _, _. split; [reflexivity|].
              cbn [records]. rewrite last_last. discriminate.
           ++ eexists _, _. split; [reflexivity|].
              apply orb_false_elim in Hblank. destruct Hblank as [Ht Hs].
              apply negb_false_iff in Ht. unfold str_isspace in Hs.
              rewrite Ht in Hs. repeat split; [exact Ht | exact Hs |].
              exists response, o. now rewrite Htype.
        -- cbn [outside records].
           destruct (decode response "utf-8") as [html_content | e']
             eqn:Hfallback.
           ++ destruct (negb (PyStr.truthy html_content)
                        || str_isspace html_content) eqn:Hblank.
              ** eexists _, _. split; [reflexivity|].
                 cbn [records]. rewrite last_last. discriminate.
              ** eexists _, _. split; [reflexivity|].
                 apply orb_false_elim in Hblank. destruct Hblank as [Ht Hs].
                 apply negb_false_iff in Ht. unfold str_isspace in Hs.
                 rewrite Ht in Hs. repeat split; [exact Ht | exact Hs |].
                 exists response, o. now rewrite Htype.
           ++ eexists _, _. split; [reflexivity|].
              cbn [records]. rewrite last_last. discriminate.
      * eexists _, _. split; [reflexivity|].
        cbn [records]. rewrite last_last. discriminate.
    + eexists _, _. split; [reflexivity|].
      cbn [records]. rewrite last_last. discriminate.
  - eexists _, _. split; [reflexivity|].
    cbn [records]. rewrite last_last. discriminate.
Qed.

Lemma fold_keep_line lines :
  forall urls,
    fold_left keep_line lines urls
    = urls ++ filter is_url_line (map PyStr.strip lines).
Proof.
  induction lines as [|line rest IH]; intros urls;
    [now rewrite app_nil_r|].
  cbn [fold_left map filter]. rewrite IH. unfold keep_line, is_url_line.
  destruct (PyStr.truthy (PyStr.strip line)
            && negb (PyStr.startswith (PyStr.strip line) "#"));
    [now rewrite <- app_assoc | reflexivity].
Qed.

Lemma url_lines_stripped lines :
  Forall (fun url =>
            PyStr.strip url = url /\ PyStr.truthy url = true
            /\ PyStr.startswith url "#" = false)
         (filter is_url_line (map PyStr.strip lines)).
Proof.
  apply Forall_forall. intros url Hin. apply filter_In in Hin.
  destruct Hin as [Hin Hkeep]. apply in_map_iff in Hin.
  destruct Hin as [line [<- _]]. unfold is_url_line in Hkeep.
  apply andb_prop in Hkeep. destruct Hkeep as [Ht Hc].
  apply negb_true_iff in Hc. now rewrite strip_idempotent.
Qed.

(** X12. [load_urls] never exits and lets no OSError out.  Without the
    file it returns no URL; otherwise it returns, in the order of the
    file, the stripped lines read that are not empty and do not begin
    with #, so every URL is stripped and not empty. *)
Theorem urls_loaded (m : Machine Outside) :
  match fst (load_urls host m) with
  | Done urls =>
      urls
      = (if fst (is_file host (outside m))
         then filter is_url_line
                (map PyStr.strip
                   (fst (fst (read_lines host
                                (snd (is_file host (outside m)))))))
         else [])
      /\ Forall (fun url =>
                   PyStr.strip url = url /\ PyStr.truthy url = true
                   /\ PyStr.startswith url "#" = false)
                urls
  | Exit _ => False
  | Crash e => e <> OSError
  end.
Proof.
  unfold load_urls, and_then, host_read, log, done, raise.
  destruct (is_file host (outside m)) as [[|] o]; cbn [negb fst snd outside].
  - destruct (read_lines host o) as [[lines failure] o'].
    cbn [fst snd]. rewrite fold_keep_line. cbn [app].
    destruct failure as [[| | |e]|]; cbn [fst];
      try discriminate; (split; [reflexivity | apply url_lines_stripped]).
  - split; [reflexivity | constructor].
Qed.

Lemma and_then_orderly {A B : Type} (p : Prog Outside A)
  (k : A -> Prog Outside B) m :
  orderly (fst (p m)) ->
  (forall a m1, orderly (fst (k a m1))) ->
  orderly (fst (and_then p k m)).
Proof.
  unfold and_then. intros Hp Hk.
  destruct (p m) as [[a | code | e] m1]; [apply Hk | exact Hp | exact Hp].
Qed.

Lemma and_then_ends {A B : Type} (p : Prog Outside A)
  (k : A -> Prog Outside B) m b m' :
  (forall a m1 b m', k a m1 <> (Done b, m')) ->
  and_then p k m <> (Done b, m').
Proof.
  unfold and_then. intros Hk.
  destruct (p m) as [[a | code | e] m1]; [apply Hk | discriminate..].
Qed.

Lemma fetch_url_content_returns url (m : Machine Outside) :
  exists r m', fetch_url_content host url m = (Done r, m').
Proof.
  unfold fetch_url_content, and_then, try_catch, host_call, log, answer, done,
    raise.
  cbn [outside records].
  destruct (client_get host url (outside m)) as [[response | e] o];
    [|eexists _, _; reflexivity].
  destruct (raise_for_status response) as [[] | e];
    [|eexists _, _; reflexivity].
  destruct (negb (PyStr.contains _ "text/html"));
    [eexists _, _; reflexivity|].
  destruct (decode response (detected_encoding response))
    as [html_content | e].
  - destruct (negb (PyStr.truthy html_content) || str_isspace html_content);
      eexists _, _; reflexivity.
  - cbn [outside records].
    destruct (decode response "utf-8") as [html_content | e'];
      [|eexists _, _; reflexivity].
    destruct (negb (PyStr.truthy html_content) || str_isspace html_content);
      eexists _, _; reflexivity.
Qed.

Lemma save_cleaned_html_returns filename html_content (m : Machine Outside) :
  exists m', save_cleaned_html host filename html_content m = (Done tt, m').
Proof.
  unfold save_cleaned_html, and_then, try_catch, host_call, log.
  cbn [outside records].
  destruct (write_text host filename html_content (outside m))
    as [[[] | e] o]; eexists; reflexivity.
Qed.

Lemma result_orderly {A : Type} (r : Result A) (m : Machine Outside) :
  orderly (fst (result r m)).
Proof. destruct r; cbn; [exact I | discriminate]. Qed.

Lemma cleaned_orderly raw_html url (m : Machine Outside) :
  orderly (fst (cleaned host lib raw_html url m)).
Proof.
  unfold cleaned.
  destruct (clean_html_content lib raw_html url _) as [[v | e] w'];
    cbn; [exact I | discriminate].
Qed.

Lemma process_url_orderly total_urls i url c (m : Machine Outside) :
  orderly (fst (process_url host lib platform total_urls i url c m)).
Proof.
  unfold process_url.
  apply and_then_orderly; [exact I | intros _ m1].
  apply and_then_orderly.
  - unfold try_catch, and_then, result, done, raise, log.
    destruct (urlparse platform url) as [parsed_url | e].
    + destruct (negb (PyStr.mem (scheme parsed_url) ["http"; "https"]));
        exact I.
    + destruct e; cbn; try exact I; discriminate.
  - intros valid m2. destruct (negb valid); [exact I|].
    apply and_then_orderly.
    + destruct (fetch_url_content_returns url m2) as (r & m3 & ->). exact I.
    + intros [raw_html|] m3; [|exact I].
      destruct (PyStr.truthy raw_html); [|exact I].
      apply and_then_orderly; [apply cleaned_orderly|].
      intros [cleaned_html|] m4.
      * destruct (PyStr.truthy cleaned_html).
        -- apply and_then_orderly; [apply result_orderly|].
           intros output_filename m5.
           apply and_then_orderly; [|intros; exact I].
           destruct (save_cleaned_html_returns output_filename cleaned_html m5)
             as (m6 & ->). exact I.
        -- apply and_then_orderly; [exact I | intros; exact I].
      * apply and_then_orderly; [exact I | intros; exact I].
Qed.

Lemma process_urls_orderly total_urls urls :
  forall i c (m : Machine Outside),
    orderly (fst (process_urls host lib platform total_urls i urls c m)).
Proof.
  induction urls as [|url rest IH]; intros i c m; [exact I|].
  cbn [process_urls]. apply and_then_orderly;
    [apply process_url_orderly | intros; apply IH].
Qed.

Lemma setup_environment_orderly (m : Machine Outside) :
  orderly (fst (setup_environment host m)).
Proof.
  unfold setup_environment, try_catch, and_then, host_call, log, sys_exit.
  destruct (mkdir host (outside m)) as [[[] | e] o]; [exact I|].
  destruct e; cbn; try discriminate. now right.
Qed.

Lemma load_urls_orderly (m : Machine Outside) :
  orderly (fst (load_urls host m)).
Proof.
  unfold load_urls, and_then, host_read, log, done, raise.
  destruct (is_file host (outside m)) as [[|] o]; cbn [negb outside records];
    [|exact I].
  destruct (read_lines host o) as [[lines failure] o'].
  cbn [fst snd].
  destruct failure as [[| | |e]|]; cbn; try exact I; discriminate.
Qed.

Lemma summary_exits total_urls c (m : Machine Outside) :
  exists code m',
    summary total_urls c m = (Exit code, m') /\ (code = 0 \/ code = 1).
Proof.
  unfold summary, and_then, log, sys_exit.
  destruct (0 <? fetch_error_count c + clean_error_count c);
    [eexists _, _; split; [reflexivity | now right]|].
  destruct ((0 <? skip_count c) || _);
    eexists _, _; (split; [reflexivity | now left]).
Qed.

Lemma orderly_orderly_but (P : Prop) {A : Type} (out : Outcome A) :
  orderly out -> orderly_but P out.
Proof. destruct out; cbn; auto. Qed.

Lemma and_then_orderly_but (P : Prop) {A B : Type} (p : Prog Outside A)
  (k : A -> Prog Outside B) m :
  orderly_but P (fst (p m)) ->
  (forall a m1, orderly_but P (fst (k a m1))) ->
  orderly_but P (fst (and_then p k m)).
Proof.
  unfold and_then. intros Hp Hk.
  destruct (p m) as [[a | code | e] m1]; [apply Hk | exact Hp | exact Hp].
Qed.

(** The body of the [with] statement of [main] and the client around it:
    an [OSError] gets out only where the client raised it. *)
Lemma with_client_orderly {A : Type} (body : Prog Outside A)
  (m : Machine Outside) :
  (forall m1, orderly (fst (body m1))) ->
  orderly_but (client_fails host)
    (fst ((and_then (host_call (client_open host))
             (fun _ => leaving body (host_call (client_close host)))) m)).
Proof.
  intros Hbody. unfold and_then, leaving, host_call.
  destruct (client_open host (outside m)) as [[[] | e] o] eqn:Hopen.
  - specialize (Hbody {| outside := o; records := records m |}).
    destruct (body _) as [ended m1].
    destruct (client_close host (outside m1)) as [[[] | e] o'] eqn:Hclose.
    + cbn [fst] in *. now apply orderly_orderly_but.
    + cbn. destruct e; try (left; discriminate).
      right. right. exists (outside m1). now rewrite Hclose.
  - cbn. destruct e; try (left; discriminate).
    right. left. exists (outside m). now rewrite Hopen.
Qed.

(** X16. [main] never returns: a run ends with exit status 0 or 1, or
    with an exception; and the exception is an OSError only where
    opening or closing the HTTP client raised one. *)
Theorem main_exits (m : Machine Outside) :
  match fst (main host lib platform m) with
  | Done _ => False
  | Exit code => code = 0 \/ code = 1
  | Crash e => e <> OSError \/ client_fails host
  end.
Proof.
  assert (Horderly :
            orderly_but (client_fails host) (fst (main host lib platform m))).
  { unfold main.
    apply and_then_orderly_but; [exact I | intros _ m1].
    apply and_then_orderly_but;
      [apply orderly_orderly_but, setup_environment_orderly | intros _ m2].
    apply and_then_orderly_but;
      [apply orderly_orderly_but, load_urls_orderly | intros urls m3].
    destruct (is_nil urls).
    - apply and_then_orderly_but; [exact I | intros _ m4]. now left.
    - apply and_then_orderly_but.
      + apply with_client_orderly. intros m4.
        apply and_then_orderly; [exact I | intros _ m5].
        apply process_urls_orderly.
      + intros c m5.
        destruct (summary_exits (length urls) c m5) as (code & m6 & -> & Hc).
        exact Hc. }
  assert (Hends : forall b m', main host lib platform m <> (Done b, m')).
  { intros b m'. unfold main.
    apply and_then_ends. intros _ m1 b1 m1'.
    apply and_then_ends. intros _ m2 b2 m2'.
    apply and_then_ends. intros urls m3 b3 m3'.
    destruct (is_nil urls).
    - apply and_then_ends. intros _ m4 b4 m4'. unfold sys_exit. discriminate.
    - apply and_then_ends. intros c m5 b5 m5'.
      destruct (summary_exits (length urls) c m5) as (code & m6 & -> & _).
      discriminate. }
  destruct (main host lib platform m) as [[b | code | e] m'];
    [now apply (Hends b m') | exact Horderly | exact Horderly].
Qed.

End ProgramFacts.

Lemma urls_accounted_witness :
  accounted {| processed_count := 1; fetch_error_count := 1;
               clean_error_count := 0; skip_count := 1 |}
  = accounted zero_counts + 3.
Proof.
  apply (urls_accounted _ host_stand_in Stub.library platform_stand_in 3
           ["https://e.com/p"; "ftp://e.com/q"; "https://e.com/missing"]
           1 zero_counts machine_stand_in _
           (snd (process_urls host_stand_in Stub.library platform_stand_in 3 1
                   ["https://e.com/p"; "ftp://e.com/q";
                    "https://e.com/missing"]
                   zero_counts machine_stand_in))).
  vm_compute. reflexivity.
Defined.

Lemma exit_status_witness :
  fst (summary 3 {| processed_count := 1; fetch_error_count := 1;
                    clean_error_count := 0; skip_count := 1 |}
         machine_stand_in)
  = Exit 1.
Proof.
  apply (exit_status _ 3 {| processed_count := 1; fetch_error_count := 1;
                            clean_error_count := 0; skip_count := 1 |}
           machine_stand_in).
  reflexivity.
Defined.

(** ** The shape of the document that is returned *)

Lemma blank_same_ink s t : ink s = ink t -> blank s = blank t.
Proof.
  intros H. destruct (blank s) eqn:Hs, (blank t) eqn:Ht; try reflexivity.
  - apply blank_ink in Hs. rewrite H in Hs. apply blank_ink in Hs. congruence.
  - apply blank_ink in Ht. rewrite <- H in Ht. apply blank_ink in Ht. congruence.
Qed.

Lemma blank_strip s : blank (PyStr.strip s) = blank s.
Proof. apply blank_same_ink, ink_strip. Qed.

Lemma blank_normalized s : blank (normalized s) = blank s.
Proof. apply blank_same_ink, ink_normalized. Qed.

Lemma truthy_normalized s : PyStr.truthy (normalized s) = negb (blank s).
Proof.
  unfold normalized. rewrite strip_blank. f_equal.
  apply blank_same_ink. apply ink_collapse.
Qed.

Lemma forallb_flat_map {A B : Type} (p : B -> bool) (f : A -> list B) l :
  forallb (fun x => forallb p (f x)) l = true ->
  forallb p (flat_map f l) = true.
Proof.
  induction l as [|x r IH]; [reflexivity|].
  cbn [forallb flat_map]. intros H. apply andb_prop in H.
  destruct H as [Hx Hr]. now rewrite forallb_app, Hx, IH.
Qed.

Lemma splice_solid c : solid c = true -> forallb solid (splice c) = true.
Proof.
  intros H. unfold splice. destruct (is_fragment c).
  - destruct c as [s | name attrs contents]; [reflexivity|].
    cbn [solid] in H. apply andb_prop in H. apply H.
  - cbn [forallb]. now rewrite H.
Qed.

Section Solid.

Variable lib : Library.
Variable original_url : string.
Variable max_depth : nat.

(** From a soup whose names are in lower case the transformer builds
    solid nodes. *)
Lemma clean_solid element :
  all_tags lowercase element ->
  forall depth r,
    fst (clean_element_recursively lib original_url max_depth element depth)
    = Some r ->
    solid r = true.
Proof.
  induction element as [s | name attrs contents IH] using Node_ind_nested;
    intros Hlow depth r Hr;
    (destruct (Nat.le_gt_cases depth max_depth) as [Hd | Hd];
     [|rewrite clean_beyond_depth in Hr by assumption; discriminate]).
  - rewrite clean_string in Hr by assumption. cbn [fst] in Hr.
    destruct (PyStr.truthy (PyStr.strip s)) eqn:E; [|discriminate].
    injection Hr as <-. cbn [solid].
    rewrite strip_blank in E. now rewrite blank_strip.
  - apply all_tags_tag in Hlow. destruct Hlow as [Hname Hlow].
    unfold lowercase in Hname.
    assert (Hkids :
      forallb solid
        (fst (clean_each
                (fun child =>
                   clean_element_recursively lib original_url max_depth child
                     (S depth)) contents)) = true).
    { apply forallb_forall. intros c Hc.
      destruct (clean_each_In _ _ _ Hc) as [child [Hin Hf]].
      rewrite Forall_forall in IH, Hlow. eapply IH; eauto. }
    destruct (PyStr.mem (PyStr.lower name) LLM_OPTIMIZED_TAGS) eqn:Hallowed.
    + rewrite clean_allowed in Hr by assumption. cbv zeta in Hr.
      assert (Hspliced :
        forallb solid
          (flat_map splice
             (fst (clean_each
                     (fun child =>
                        clean_element_recursively lib original_url max_depth
                          child (S depth)) contents))) = true).
      { apply forallb_flat_map. apply forallb_forall. intros c Hc.
        apply splice_solid. rewrite forallb_forall in Hkids. auto. }
      rewrite Hname in Hr.
      destruct (flat_map splice _) as [|c r'] eqn:E; cbn [is_nil andb] in Hr.
      * destruct (PyStr.mem name ["br"; "hr"]) eqn:Hv; [|discriminate].
        cbn [negb] in Hr. injection Hr as <-. cbn [solid is_nil negb orb].
        rewrite Hv. now rewrite orb_true_r.
      * injection Hr as <-. cbn [solid is_nil negb orb]. exact Hspliced.
    + rewrite clean_disallowed in Hr by assumption.
      destruct (fst (clean_each _ contents)) as [|c fragment] eqn:E;
        [discriminate|].
      injection Hr as <-. cbn [solid is_nil negb orb]. exact Hkids.
Qed.

End Solid.

(** The whitespace pass keeps a solid node, and keeps it solid. *)
Lemma normalize_strings_solid n :
  solid n = true ->
  forall parent_name,
    exists n', normalize_strings parent_name n = [n'] /\ solid n' = true.
Proof.
  induction n as [s | name attrs contents IH] using Node_ind_nested;
    intros Hs parent_name.
  - cbn [normalize_strings solid] in *.
    destruct (negb (PyStr.mem parent_name VERBATIM_PARENTS));
      [|now exists (NavigableString s)].
    cbv zeta. fold (normalized s). rewrite truthy_normalized, Hs.
    exists (NavigableString (normalized s)). split; [reflexivity|].
    cbn [solid]. now rewrite blank_normalized.
  - cbn [normalize_strings].
    eexists. split; [reflexivity|].
    cbn [solid] in *. apply andb_prop in Hs. destruct Hs as [Hshape Hkids].
    assert (Hall : forall l,
               Forall (fun n => solid n = true ->
                                forall parent_name,
                                exists n', normalize_strings parent_name n = [n']
                                           /\ solid n' = true) l ->
               forallb solid l = true ->
               forallb solid (flat_map (normalize_strings name) l) = true
               /\ is_nil (flat_map (normalize_strings name) l) = is_nil l).
    { induction 1 as [|c r Hc _ IHr]; [now split|].
      cbn [forallb flat_map]. intros H. apply andb_prop in H.
      destruct H as [H1 H2]. destruct (Hc H1 name) as [c' [-> Hc']].
      destruct (IHr H2) as [Hr _]. cbn [app forallb is_nil].
      now rewrite Hc', Hr. }
    destruct (Hall contents IH Hkids) as [H1 H2].
    now rewrite H1, H2, Hshape.
Qed.

Lemma normalize_body_solid parent_name body :
  forallb solid body = true ->
  forallb solid (flat_map (normalize_strings parent_name) body) = true
  /\ is_nil (flat_map (normalize_strings parent_name) body) = is_nil body.
Proof.
  induction body as [|c r IH]; [now split|].
  cbn [forallb flat_map]. intros H. apply andb_prop in H.
  destruct H as [H1 H2].
  destruct (normalize_strings_solid c H1 parent_name) as [c' [-> Hc']].
  destruct (IH H2) as [Hr _]. cbn [app forallb is_nil].
  now rewrite Hc', Hr.
Qed.

(** Nothing solid is structurally empty. *)
Lemma solid_not_empty n :
  solid n = true ->
  existsb structurally_empty (descendants_or_self n) = false.
Proof.
  induction n as [s | name attrs contents IH] using Node_ind_nested;
    [reflexivity|].
  cbn [solid descendants_or_self existsb]. intros H.
  apply andb_prop in H. destruct H as [Hshape Hkids].
  apply orb_false_intro.
  - cbn [structurally_empty].
    destruct (PyStr.mem name ["br"; "hr"]); [reflexivity|].
    destruct contents; [|reflexivity].
    destruct attrs; [discriminate | reflexivity].
  - clear Hshape. induction IH as [|c r Hc _ IHr]; [reflexivity|].
    cbn [forallb flat_map] in *. apply andb_prop in Hkids.
    destruct Hkids as [H1 H2]. rewrite existsb_app.
    now rewrite (Hc H1), (IHr H2).
Qed.

Lemma solid_fixed soup :
  solid soup = true -> remove_empty_tags soup = soup.
Proof.
  intros H. apply solid_not_empty in H.
  assert (Hbelow : existsb structurally_empty (descendant_tags soup) = false).
  { destruct soup as [s | name attrs contents]; [reflexivity|].
    cbn [descendants_or_self existsb] in H.
    apply orb_false_elim in H. apply H. }
  unfold remove_empty_tags. cbn [remove_empty_loop].
  now rewrite filter_nil_existsb, Hbelow.
Qed.

Lemma new_soup_solid lang title body :
  blank title = false ->
  is_nil body = false ->
  forallb solid body = true ->
  solid (new_soup lang title body) = true.
Proof.
  intros Ht Hn Hb. unfold new_soup. cbn [solid forallb is_nil negb orb andb].
  now rewrite Ht, Hn, Hb.
Qed.

Lemma normalize_whitespace_new_soup lang title body :
  blank title = false ->
  normalize_whitespace (new_soup lang title body)
  = new_soup lang (normalized title)
      (flat_map (normalize_strings "body") body).
Proof.
  intros Ht. unfold new_soup.
  cbn [normalize_whitespace normalize_strings flat_map app].
  change (PyStr.mem "title" VERBATIM_PARENTS) with false. cbn [negb].
  fold (normalized title). now rewrite truthy_normalized, Ht.
Qed.

(** In the new soup a paragraph lies in the body. *)
Lemma paragraph_in_body lang title body pos :
  In pos (find_all_positions (named "p") (new_soup lang title body)) ->
  exists k rest, pos = 0 :: 1 :: k :: rest.
Proof.
  unfold find_all_positions. intros H. apply filter_In in H.
  destruct H as [_ H]. unfold satisfies_at, new_soup in H.
  destruct pos as [|a pos]; [discriminate|].
  destruct a as [|a]; [|cbn in H; destruct a; discriminate].
  destruct pos as [|b pos]; [discriminate|].
  destruct b as [|[|b]].
  - destruct pos as [|c pos]; [discriminate|].
    destruct c as [|[|c]].
    + destruct pos as [|d pos]; [discriminate|].
      cbn in H. destruct d; discriminate.
    + destruct pos as [|d pos]; [discriminate|].
      destruct d as [|d]; [|cbn in H; destruct d; discriminate].
      destruct pos as [|e pos]; [discriminate|].
      cbn in H. destruct e; discriminate.
    + cbn in H. destruct c; discriminate.
  - destruct pos as [|k rest]; [discriminate|]. now exists k, rest.
  - cbn in H. destruct b; discriminate.
Qed.

(** A change below the body leaves the rest of the new soup as it is. *)
Lemma update_at_body lang title body k rest f :
  update_at (0 :: 1 :: k :: rest) f (new_soup lang title body)
  = new_soup lang title
      (contents_of (update_at (k :: rest) f (Tag "body" [] body))).
Proof. reflexivity. Qed.

Lemma get_at_body lang title body pos :
  get_at (0 :: 1 :: pos) (new_soup lang title body)
  = get_at pos (Tag "body" [] body).
Proof. reflexivity. Qed.

Lemma merge_pair_new_soup lang title body k rest k' rest' :
  exists body',
    merge_pair (0 :: 1 :: k :: rest) (0 :: 1 :: k' :: rest')
      (new_soup lang title body)
    = new_soup lang title body'.
Proof.
  unfold merge_pair.
  destruct (get_at (0 :: 1 :: k :: rest) _) as [prev_p|]; [|now exists body].
  destruct (get_at (0 :: 1 :: k' :: rest') _) as [current_p|];
    [|now exists body].
  destruct (_ && _); [|now exists body].
  rewrite update_at_body, update_at_body. eexists. reflexivity.
Qed.

Lemma merge_backwards_new_soup lang title paragraphs :
  Forall (fun pos => exists k rest, pos = 0 :: 1 :: k :: rest) paragraphs ->
  forall body,
    exists body',
      merge_backwards paragraphs (new_soup lang title body)
      = new_soup lang title body'.
Proof.
  induction 1 as [|current_pos rest Hcurrent Hrest IH]; intros body;
    [now exists body|].
  cbn [merge_backwards]. destruct rest as [|prev_pos rest']; [now exists body|].
  destruct Hcurrent as (k' & r' & ->).
  inversion Hrest as [|? ? (k & r & ->) _]; subst.
  destruct (merge_pair_new_soup lang title body k r k' r') as [body' ->].
  apply IH.
Qed.

Lemma merge_paragraphs_new_soup lang title body :
  exists body',
    merge_paragraphs (new_soup lang title body) = new_soup lang title body'.
Proof.
  unfold merge_paragraphs. apply merge_backwards_new_soup.
  apply Forall_forall. intros pos Hin. apply in_rev in Hin.
  now apply paragraph_in_body in Hin.
Qed.

Lemma find_body_new_soup lang title body :
  find_position (named "body") (new_soup lang title body) = Some [0; 1].
Proof. reflexivity. Qed.

Lemma child_In_descendants name attrs contents child :
  In child contents -> is_tag child = true ->
  In child (descendant_tags (Tag name attrs contents)).
Proof.
  intros Hin Htag. unfold descendant_tags. apply in_flat_map.
  exists child. split; [exact Hin|].
  destruct child; [discriminate | now left].
Qed.

(** The injector puts the section into the body of the new soup, and the
    heading after it where the body has none. *)
Lemma add_llm_metadata_new_soup lang title body original_url original_title
  timestamp :
  exists body',
    fst (add_llm_metadata (new_soup lang title body) original_url
           original_title timestamp)
    = new_soup lang title body'
    /\ In (meta_section original_url timestamp) body'
    /\ (PyStr.truthy original_title = false
        \/ exists h1,
             In h1 (descendant_tags (Tag "body" [] body'))
             /\ named "h1" h1 = true).
Proof.
  unfold add_llm_metadata. rewrite find_body_new_soup. cbv zeta.
  change (node_at [0; 1] (new_soup lang title body)) with (Tag "body" [] body).
  set (section := meta_section original_url timestamp).
  set (section_pos :=
         match find_position (fun _ => true) (Tag "body" [] body) with
         | Some first => [0; 1] ++ first
         | None => _
         end).
  set (soup' :=
         match find_position (fun _ => true) (Tag "body" [] body) with
         | Some _ => insert_before _ _ _
         | None => _
         end).
  assert (Hplaced : exists j body1,
    section_pos = [0; 1; j]
    /\ soup' = new_soup lang title body1
    /\ nth_error body1 j = Some section).
  { unfold soup', section_pos. clear soup' section_pos.
    destruct (find_position (fun _ => true) (Tag "body" [] body))
      as [first|] eqn:Hfirst.
    - pose proof (find_position_get (fun _ => true) (Tag "body" [] body)) as Hg.
      rewrite Hfirst in Hg. destruct Hg as [Hg Hsome].
      destruct (first_position_child _ _ Hfirst) as [i ->].
      exists i. eexists. split; [reflexivity|].
      unfold insert_before. cbn [app]. rewrite update_at_body.
      split; [reflexivity|].
      cbn [update_at contents_of]. cbn [get_at contents_of] in Hg.
      destruct (nth_error body i) as [n|] eqn:Hn;
        [|now rewrite <- Hg in Hsome].
      now apply (splice_nth_get (fun child => [section; child]) body i n
                   section [n]).
    - exists (length body), (body ++ [section]).
      split; [reflexivity|]. split; [reflexivity|].
      apply nth_error_middle. }
  destruct Hplaced as (j & body1 & Hpos & Hsoup & Hsection).
  rewrite Hsoup, Hpos. clear Hsoup Hpos soup' section_pos.
  change (node_at [0; 1] (new_soup lang title body1))
    with (Tag "body" [] body1).
  destruct (find "h1" (Tag "body" [] body1)) as [h|] eqn:Hh1.
  - exists body1. cbn [fst]. split; [reflexivity|].
    split; [eapply nth_error_In; eauto|].
    right. exists h. now apply find_In_descendants in Hh1.
  - destruct (PyStr.truthy original_title) eqn:Htitle.
    + cbn [fst]. unfold insert_after. rewrite update_at_body.
      eexists. split; [reflexivity|].
      cbn [update_at contents_of].
      split.
      * eapply nth_error_In.
        apply (splice_nth_get
                 (fun child =>
                    [child; Tag "h1" [] [NavigableString original_title]])
                 body1 j section section
                 [Tag "h1" [] [NavigableString original_title]] Hsection).
        reflexivity.
      * right. exists (Tag "h1" [] [NavigableString original_title]).
        split; [|reflexivity].
        apply child_In_descendants; [|reflexivity].
        eapply nth_error_In.
        apply (splice_nth_get_next
                 (fun child =>
                    [child; Tag "h1" [] [NavigableString original_title]])
                 body1 j section section
                 (Tag "h1" [] [NavigableString original_title]) [] Hsection).
        reflexivity.
    + exists body1. cbn [fst]. split; [reflexivity|].
      split; [eapply nth_error_In; eauto | now left].
Qed.

Lemma extract_main_content_within lib soup :
  fst (extract_main_content lib soup) = soup
  \/ In (fst (extract_main_content lib soup)) (descendant_tags soup).
Proof.
  unfold extract_main_content.
  destruct (try_selectors soup selectors) as [[selector candidate]|] eqn:Hsel.
  - cbn [fst]. apply try_selectors_Some in Hsel.
    destruct Hsel as [Hin [Hone _]]. right.
    unfold select_one in Hone. now apply find_some in Hone.
  - destruct (density_candidates lib soup) as [|first rest] eqn:Hd.
    + cbn [fst].
      destruct (find "body" soup) as [body|] eqn:Hbody; [right | now left].
      now apply find_In in Hbody.
    + cbn [fst]. right.
      destruct (max_item_greatest rest first) as [Hin _].
      assert (Hbest : In (max_item first rest) (density_candidates lib soup))
        by now rewrite Hd.
      destruct (max_item first rest) as [best score].
      now destruct (density_candidates_sound lib soup best score Hbest)
        as [H1 _].
Qed.

Lemma strip_undesirables_all_tags P soup :
  all_tags P soup -> all_tags P (strip_undesirables soup).
Proof.
  intros H. unfold strip_undesirables.
  assert (Hfold : forall names n,
             all_tags P n ->
             all_tags P (fold_left (fun soup tag_name =>
                                      remove_tags (named tag_name) soup)
                                   names n)).
  { induction names as [|x r IH]; intros n Hn; [exact Hn|].
    cbn [fold_left]. apply IH. now apply remove_tags_all_tags. }
  apply Hfold. now do 3 apply remove_tags_all_tags.
Qed.

Lemma all_tags_descendant P soup t :
  all_tags P soup -> In t (descendants_or_self soup) -> all_tags P t.
Proof.
  induction soup as [s | name attrs contents IH] using Node_ind_nested;
    [intros _ []|].
  intros H. cbn [descendants_or_self]. intros [<- | Hin]; [exact H|].
  apply all_tags_tag in H. destruct H as [_ H].
  apply in_flat_map in Hin. destruct Hin as [child [Hchild Hin]].
  rewrite Forall_forall in IH, H. eapply IH; eauto.
Qed.

Lemma build_clean_soup_new_soup lib soup main_content_element original_url
  original_title :
  all_tags lowercase main_content_element ->
  exists body,
    fst (build_clean_soup lib soup main_content_element original_url
           original_title)
    = new_soup (lang_of soup) (normalized ("Cleaned: " ++ original_title))
        body.
Proof.
  intros Hlow. unfold build_clean_soup.
  destruct (clean_each _ _) as [cleaned w] eqn:E.
  assert (Hcleaned : forallb solid cleaned = true).
  { replace cleaned with (fst (clean_each
      (fun element =>
         clean_element_recursively lib original_url DEFAULT_MAX_DEPTH element 0)
      (if named "body" main_content_element
       then contents_of main_content_element else [main_content_element])))
      by now rewrite E.
    apply forallb_forall. intros c Hc.
    destruct (clean_each_In _ _ _ Hc) as [child [Hin Hf]].
    apply (clean_solid lib original_url DEFAULT_MAX_DEPTH child) in Hf;
      [exact Hf|].
    destruct (named "body" main_content_element).
    - apply all_tags_split in Hlow. destruct Hlow as [_ Hlow].
      unfold all_below in Hlow. rewrite Forall_forall in Hlow. auto.
    - destruct Hin as [<- | []]. exact Hlow. }
  assert (Hbody : forallb solid (flat_map splice cleaned) = true).
  { apply forallb_flat_map. apply forallb_forall. intros c Hc.
    apply splice_solid. rewrite forallb_forall in Hcleaned. auto. }
  assert (Hsoup : forall body,
             is_nil body = false -> forallb solid body = true ->
             exists body',
               normalize_text_content
                 (preserve_code_blocks
                    (simplify_tables
                       (new_soup (lang_of soup)
                          ("Cleaned: " ++ original_title) body)))
               = new_soup (lang_of soup)
                   (normalized ("Cleaned: " ++ original_title)) body').
  { intros body Hn Hs.
    unfold simplify_tables, preserve_code_blocks, normalize_text_content.
    rewrite normalize_whitespace_new_soup by reflexivity.
    destruct (normalize_body_solid "body" body Hs) as [Hs' Hn'].
    rewrite solid_fixed.
    - apply merge_paragraphs_new_soup.
    - apply new_soup_solid; [|congruence | exact Hs'].
      now rewrite blank_normalized. }
  destruct (flat_map splice cleaned) as [|c body] eqn:Eb; cbn [fst].
  - apply Hsoup; reflexivity.
  - apply Hsoup; [reflexivity | exact Hbody].
Qed.

(** X10. The document is complete.  For a soup whose tag names are in
    lower case, as the parser gives them, the document the pipeline hands
    to the serializer is the skeleton (html with its lang, head with the
    charset and the title, body) whatever the page held: the title is
    the normalized text of Cleaned: and the title of the page, the
    metadata section is a child of the body, and the body has an h1
    unless the title of the page is empty. *)
Theorem document_complete (lib : Library) (soup : Node)
  (original_url timestamp : string) :
  all_tags lowercase soup ->
  exists body,
    document lib soup original_url timestamp
    = new_soup (lang_of (strip_undesirables soup))
        (normalized ("Cleaned: " ++ title_of soup)) body
    /\ In (meta_section original_url timestamp) body
    /\ (PyStr.truthy (title_of soup) = false
        \/ exists h1,
             In h1 (descendant_tags (Tag "body" [] body))
             /\ named "h1" h1 = true).
Proof.
  intros Hlow. unfold document. cbv zeta.
  apply (strip_undesirables_all_tags lowercase) in Hlow.
  set (stripped := strip_undesirables soup) in *.
  assert (Hroot : all_tags lowercase (fst (extract_main_content lib stripped))).
  { destruct (extract_main_content_within lib stripped) as [-> | Hin];
      [exact Hlow|].
    apply (all_tags_descendant lowercase stripped); [exact Hlow|].
    destruct stripped as [s | name attrs contents]; [destruct Hin|].
    now right. }
  destruct (build_clean_soup_new_soup lib stripped
              (fst (extract_main_content lib stripped)) original_url
              (title_of soup) Hroot) as [body ->].
  apply add_llm_metadata_new_soup.
Qed.

Lemma document_complete_witness :
  exists body,
    document Stub.library Stub.hello Stub.url Stub.midnight
    = new_soup (lang_of (strip_undesirables Stub.hello))
        (normalized ("Cleaned: " ++ title_of Stub.hello)) body
    /\ In (meta_section Stub.url Stub.midnight) body
    /\ (PyStr.truthy (title_of Stub.hello) = false
        \/ exists h1,
             In h1 (descendant_tags (Tag "body" [] body))
             /\ named "h1" h1 = true).
Proof.
  apply (document_complete Stub.library Stub.hello Stub.url Stub.midnight).
  unfold all_tags. cbn [Stub.hello descendants_or_self flat_map app].
  repeat (apply Forall_cons; [reflexivity|]). apply Forall_nil.
Defined.
